(** * Polymarket screener: trader scoring, aggregation, signals and
      incremental activity tracking

    A shallow embedding of the scoring and polling logic of the repository:

    - [Js]: the JavaScript value conventions the code leans on ([x || d] on
      numbers and strings, [NaN] from [new Date(..).getTime()]).
    - [Effect]: statements that write to a state object and may throw, and
      [try]/[catch] around them.
    - [Metrics]: win/loss statistics of closed positions and the profit
      factor, as computed by [calculateEdgeScore] and by the copy-candidates
      handler.
    - [Leaderboard], [EdgeScore]: leaderboard records and
      [calculateEdgeScore].
    - [Aggregator]: the dedupe loops over leaderboard windows.
    - [Signals]: confidence tiers, [generateSignals] and its history file.
    - [Activity], [WhaleWatcher], [CloudWatcher]: activity records and
      [checkTraderActivity] of the two whale watchers.
    - [JsArray]: [Array.prototype.sort] under a consistent comparator.
    - [Screening], [EdgeTraders], [Detector], [ActivityFeed]: the handlers
      and the detector that rank traders and trades.
    - [SignalFeed], [Following]: the positions gathered for signals and the
      list of followed traders.
    - [Watchlist], [CloudWatchlist], [Polling]: how the two watchers build
      their watchlists, and runs of the polling loop.
    - [Paging], [TraderIndex], [Report]: leaderboard pages, the trader
      index and the printing of amounts.

    Numbers are IEEE doubles in the program.  They are idealised here:
    amounts and prices are rationals ([Q]), epoch timestamps are integers
    ([Z]), and only the part of the edge score that goes through
    [Math.log10] lives in [R]. *)

From Stdlib Require Import ZArith QArith Qabs Qminmax Qround Reals Qreals Lra Lia List.
From Stdlib Require Import Sorted Permutation.
From Stdlib Require Lqa.
From stdpp Require Import gmap strings.
Import ListNotations.

(** ** JavaScript conventions *)

Module Js.

(** A possibly missing numeric field of a JSON record.  [None] stands for
    [undefined]/[null]. *)
Definition field := option Q.

Definition Qltb (x y : Q) : bool := negb (Qle_bool y x).

(** [x || y] on two numeric fields: the left one when it is truthy (present
    and not 0), else the right one. *)
Definition or_field (x y : field) : field :=
  match x with
  | Some q => if Qeq_bool q 0 then y else x
  | None => y
  end.

(** [x || d] with a numeric literal on the right. *)
Definition or_num (x : field) (d : Q) : Q :=
  match x with
  | Some q => if Qeq_bool q 0 then d else q
  | None => d
  end.

(** [x > 0] and [x < 0] on a field; both are false on [undefined]. *)
Definition gt0 (x : field) : bool :=
  match x with Some q => Qltb 0 q | None => false end.
Definition lt0 (x : field) : bool :=
  match x with Some q => Qltb q 0 | None => false end.

(** [x || y] on strings: the empty string and a missing one are falsy. *)
Definition or_str (x y : option string) : option string :=
  match x with
  | Some s => if String.eqb s "" then y else x
  | None => y
  end.

(** A JavaScript number holding an integer time value, or [NaN]. *)
Inductive num := Num (z : Z) | NaN.

(** [x || d] on a time value: [0] and [NaN] are falsy. *)
Definition truthy (x : num) : bool :=
  match x with Num z => negb (z =? 0)%Z | NaN => false end.

(** [a <= b]; false as soon as one side is [NaN]. *)
Definition le (a b : num) : bool :=
  match a, b with
  | Num x, Num y => (x <=? y)%Z
  | _, _ => false
  end.

(** [a > b]; false as soon as one side is [NaN]. *)
Definition gt (a b : num) : bool :=
  match a, b with
  | Num x, Num y => (y <? x)%Z
  | _, _ => false
  end.

(** [Math.max(a, b)]; [NaN] is absorbing. *)
Definition max2 (a b : num) : num :=
  match a, b with
  | Num x, Num y => Num (Z.max x y)
  | _, _ => NaN
  end.

End Js.

(** ** Exceptions over a mutable state *)

Module Effect.

(** A statement either completes with a value or throws; in both cases it
    leaves behind the state it has reached: a [catch] does not undo the
    writes made before the [throw]. *)
Inductive completion (A : Type) : Type :=
  | Returned (a : A)
  | Thrown.
Arguments Returned {A} a.
Arguments Thrown {A}.

Definition M (S A : Type) : Type := S -> completion A * S.

Definition ret {S A} (a : A) : M S A := fun s => (Returned a, s).

Definition throw {S A} : M S A := fun s => (Thrown, s).

Definition bind {S A B} (c : M S A) (k : A -> M S B) : M S B :=
  fun s =>
    match c s with
    | (Returned a, s') => k a s'
    | (Thrown, s') => (Thrown, s')
    end.

Definition get {S} : M S S := fun s => (Returned s, s).

Definition modify {S} (f : S -> S) : M S unit := fun s => (Returned tt, f s).

(** [try { body } catch (err) { return handler }]: the handler runs in the
    state the body had reached when it threw. *)
Definition try_catch {S A} (body : M S A) (handler : S -> A * S) : S -> A * S :=
  fun s =>
    match body s with
    | (Returned a, s') => (a, s')
    | (Thrown, s') => handler s'
    end.

Module Notations.
Notation "'let*' x ':=' c 'in' k" := (bind c (fun x => k))
  (at level 10, x name, c at level 100, k at level 200).
End Notations.

End Effect.

(** ** Closed-position metrics *)

Module Metrics.
Import Js.
Local Open Scope Q_scope.

Record ClosedPosition := { realizedPnl : field }.

(** The amount added by [s + p.realizedPnl].  The reducers only run over
    [wins] and [losses], where the field is present. *)
Definition amount (p : ClosedPosition) : Q :=
  match realizedPnl p with Some q => q | None => 0 end.

(** [closedPositions.filter(p => p.realizedPnl > 0)] *)
Definition wins (closed : list ClosedPosition) : list ClosedPosition :=
  List.filter (fun p => gt0 (realizedPnl p)) closed.

(** [closedPositions.filter(p => p.realizedPnl < 0)] *)
Definition losses (closed : list ClosedPosition) : list ClosedPosition :=
  List.filter (fun p => lt0 (realizedPnl p)) closed.

Definition totalTrades (closed : list ClosedPosition) : nat :=
  (length (wins closed) + length (losses closed))%nat.

(** [xs.reduce((s, p) => s + p.realizedPnl, 0)] *)
Definition sumPnl (xs : list ClosedPosition) : Q :=
  fold_left (fun s p => s + amount p) xs 0.

Definition totalWins (closed : list ClosedPosition) : Q :=
  sumPnl (wins closed).

Definition totalLosses (closed : list ClosedPosition) : Q :=
  Qabs (sumPnl (losses closed)).

Definition ratio (n d : nat) : Q := inject_Z (Z.of_nat n) / inject_Z (Z.of_nat d).

(** [totalTrades > 0 ? wins.length / totalTrades : dflt]; the default is
    0.5 in [calculateEdgeScore] and 0 in the screening handlers. *)
Definition winRateOr (dflt : Q) (closed : list ClosedPosition) : Q :=
  match totalTrades closed with
  | O => dflt
  | n => ratio (length (wins closed)) n
  end.

(** [calculateEdgeScore] (api/edge-traders.js, the edge detector and the
    edge-aware activity endpoint all carry the same line):
    [totalLosses > 0 ? totalWins / totalLosses : totalWins > 0 ? 10 : 1] *)
Definition profitFactor (closed : list ClosedPosition) : Q :=
  if Qltb 0 (totalLosses closed) then totalWins closed / totalLosses closed
  else if Qltb 0 (totalWins closed) then 10
  else 1.

(** The copy-candidates handler:
    [totalLosses > 0 ? totalWins / totalLosses : 10] *)
Definition handler_profitFactor (closed : list ClosedPosition) : Q :=
  if Qltb 0 (totalLosses closed) then totalWins closed / totalLosses closed
  else 10.

(** The three-way policy, at one list of closed positions, for a profit
    factor function [pf]. *)
Definition pf_policy_at (pf : list ClosedPosition -> Q)
    (closed : list ClosedPosition) : Prop :=
  (0 < totalLosses closed -> pf closed == totalWins closed / totalLosses closed) /\
  (totalLosses closed == 0 -> 0 < totalWins closed -> pf closed == 10) /\
  (totalLosses closed == 0 -> totalWins closed == 0 -> pf closed == 1).

(** The policy of the copy-candidates handler: two cases only. *)
Definition pf_two_way_at (pf : list ClosedPosition -> Q)
    (closed : list ClosedPosition) : Prop :=
  (0 < totalLosses closed -> pf closed == totalWins closed / totalLosses closed) /\
  (totalLosses closed == 0 -> pf closed == 10).

End Metrics.

(** ** Leaderboard records *)

Module Leaderboard.
Import Js.

(** One entry of the upstream leaderboard. *)
Record Trader := {
  proxyWallet : string;
  userName : string;
  pnl : field;
  vol : field
}.

End Leaderboard.

(** ** The edge score *)

Module EdgeScore.
Import Js Metrics Leaderboard.
Local Open Scope R_scope.

(** [Math.log10] *)
Definition log10 (x : R) : R := ln x / ln 10.

(** [Math.round]: the nearest integer, halves going up. *)
Definition round (x : R) : R := IZR (Int_part (x + / 2)).

(** The five components, before weighting. *)
Record SubScores := {
  efficiencyScore : R;
  winRateScore : R;
  profitFactorScore : R;
  consistencyScore : R;
  sizeScore : R
}.

Definition volumeOf (trader : Trader) : R := Q2R (or_num (vol trader) 1).

Definition efficiencyOf (trader : Trader) : R :=
  Q2R (or_num (pnl trader) 0) / volumeOf trader.

Definition subScores (trader : Trader) (closedPositions : list ClosedPosition)
    : SubScores :=
  let volume := volumeOf trader in
  let efficiency := efficiencyOf trader in
  let totalTrades := totalTrades closedPositions in
  let winRate := Q2R (winRateOr (1 # 2) closedPositions) in
  let profitFactor := Q2R (profitFactor closedPositions) in
  {| efficiencyScore := Rmin (efficiency * 200) 100;
     winRateScore := winRate * 100;
     profitFactorScore := Rmin (profitFactor * 20) 100;
     consistencyScore :=
       if (20 <? totalTrades)%nat then 100 else INR totalTrades / 20 * 100;
     sizeScore := Rmin (log10 (volume + 1) * 15) 100 |}.

(** The weighted sum, as returned unrounded by the edge-aware activity
    endpoint. *)
Definition weighted (s : SubScores) : R :=
  efficiencyScore s * (30 / 100) +
  winRateScore s * (25 / 100) +
  profitFactorScore s * (20 / 100) +
  consistencyScore s * (15 / 100) +
  sizeScore s * (10 / 100).

(** The object returned by [calculateEdgeScore] in api/edge-traders.js. *)
Record Edge := {
  edgeScore : R;
  efficiency : R;
  winRate : R;
  profitFactor : R;
  wins : nat;
  losses : nat;
  totalTrades : nat
}.

Definition calculateEdgeScore (trader : Trader)
    (closedPositions : list ClosedPosition) : Edge :=
  let s := subScores trader closedPositions in
  {| edgeScore := round (weighted s * 10) / 10;
     efficiency := round (efficiencyOf trader * 1000) / 10;
     winRate := round (Q2R (winRateOr (1 # 2) closedPositions) * 1000) / 10;
     profitFactor := round (Q2R (Metrics.profitFactor closedPositions) * 100) / 100;
     wins := length (Metrics.wins closedPositions);
     losses := length (Metrics.losses closedPositions);
     totalTrades := Metrics.totalTrades closedPositions |}.

(** All five components and the final score within [0, 100]. *)
Definition in_range (x : R) : Prop := 0 <= x <= 100.

Definition scores_in_range (trader : Trader)
    (closedPositions : list ClosedPosition) : Prop :=
  let s := subScores trader closedPositions in
  in_range (efficiencyScore s) /\ in_range (winRateScore s) /\
  in_range (profitFactorScore s) /\ in_range (consistencyScore s) /\
  in_range (sizeScore s) /\
  in_range (weighted s) /\
  in_range (edgeScore (calculateEdgeScore trader closedPositions)).

End EdgeScore.

(** ** Trader aggregation across leaderboard windows *)

Module Aggregator.
Import Js Leaderboard.
Local Open Scope Q_scope.

(** A JavaScript [Map] keyed by wallet.  Iteration follows insertion order,
    so the map is kept as an association list in that order. *)
Definition TraderMap (V : Type) := list (string * V).

Definition has {V} (m : TraderMap V) (k : string) : bool :=
  existsb (fun kv => String.eqb (fst kv) k) m.

(** [m.set(k, v)]: a known key keeps its place and takes the new value, a
    new key goes last. *)
Definition set {V} (m : TraderMap V) (k : string) (v : V) : TraderMap V :=
  if has m k
  then List.map (fun kv => if String.eqb (fst kv) k then (k, v) else kv) m
  else m ++ [(k, v)].

(** [Array.from(m.values())] *)
Definition values {V} (m : TraderMap V) : list V := List.map snd m.

(** [(t.pnl || 0) > 0 && (t.vol || 0) > minVol], the test both fused loops
    carry next to [!traderMap.has(..)]. *)
Definition qualifies (minVol : Q) (t : Trader) : bool :=
  Qltb 0 (or_num (pnl t) 0) && Qltb minVol (or_num (vol t) 0).

(** *** The copy-candidates handler

    [for (const t of [...allTime, ...monthly, ...weekly])
       if (!traderMap.has(t.proxyWallet) && (t.pnl || 0) > 0 && (t.vol || 0) > 50000)
         traderMap.set(t.proxyWallet, t)] *)
Definition dedupe_step (minVol : Q) (traderMap : TraderMap Trader) (t : Trader)
    : TraderMap Trader :=
  if negb (has traderMap (proxyWallet t)) && qualifies minVol t
  then set traderMap (proxyWallet t) t
  else traderMap.

Definition dedupe (minVol : Q) (sources : list (list Trader)) : TraderMap Trader :=
  fold_left (dedupe_step minVol) (concat sources) [].

(** The aggregation with its volume floor as a parameter. *)
Definition aggregate (minVol : Q) (sources : list (list Trader)) : list Trader :=
  values (dedupe minVol sources).

(** [Array.from(traderMap.values()).slice(0, 50)], with the handler's floor
    of 50000. *)
Definition handler_traders (sources : list (list Trader)) : list Trader :=
  firstn 50 (aggregate 50000 sources).

(** *** The Cloud Run watcher's [updateWatchlist]

    Same loop with a floor of 10000, storing a rebuilt entry. *)
Record WatchEntry := {
  wallet : string;
  entryName : string;
  entryPnl : field;
  volume : field;
  entryEfficiency : field;
  isCopyCandidate : bool
}.

(** [t.pnl / (t.vol || 1)]; a missing [pnl] gives [NaN], kept as [None]. *)
Definition entry_of (t : Trader) : WatchEntry :=
  {| wallet := proxyWallet t;
     entryName := userName t;
     entryPnl := pnl t;
     volume := vol t;
     entryEfficiency :=
       match pnl t with
       | Some p => Some (p / or_num (vol t) 1)
       | None => None
       end;
     isCopyCandidate := false |}.

Definition watch_step (traderMap : TraderMap WatchEntry) (t : Trader)
    : TraderMap WatchEntry :=
  if negb (has traderMap (proxyWallet t)) && qualifies 10000 t
  then set traderMap (proxyWallet t) (entry_of t)
  else traderMap.

Definition watch_traderMap (sources : list (list Trader)) : TraderMap WatchEntry :=
  fold_left watch_step (concat sources) [].

(** *** The edge detector's [detectEdgeTraders]

    Dedupe first, filter afterwards:
    [if (!traderMap.has(trader.proxyWallet)) traderMap.set(..)] and then
    [.filter(t => (t.vol || 0) >= minVolume && (t.pnl || 0) > 0)]. *)
Definition detect_step (traderMap : TraderMap Trader) (trader : Trader)
    : TraderMap Trader :=
  if negb (has traderMap (proxyWallet trader))
  then set traderMap (proxyWallet trader) trader
  else traderMap.

Definition detect_traderMap (sources : list (list Trader)) : TraderMap Trader :=
  fold_left detect_step (concat sources) [].

Definition passes (minVolume : Q) (t : Trader) : bool :=
  Qle_bool minVolume (or_num (vol t) 0) && Qltb 0 (or_num (pnl t) 0).

Definition detect_candidates (minVolume : Q) (sources : list (list Trader))
    : list Trader :=
  List.filter (passes minVolume) (values (detect_traderMap sources)).

(** *** What first-seen-wins says *)

(** The first record of wallet [w] in processing order. *)
Definition first_of (w : string) (records : list Trader) : option Trader :=
  List.find (fun t => String.eqb (proxyWallet t) w) records.

(** The first record of wallet [w] that meets the fused test. *)
Definition first_qualifying (minVol : Q) (w : string) (records : list Trader)
    : option Trader :=
  List.find (fun t => String.eqb (proxyWallet t) w && qualifies minVol t) records.

(** One record per wallet, each the first of its wallet over all lists, each
    profitable with volume at least [minVol]. *)
Definition first_seen_wins (minVol : Q) (sources : list (list Trader))
    (out : list Trader) : Prop :=
  List.NoDup (List.map proxyWallet out) /\
  (forall t, In t out -> first_of (proxyWallet t) (concat sources) = Some t) /\
  (forall t, In t out -> 0 < or_num (pnl t) 0 /\ minVol <= or_num (vol t) 0).

End Aggregator.

(** ** Signal aggregation *)

Module Signals.
Import Js.
Local Open Scope Q_scope.

(** An open position tagged with its owner, as built by
    [getTraderPositions]. *)
Record Position := {
  conditionId : string;
  title : option string;
  eventSlug : option string;
  outcome : string;
  size : field;
  currentValue : field;
  avgPrice : field;
  curPrice : field;
  traderName : string;
  traderWallet : string
}.

Inductive Side := LONG | SHORT.

Record Group := {
  g_conditionId : string;
  g_market : option string;
  g_outcome : string;
  g_side : Side;
  positions : list Position
}.

(** The [grouped] object; its keys always contain a dash, so
    [Object.entries] lists them in insertion order. *)
Definition Grouped := list (string * Group).

Definition key_of (pos : Position) : string :=
  (conditionId pos ++ "-" ++ outcome pos)%string.

Definition new_group (pos : Position) : Group :=
  {| g_conditionId := conditionId pos;
     g_market := or_str (title pos) (eventSlug pos);
     g_outcome := outcome pos;
     g_side := if gt0 (size pos) then LONG else SHORT;
     positions := [] |}.

Definition push (pos : Position) (g : Group) : Group :=
  {| g_conditionId := g_conditionId g;
     g_market := g_market g;
     g_outcome := g_outcome g;
     g_side := g_side g;
     positions := positions g ++ [pos] |}.

(** One turn of the grouping loop:
    [if (!grouped[key]) grouped[key] = {..}; grouped[key].positions.push(pos)] *)
Definition add_position (grouped : Grouped) (pos : Position) : Grouped :=
  let key := key_of pos in
  let grouped' :=
    if existsb (fun kg => String.eqb (fst kg) key) grouped
    then grouped
    else grouped ++ [(key, new_group pos)] in
  List.map (fun kg => if String.eqb (fst kg) key then (fst kg, push pos (snd kg)) else kg)
    grouped'.

Definition group_positions (allPositions : list Position) : Grouped :=
  fold_left add_position allPositions [].

(** [reduce((s, p) => s + Math.abs(p.currentValue || p.size || 0), 0)] *)
Definition totalSize (g : Group) : Q :=
  fold_left (fun s p => s + Qabs (or_num (or_field (currentValue p) (size p)) 0))
    (positions g) 0.

(** [reduce((s, p) => s + (p.avgPrice || p.curPrice || 0), 0) / positions.length] *)
Definition averagePrice (g : Group) : Q :=
  fold_left (fun s p => s + or_num (or_field (avgPrice p) (curPrice p)) 0)
    (positions g) 0
  / inject_Z (Z.of_nat (length (positions g))).

(** [new Set(positions.map(p => p.traderWallet)).size] *)
Definition traderCount (g : Group) : nat :=
  length (nodup String.string_dec (List.map traderWallet (positions g))).

(** [CONFIG.confidenceThresholds] *)
Definition high : Q := 8 # 10.
Definition medium : Q := 6 # 10.
Definition low : Q := 4 # 10.

(** [CONFIG.minPositionSize] *)
Definition minPositionSize : Q := 5000.

(** *** The daemon (copy-trader.js) *)

(** [let confidence = 0; if (traderCount >= 3) .. else if (traderCount >= 2
    || totalSize > 50000) .. else if (totalSize > 10000) ..] *)
Definition confidence (traderCount : nat) (totalSize : Q) : Q :=
  if (3 <=? traderCount)%nat then high
  else if (2 <=? traderCount)%nat || Qltb 50000 totalSize then medium
  else if Qltb 10000 totalSize then low
  else 0.

(** The tier a group of that shape ends up with, [None] when
    [if (confidence < CONFIG.confidenceThresholds.low) continue] drops it. *)
Definition daemon_tier (traderCount : nat) (totalSize : Q) : option Q :=
  let c := confidence traderCount totalSize in
  if Qltb c low then None else Some c.

(** *** The stateless endpoint (api/signals.js)

    [traderCount >= 2 ? 0.8 : totalSize > 50000 ? 0.6 : 0.4]; no group is
    dropped on confidence. *)
Definition endpoint_confidence (traderCount : nat) (totalSize : Q) : Q :=
  if (2 <=? traderCount)%nat then 8 # 10
  else if Qltb 50000 totalSize then 6 # 10
  else 4 # 10.

Definition endpoint_tier (traderCount : nat) (totalSize : Q) : option Q :=
  Some (endpoint_confidence traderCount totalSize).

(** The tier table of the specification at one group shape. *)
Definition tier_table_at (tier : nat -> Q -> option Q) (n : nat) (s : Q) : Prop :=
  ((3 <= n)%nat -> tier n s = Some high) /\
  ((n < 3)%nat -> (2 <= n)%nat \/ 50000 < s -> tier n s = Some medium) /\
  ((n < 2)%nat -> s <= 50000 -> 10000 < s -> tier n s = Some low) /\
  ((n < 2)%nat -> s <= 10000 -> tier n s = None).

(** The table the endpoint follows instead. *)
Definition endpoint_table_at (tier : nat -> Q -> option Q) (n : nat) (s : Q) : Prop :=
  ((2 <= n)%nat -> tier n s = Some high) /\
  ((n < 2)%nat -> 50000 < s -> tier n s = Some medium) /\
  ((n < 2)%nat -> s <= 50000 -> tier n s = Some low).

(** *** Emitted signals and their history file *)

Record Contributor := {
  c_name : option string;
  c_wallet : string;
  c_size : field
}.

Record Signal := {
  id : string;
  timestamp : Z;
  s_conditionId : string;
  s_market : option string;
  s_outcome : string;
  s_side : Side;
  s_confidence : Q;
  s_totalSize : Q;
  s_avgPrice : Q;
  s_traderCount : nat;
  traders : list Contributor
}.

(** The content of [data/signals.json], [None] while the file is missing. *)
Definition SignalsFile := option (list Signal).

Definition loadSignals (file : SignalsFile) : list Signal :=
  match file with Some signals => signals | None => [] end.

(** [signals.slice(0, 500)] is what gets written. *)
Definition saveSignals (signals : list Signal) : SignalsFile :=
  Some (firstn 500 signals).

Definition day_ms : Z := 24 * 60 * 60 * 1000.

(** The predicate of [existingSignals.find(..)]. *)
Definition same_recent (now : Z) (g : Group) (s : Signal) : bool :=
  String.eqb (s_conditionId s) (g_conditionId g) &&
  String.eqb (s_outcome s) (g_outcome g) &&
  (now - timestamp s <? day_ms)%Z.

(** The signal object of the daemon.  [stamp] renders [Date.now()] as the
    prefix of the id. *)
Definition make_signal (stamp : Z -> string) (now : Z) (key : string) (g : Group)
    : Signal :=
  {| id := (stamp now ++ "-" ++ key)%string;
     timestamp := now;
     s_conditionId := g_conditionId g;
     s_market := g_market g;
     s_outcome := g_outcome g;
     s_side := g_side g;
     s_confidence := confidence (traderCount g) (totalSize g);
     s_totalSize := totalSize g;
     s_avgPrice := averagePrice g;
     s_traderCount := traderCount g;
     traders :=
       List.map (fun p => {| c_name := Some (traderName p);
                             c_wallet := traderWallet p;
                             c_size := or_field (currentValue p) (size p) |})
         (positions g) |}.

(** The body of the loop over [Object.entries(grouped)]: the signal a group
    gives rise to, if any.  The clock is read once per run here. *)
Definition signal_of (stamp : Z -> string) (now : Z) (existingSignals : list Signal)
    (kg : string * Group) : option Signal :=
  let g := snd kg in
  if Qltb (totalSize g) minPositionSize then None
  else match daemon_tier (traderCount g) (totalSize g) with
       | None => None
       | Some _ =>
           match List.find (same_recent now g) existingSignals with
           | Some _ => None
           | None => Some (make_signal stamp now (fst kg) g)
           end
       end.

Definition new_signals (stamp : Z -> string) (now : Z) (existingSignals : list Signal)
    (allPositions : list Position) : list Signal :=
  omap (signal_of stamp now existingSignals) (group_positions allPositions).

(** [generateSignals], from the positions gathered to the file written:
    returns [newSignals] and the new content of the history file. *)
Definition generateSignals (stamp : Z -> string) (now : Z)
    (allPositions : list Position) (file : SignalsFile)
    : list Signal * SignalsFile :=
  let existingSignals := loadSignals file in
  let newSignals := new_signals stamp now existingSignals allPositions in
  let allSignals := newSignals ++ existingSignals in
  (newSignals, saveSignals allSignals).

(** The endpoint's loop body: only the size floor drops a group. *)
Definition endpoint_signal_of (now : Z) (kg : string * Group) : option Signal :=
  let g := snd kg in
  if Qltb (totalSize g) 5000 then None
  else Some
    {| id := fst kg;
       timestamp := now;
       s_conditionId := g_conditionId g;
       s_market := g_market g;
       s_outcome := g_outcome g;
       s_side := g_side g;
       s_confidence := endpoint_confidence (traderCount g) (totalSize g);
       s_totalSize := totalSize g;
       s_avgPrice := averagePrice g;
       s_traderCount := traderCount g;
       traders :=
         List.map (fun p => {| c_name := None;
                               c_wallet := traderWallet p;
                               c_size := or_field (currentValue p) (size p) |})
           (positions g) |}.

(** *** The tier tables, read of a code path

    [emit] is the body of a loop over the groups: the signal it makes of a
    group, if any.  The table of the specification says which groups give
    a signal, and of which tier. *)
Definition emits_by_table (emit : string * Group -> option Signal)
    (kg : string * Group) : Prop :=
  let n := traderCount (snd kg) in
  let s := totalSize (snd kg) in
  ((3 <= n)%nat -> exists sg, emit kg = Some sg /\ s_confidence sg = high) /\
  ((n < 3)%nat -> (2 <= n)%nat \/ 50000 < s ->
     exists sg, emit kg = Some sg /\ s_confidence sg = medium) /\
  ((n < 2)%nat -> s <= 50000 -> 10000 < s ->
     exists sg, emit kg = Some sg /\ s_confidence sg = low) /\
  ((n < 2)%nat -> s <= 10000 -> emit kg = None).

(** The table the endpoint follows instead: every group gives a signal. *)
Definition emits_by_endpoint_table (emit : string * Group -> option Signal)
    (kg : string * Group) : Prop :=
  let n := traderCount (snd kg) in
  let s := totalSize (snd kg) in
  ((2 <= n)%nat -> exists sg, emit kg = Some sg /\ s_confidence sg = high) /\
  ((n < 2)%nat -> 50000 < s ->
     exists sg, emit kg = Some sg /\ s_confidence sg = medium) /\
  ((n < 2)%nat -> s <= 50000 ->
     exists sg, emit kg = Some sg /\ s_confidence sg = low).

End Signals.

(** ** Activity records *)

Module Activity.
Import Js.
Local Open Scope Q_scope.

(** The [timestamp] of an activity record as it arrives: a number, or
    anything else (a date string, nothing at all) given by what
    [new Date(..).getTime()] makes of it. *)
Inductive rawtime :=
  | TNumber (n : Z)
  | TOther (parsed : num).

Record Trade := {
  timestamp : rawtime;
  usdcSize : field;
  size : field;
  side : option string;
  type : option string;
  outcome : option string;
  title : option string;
  eventTitle : option string;
  market : option string;
  slug : option string;
  price : field
}.

(** The largest time value a [Date] holds. *)
Definition maxTime : Z := 8640000000000000.

(** [new Date(ts).getTime()] *)
Definition getTime (ts : rawtime) : num :=
  match ts with
  | TNumber n => if (Z.abs n <=? maxTime)%Z then Num n else NaN
  | TOther parsed => parsed
  end.

(** [Math.abs(trade.usdcSize || trade.size || 0)] *)
Definition sizeOf (trade : Trade) : Q :=
  Qabs (or_num (or_field (usdcSize trade) (size trade)) 0).

(** [trade.side || (trade.type === 'buy' ? 'BUY' : 'SELL')] *)
Definition sideOf (trade : Trade) : string :=
  match or_str (side trade) None with
  | Some s => s
  | None =>
      match type trade with
      | Some t => if String.eqb t "buy" then "BUY" else "SELL"
      | None => "SELL"
      end
  end.

(** What [await fetchActivity(..)] comes back with. *)
Inductive fetched :=
  | Throws
  | Absent
  | Page (activity : list Trade).

(** [x || d] where [x] is a stored time (missing, [0] and [NaN] are
    falsy) and [d] a number. *)
Definition or_time (x : option num) (d : Z) : Z :=
  match x with
  | Some (Num z) => if (z =? 0)%Z then d else z
  | _ => d
  end.

(** The test the loop applies to a record of time [t]: neither of the two
    [continue]s fires. *)
Definition kept (minTradeSize : Q) (lastSeen : Z) (t : num) (trade : Trade) : bool :=
  negb (le t (Num lastSeen)) && negb (Qltb (sizeOf trade) minTradeSize).

(** The test of the specification: strictly newer than the watermark and
    at least the minimum size. *)
Definition newer_and_large (minTradeSize : Q) (lastSeen : Z) (t : num)
    (trade : Trade) : bool :=
  gt t (Num lastSeen) && Qle_bool minTradeSize (sizeOf trade).

(** [z] is the largest of the time values [times]. *)
Definition page_maximum (times : list num) (z : Z) : Prop :=
  In (Num z) times /\ forall y, In (Num y) times -> (y <= z)%Z.

(** [Math.max(...times)] over a non-empty array. *)
Definition max_of (first : num) (rest : list num) : num :=
  fold_left max2 rest first.

End Activity.

(** ** The whale watcher (src/whale-watcher.js)

    An earlier revision of the file is kept in the repository; its
    [checkTraderActivity] is the same function without the two edge fields
    of the alert. *)

Module WhaleWatcher.
Import Js Activity Effect Effect.Notations.
Local Open Scope Q_scope.

Record Config := { minTradeSize : Q }.
Definition CONFIG : Config := {| minTradeSize := 10000 |}.

(** A watchlist entry. *)
Record Whale := {
  wallet : string;
  userName : string;
  pnl : field;
  volume : field;
  isEdgeTrader : bool;
  edgeScore : field
}.

Record State := {
  lastSeen : gmap string num;
  watchlist : list Whale
}.

Record Alert := {
  a_wallet : string;
  a_userName : string;
  a_side : string;
  a_outcome : option string;
  a_market : option string;
  a_size : Q;
  a_price : field;
  a_timestamp : rawtime;
  traderPnl : field;
  traderVolume : field;
  a_isEdgeTrader : bool;
  a_edgeScore : field
}.

(** [if (!existsSync(STATE_FILE)) return { lastSeen: {}, watchlist: [] }] *)
Definition loadState (file : option State) : State :=
  match file with
  | Some state => state
  | None => {| lastSeen := ∅; watchlist := [] |}
  end.

(** [new Date(trade.timestamp).getTime()] *)
Definition tradeTime (trade : Trade) : num := getTime (timestamp trade).

Definition alert_of (trader : Whale) (trade : Trade) : Alert :=
  {| a_wallet := wallet trader;
     a_userName := userName trader;
     a_side := sideOf trade;
     a_outcome := or_str (outcome trade) (title trade);
     a_market := or_str (or_str (eventTitle trade) (market trade)) (slug trade);
     a_size := sizeOf trade;
     a_price := price trade;
     a_timestamp := timestamp trade;
     traderPnl := pnl trader;
     traderVolume := volume trader;
     a_isEdgeTrader := isEdgeTrader trader;
     a_edgeScore := or_field (edgeScore trader) None |}.

(** The [for (const trade of activity)] loop with its two [continue]s. *)
Fixpoint scan (cfg : Config) (trader : Whale) (lastSeen : Z) (activity : list Trade)
    : list Alert :=
  match activity with
  | [] => []
  | trade :: rest =>
      if le (tradeTime trade) (Num lastSeen) then scan cfg trader lastSeen rest
      else if Qltb (sizeOf trade) (minTradeSize cfg) then scan cfg trader lastSeen rest
      else alert_of trader trade :: scan cfg trader lastSeen rest
  end.

(** [state.lastSeen[trader.wallet] || 0] *)
Definition watermark (state : State) (w : string) : Z :=
  or_time (lastSeen state !! w) 0.

(** [await fetchActivity(trader.wallet, { limit: 10 })] *)
Definition fetchActivity (response : fetched) : M State (option (list Trade)) :=
  match response with
  | Throws => throw
  | Absent => ret None
  | Page activity => ret (Some activity)
  end.

(** [state.lastSeen[w] = t] *)
Definition set_lastSeen (w : string) (t : num) : M State unit :=
  modify (fun state =>
    {| lastSeen := <[w := t]> (lastSeen state);
       watchlist := watchlist state |}).

(** [checkTraderActivity]: the new trades and the state afterwards. *)
Definition checkTraderActivity (cfg : Config) (response : fetched)
    (trader : Whale) : State -> list Alert * State :=
  try_catch
    (let* activity := fetchActivity response in
     match activity with
     | None => ret []
     | Some [] => ret []
     | Some (first :: rest) =>
         let* state := get in
         let lastSeen_ := watermark state (wallet trader) in
         let newTrades := scan cfg trader lastSeen_ (first :: rest) in
         let latestTime := max_of (tradeTime first) (List.map tradeTime rest) in
         let* _ := set_lastSeen (wallet trader) latestTime in
         ret newTrades
     end)
    (fun state => ([], state)).

(** [saveActivity]: [activity.slice(0, 1000)] is what gets written. *)
Definition ActivityFile := option (list Alert).

Definition loadActivity (file : ActivityFile) : list Alert :=
  match file with Some activity => activity | None => [] end.

Definition saveActivity (activity : list Alert) : ActivityFile :=
  Some (firstn 1000 activity).

(** One turn of the loop of [runOnce] over the watchlist: each new trade is
    put in front of the history ([allActivity.unshift(trade)]). *)
Definition poll (cfg : Config) (responses : string -> fetched)
    (acc : State * list Alert) (trader : Whale) : State * list Alert :=
  let '(state, allActivity) := acc in
  let '(newTrades, state') :=
    checkTraderActivity cfg (responses (wallet trader)) trader state in
  (state', fold_left (fun all trade => trade :: all) newTrades allActivity).

(** [state.watchlist.length === 0 || Math.random() < 0.1], where [random]
    is what [Math.random()] gives. *)
Definition update_due (state : State) (random : Q) : bool :=
  (length (watchlist state) =? 0)%nat || Qltb random (1 # 10).

(** [runOnce]: load, update the watchlist when that is due, poll every
    watched trader, save.  [updateWatchlist] is the function of that name,
    given by the state it leaves, or by [None] when it throws: its
    leaderboard fetch is not caught there, and [runOnce] has no [try]
    around the call, so the run ends then and there, with no trader polled
    and nothing saved.  The result is what a run saves at its end, the
    state and the activity file, and [None] for a run that throws.
    [responses] is what the data API answers for each wallet. *)
Definition runOnce (cfg : Config) (updateWatchlist : State -> option State)
    (random : Q) (responses : string -> fetched)
    (stateFile : option State) (activityFile : ActivityFile)
    : option (State * ActivityFile) :=
  let state := loadState stateFile in
  let allActivity := loadActivity activityFile in
  match (if update_due state random then updateWatchlist state else Some state) with
  | None => None
  | Some state =>
      let '(state', allActivity') :=
        fold_left (poll cfg responses) (watchlist state) (state, allActivity) in
      Some (state', saveActivity allActivity')
  end.

End WhaleWatcher.

(** ** The Cloud Run watcher *)

Module CloudWatcher.
Import Js Activity Effect Effect.Notations.
Local Open Scope Q_scope.

Record Config := { minTradeSize : Q }.
Definition CONFIG : Config := {| minTradeSize := 10000 |}.

Record Whale := {
  wallet : string;
  userName : string
}.

Record State := {
  lastSeen : gmap string num;
  watchlist : list Whale;
  initialized : option num
}.

Record Alert := {
  a_wallet : string;
  a_userName : string;
  a_side : string;
  a_outcome : option string;
  a_market : option string;
  a_size : Q;
  a_price : field;
  a_timestamp : rawtime
}.

(** [if (!existsSync(STATE_FILE))
       return { lastSeen: {}, watchlist: [], initialized: Date.now() }] *)
Definition loadState (now : Z) (file : option State) : State :=
  match file with
  | Some state => state
  | None => {| lastSeen := ∅; watchlist := []; initialized := Some (Num now) |}
  end.

(** [(typeof ts === 'number' && ts < 10000000000)
       ? ts * 1000 : new Date(ts).getTime()] *)
Definition normalise (ts : rawtime) : num :=
  match ts with
  | TNumber n =>
      if (n <? 10000000000)%Z then Num (n * 1000) else getTime (TNumber n)
  | TOther parsed => getTime (TOther parsed)
  end.

Definition tradeTime (trade : Trade) : num := normalise (timestamp trade).

Definition alert_of (trader : Whale) (trade : Trade) : Alert :=
  {| a_wallet := wallet trader;
     a_userName := userName trader;
     a_side := sideOf trade;
     a_outcome := or_str (outcome trade) (title trade);
     a_market := or_str (or_str (eventTitle trade) (market trade)) (slug trade);
     a_size := sizeOf trade;
     a_price := price trade;
     a_timestamp := timestamp trade |}.

Fixpoint scan (cfg : Config) (trader : Whale) (lastSeen : Z) (activity : list Trade)
    : list Alert :=
  match activity with
  | [] => []
  | trade :: rest =>
      if le (tradeTime trade) (Num lastSeen) then scan cfg trader lastSeen rest
      else if Qltb (sizeOf trade) (minTradeSize cfg) then scan cfg trader lastSeen rest
      else alert_of trader trade :: scan cfg trader lastSeen rest
  end.

(** [state.lastSeen[trader.wallet] || state.initialized || Date.now()] *)
Definition watermark (now : Z) (state : State) (w : string) : Z :=
  or_time (lastSeen state !! w) (or_time (initialized state) now).

Definition fetchActivity (response : fetched) : M State (option (list Trade)) :=
  match response with
  | Throws => throw
  | Absent => ret None
  | Page activity => ret (Some activity)
  end.

Definition set_lastSeen (w : string) (t : num) : M State unit :=
  modify (fun state =>
    {| lastSeen := <[w := t]> (lastSeen state);
       watchlist := watchlist state;
       initialized := initialized state |}).

(** [checkTraderActivity], polled when the clock reads [now]. *)
Definition checkTraderActivity (cfg : Config) (now : Z) (response : fetched)
    (trader : Whale) : State -> list Alert * State :=
  try_catch
    (let* activity := fetchActivity response in
     match activity with
     | None => ret []
     | Some [] => ret []
     | Some (first :: rest) =>
         let* state := get in
         let lastSeen_ := watermark now state (wallet trader) in
         let newTrades := scan cfg trader lastSeen_ (first :: rest) in
         let latestTime := max_of (tradeTime first) (List.map tradeTime rest) in
         let* _ := set_lastSeen (wallet trader) latestTime in
         ret newTrades
     end)
    (fun state => ([], state)).

End CloudWatcher.

(** ** Sample inputs *)

Module Samples.
Import Js.
Local Open Scope Q_scope.

(** The closed positions of the worked example. *)
Definition closed : list Metrics.ClosedPosition :=
  [ {| Metrics.realizedPnl := Some 100 |}; {| Metrics.realizedPnl := Some (-50) |};
    {| Metrics.realizedPnl := Some 30 |}; {| Metrics.realizedPnl := Some (-10) |} ].

Definition profitable : Leaderboard.Trader :=
  {| Leaderboard.proxyWallet := "0xaa"; Leaderboard.userName := "ann";
     Leaderboard.pnl := Some 50000; Leaderboard.vol := Some 100000 |}.

Definition losing : Leaderboard.Trader :=
  {| Leaderboard.proxyWallet := "0xbb"; Leaderboard.userName := "bob";
     Leaderboard.pnl := Some (-1000); Leaderboard.vol := Some 1000 |}.

(** Two leaderboard windows naming the same wallet: the all-time record is
    in the red, the monthly one is not. *)
Definition alltime_row : Leaderboard.Trader :=
  {| Leaderboard.proxyWallet := "0xcc"; Leaderboard.userName := "cat";
     Leaderboard.pnl := Some (-5); Leaderboard.vol := Some 60000 |}.

Definition monthly_row : Leaderboard.Trader :=
  {| Leaderboard.proxyWallet := "0xcc"; Leaderboard.userName := "cat";
     Leaderboard.pnl := Some 10; Leaderboard.vol := Some 60000 |}.

Definition windows : list (list Leaderboard.Trader) :=
  [ [alltime_row; profitable]; [monthly_row]; [profitable] ].

(** Two followed traders holding the same outcome of the same market. *)
Definition yes_position (who : string) (value : Q) : Signals.Position :=
  {| Signals.conditionId := "c1"; Signals.title := Some "Will it rain";
     Signals.eventSlug := None; Signals.outcome := "Yes";
     Signals.size := Some value; Signals.currentValue := Some value;
     Signals.avgPrice := Some (1 # 2); Signals.curPrice := Some (6 # 10);
     Signals.traderName := who; Signals.traderWallet := who |}.

Definition agreeing : list Signals.Position :=
  [ yes_position "0x01" 30000; yes_position "0x02" 25000 ].

(** Activity records: a large old trade, a small recent one, a large recent
    one, and a large one whose timestamp does not parse. *)
Definition trade_at (ts : Activity.rawtime) (usdc : Q) : Activity.Trade :=
  {| Activity.timestamp := ts; Activity.usdcSize := Some usdc;
     Activity.size := None; Activity.side := Some "BUY"%string;
     Activity.type := None; Activity.outcome := Some "Yes"%string;
     Activity.title := None; Activity.eventTitle := None;
     Activity.market := Some "rain"%string; Activity.slug := None;
     Activity.price := Some (1 # 2) |}.

Definition old_large : Activity.Trade := trade_at (Activity.TNumber 999999) 20000.
Definition recent_small : Activity.Trade := trade_at (Activity.TNumber 1000001) 50.
Definition recent_large : Activity.Trade := trade_at (Activity.TNumber 1000002) 20000.
Definition undated : Activity.Trade := trade_at (Activity.TOther NaN) 20000.

Definition whale : WhaleWatcher.Whale :=
  {| WhaleWatcher.wallet := "0xaa"; WhaleWatcher.userName := "ann";
     WhaleWatcher.pnl := Some 50000; WhaleWatcher.volume := Some 100000;
     WhaleWatcher.isEdgeTrader := false; WhaleWatcher.edgeScore := None |}.

(** A state that has seen wallet 0xaa up to 1000000. *)
Definition seen : WhaleWatcher.State :=
  {| WhaleWatcher.lastSeen := {[ "0xaa"%string := Num 1000000 ]};
     WhaleWatcher.watchlist := [whale] |}.

Definition cloud_whale : CloudWatcher.Whale :=
  {| CloudWatcher.wallet := "0xaa"; CloudWatcher.userName := "ann" |}.

Definition cloud_seen : CloudWatcher.State :=
  {| CloudWatcher.lastSeen := {[ "0xaa"%string := Num 1000000 ]};
     CloudWatcher.watchlist := [cloud_whale];
     CloudWatcher.initialized := Some (Num 900000) |}.

(** The group the grouping loop makes of [agreeing]: two traders, 55000
    in total. *)
Definition pair_group : string * Signals.Group :=
  ("c1-Yes"%string,
   {| Signals.g_conditionId := "c1"; Signals.g_market := Some "Will it rain"%string;
      Signals.g_outcome := "Yes"; Signals.g_side := Signals.LONG;
      Signals.positions := agreeing |}).

(** Three followed traders with 1000 each in the same outcome, and their
    group. *)
Definition trio : list Signals.Position :=
  [ yes_position "0x01" 1000; yes_position "0x02" 1000; yes_position "0x03" 1000 ].

Definition trio_group : string * Signals.Group :=
  ("c1-Yes"%string,
   {| Signals.g_conditionId := "c1"; Signals.g_market := Some "Will it rain"%string;
      Signals.g_outcome := "Yes"; Signals.g_side := Signals.LONG;
      Signals.positions := trio |}).

(** A trader in profit on a volume between the two floors, and fifteen
    closed positions, all of them wins. *)
Definition mid_volume : Leaderboard.Trader :=
  {| Leaderboard.proxyWallet := "0xdd"; Leaderboard.userName := "dan";
     Leaderboard.pnl := Some 9000; Leaderboard.vol := Some 20000 |}.

Definition fifteen_wins : list Metrics.ClosedPosition :=
  repeat {| Metrics.realizedPnl := Some 10 |} 15.

End Samples.

(** ** Arrays *)

Module JsArray.
Import Js.
Local Open Scope Q_scope.

(** [array.sort(compare)] for a comparator that orders the elements
    consistently.  The language then fixes the result: the elements in
    sorted order, elements that compare equal in the order they had.  It is
    computed here by insertion from the right: [x], which stood before
    everything in [sorted], moves behind [y] only when [compare(x, y) > 0],
    which is what [behind x y] says. *)
Fixpoint insert_when {A} (behind : A -> A -> bool) (x : A) (sorted : list A)
    : list A :=
  match sorted with
  | [] => [x]
  | y :: rest =>
      if behind x y then y :: insert_when behind x rest
      else x :: y :: rest
  end.

Definition sort_when {A} (behind : A -> A -> bool) (array : list A) : list A :=
  fold_right (insert_when behind) [] array.

(** With a comparator on rationals. *)
Definition sort {A} (compare : A -> A -> Q) (array : list A) : list A :=
  sort_when (fun x y => Qltb 0 (compare x y)) array.

(** With a comparator on reals. *)
Definition sortR {A} (compare : A -> A -> R) (array : list A) : list A :=
  sort_when (fun x y => if Rlt_dec 0 (compare x y) then true else false) array.

(** What the language asks of the comparator for the order to be defined,
    on the elements that satisfy [P]: of two elements one does not come
    after the other, and "does not come after" chains. *)
Definition orders_on {A} (P : A -> Prop) (behind : A -> A -> bool) : Prop :=
  (forall a b, P a -> P b -> behind a b = false \/ behind b a = false) /\
  (forall a b c, P a -> P b -> P c ->
     behind a b = false -> behind b c = false -> behind a c = false).

Definition consistent {A} (compare : A -> A -> Q) : Prop :=
  (forall a b, compare a b <= 0 \/ compare b a <= 0) /\
  (forall a b c, compare a b <= 0 -> compare b c <= 0 -> compare a c <= 0).

End JsArray.

(** ** The copy-candidates handler *)

Module Screening.
Import Js Metrics Leaderboard Aggregator.
Local Open Scope Q_scope.

(** [Math.round] on a rational: the nearest integer, halves going up. *)
Definition round (x : Q) : Z := Qfloor (x + (1 # 2)).

(** [Math.round(x)] where [x] may be missing ([NaN] is kept as [None]). *)
Definition round_field (x : field) : option Z :=
  match x with Some q => Some (round q) | None => None end.

(** [Math.round(x * 1000) / 10] and [Math.round(x * 100) / 100] *)
Definition tenths_of_percent (x : Q) : Q := inject_Z (round (x * 1000)) / 10.
Definition hundredths (x : Q) : Q := inject_Z (round (x * 100)) / 100.

(** An open position as the positions endpoint returns it. *)
Record OpenPosition := {
  title : option string;
  eventSlug : option string;
  outcome : option string;
  size : field;
  currentValue : field;
  avgPrice : field;
  curPrice : field;
  cashPnl : field
}.

Record Holding := {
  h_market : option string;
  h_outcome : option string;
  h_size : Z;
  h_avgPrice : field;
  h_currentPrice : field;
  h_pnl : Z
}.

Definition holding_of (p : OpenPosition) : Holding :=
  {| h_market := or_str (title p) (eventSlug p);
     h_outcome := outcome p;
     h_size := round (or_num (or_field (currentValue p) (size p)) 0);
     h_avgPrice := avgPrice p;
     h_currentPrice := curPrice p;
     h_pnl := round (or_num (cashPnl p) 0) |}.

Record Candidate := {
  c_wallet : string;
  c_userName : string;
  c_pnl : option Z;
  c_volume : option Z;
  c_efficiency : Q;
  c_winRate : Q;
  c_profitFactor : Q;
  c_totalTrades : nat;
  c_wins : nat;
  c_losses : nat;
  c_avgWin : Z;
  c_avgLoss : Z;
  c_positions : list Holding
}.

(** [trader.pnl / (trader.vol || 1)]; [NaN], kept as [None], when the
    profit is missing. *)
Definition efficiencyOf (trader : Trader) : field :=
  match pnl trader with
  | Some p => Some (p / or_num (vol trader) 1)
  | None => None
  end.

(** [n > 0 ? Math.round(total / n) : 0] *)
Definition average (total : Q) (n : nat) : Z :=
  match n with
  | O => 0%Z
  | _ => round (total / inject_Z (Z.of_nat n))
  end.

(** The body of the loop over the deduplicated traders, once both fetches
    have come back: the candidate pushed, if the trader passes
    [totalTrades >= 15 && winRate >= 0.70 && efficiency >= 0.30]. *)
Definition candidate_of (trader : Trader) (closed : list ClosedPosition)
    (open : list OpenPosition) : option Candidate :=
  let totalTrades := totalTrades closed in
  let winRate := winRateOr 0 closed in
  match efficiencyOf trader with
  | None => None
  | Some efficiency =>
      if (15 <=? totalTrades)%nat && Qle_bool (7 # 10) winRate
         && Qle_bool (3 # 10) efficiency
      then Some
        {| c_wallet := proxyWallet trader;
           c_userName := userName trader;
           c_pnl := round_field (pnl trader);
           c_volume := round_field (vol trader);
           c_efficiency := tenths_of_percent efficiency;
           c_winRate := tenths_of_percent winRate;
           c_profitFactor := hundredths (handler_profitFactor closed);
           c_totalTrades := totalTrades;
           c_wins := length (wins closed);
           c_losses := length (losses closed);
           c_avgWin := average (totalWins closed) (length (wins closed));
           c_avgLoss := average (totalLosses closed) (length (losses closed));
           c_positions := List.map holding_of open |}
      else None
  end.

(** What the two fetches for one wallet come to: both lists, or a failure
    that the [catch] of the loop swallows. *)
Inductive details :=
  | Failed
  | Details (closed : list ClosedPosition) (open : list OpenPosition).

(** The handler from the leaderboards to the list it answers with:
    dedupe, look at the first 50, keep the candidates, sort by the reported
    efficiency, largest first. *)
Definition handler (sources : list (list Trader)) (fetch : string -> details)
    : list Candidate :=
  JsArray.sort (fun a b => c_efficiency b - c_efficiency a)
    (omap (fun trader =>
             match fetch (proxyWallet trader) with
             | Failed => None
             | Details closed open => candidate_of trader closed open
             end)
       (handler_traders sources)).

(** *** The detailed-stats endpoint (api/top-detailed.js)

    The same counts with a win rate of [null] when nothing is closed and
    signed averages. *)
Record Detail := {
  d_winRate : option Q;
  d_totalTrades : nat;
  d_wins : nat;
  d_losses : nat;
  d_avgWin : Q;
  d_avgLoss : Q
}.

Definition detail_of (closedPositions : list ClosedPosition) : Detail :=
  let wins := length (wins closedPositions) in
  let losses := length (losses closedPositions) in
  {| d_winRate :=
       match (wins + losses)%nat with
       | O => None
       | n => Some (ratio wins n)
       end;
     d_totalTrades := (wins + losses)%nat;
     d_wins := wins;
     d_losses := losses;
     d_avgWin :=
       match wins with
       | O => 0
       | _ => sumPnl (Metrics.wins closedPositions) / inject_Z (Z.of_nat wins)
       end;
     d_avgLoss :=
       match losses with
       | O => 0
       | _ => sumPnl (Metrics.losses closedPositions) / inject_Z (Z.of_nat losses)
       end |}.

(** What a reported candidate looks like. *)
Definition well_screened (c : Candidate) : Prop :=
  (15 <= c_totalTrades c)%nat /\
  c_totalTrades c = (c_wins c + c_losses c)%nat /\
  (7 * c_totalTrades c <= 10 * c_wins c)%nat /\
  (11 <= c_wins c)%nat /\
  30 <= c_efficiency c /\
  70 <= c_winRate c /\
  (exists p, c_pnl c = Some p /\ (15000 <= p)%Z) /\
  (exists v, c_volume c = Some v /\ (50000 <= v)%Z) /\
  (0 <= c_avgWin c)%Z /\ (0 <= c_avgLoss c)%Z.

End Screening.

(** ** Gathering positions and the signals endpoint *)

Module SignalFeed.
Import Js Signals.
Local Open Scope Q_scope.

(** A followed trader, as kept in [data/following.json]. *)
Record Followed := {
  wallet : string;
  name : string
}.

(** [{ ...p, traderName: trader.name, traderWallet: trader.wallet }] *)
Definition tag (trader : Followed) (p : Position) : Position :=
  {| conditionId := conditionId p;
     title := title p;
     eventSlug := eventSlug p;
     outcome := outcome p;
     size := size p;
     currentValue := currentValue p;
     avgPrice := avgPrice p;
     curPrice := curPrice p;
     traderName := name trader;
     traderWallet := wallet trader |}.

(** [getTraderPositions]: the tagged positions, or nothing when the fetch
    throws ([None]). *)
Definition getTraderPositions (trader : Followed)
    (response : option (list Position)) : list Position :=
  match response with
  | Some positions => List.map (tag trader) positions
  | None => []
  end.

(** The loop of [generateSignals] that fills [allPositions]. *)
Definition gather (following : list Followed)
    (fetchPositions : string -> option (list Position)) : list Position :=
  flat_map (fun trader => getTraderPositions trader (fetchPositions (wallet trader)))
    following.

(** The stateless endpoint from the positions gathered to its answer: one
    signal per group of 5000 or more, sorted by total size, the first 20. *)
Definition endpoint (now : Z) (allPositions : list Position) : list Signal :=
  firstn 20
    (JsArray.sort (fun a b => s_totalSize b - s_totalSize a)
       (omap (endpoint_signal_of now) (group_positions allPositions))).

(** A group carries the identity of the position [first] that opened it. *)
Definition headed_by (first : Position) (g : Group) : Prop :=
  g_conditionId g = conditionId first /\
  g_outcome g = outcome first /\
  g_market g = or_str (title first) (eventSlug first) /\
  g_side g = (if gt0 (size first) then LONG else SHORT).

(** The positions of [allPositions] filed under key [k], in their order. *)
Definition filed_under (k : string) (allPositions : list Position) : list Position :=
  List.filter (fun p => String.eqb (key_of p) k) allPositions.

Definition grouped_as (allPositions : list Position) (grouped : Grouped) : Prop :=
  List.NoDup (List.map fst grouped) /\
  (forall p, In p allPositions -> In (key_of p) (List.map fst grouped)) /\
  (forall k g, In (k, g) grouped ->
     exists first rest,
       filed_under k allPositions = first :: rest /\
       positions g = first :: rest /\ headed_by first g).

End SignalFeed.

(** ** The following list ([src/copy-trader.js])

    [loadFollowing], [saveFollowing] and the commands [add] and [remove].
    The file [data/following.json] is absent or holds a list; a command
    returns the file it leaves behind.  [toLowerCase] is the language's;
    nothing is assumed of it. *)

Module Following.
Import Js SignalFeed.
Local Open Scope string_scope.

Definition DEFAULT_FOLLOW : list Followed :=
  [ {| wallet := "0x6a72f61820b26b1fe4d956e17b6dc2a1ea3033ee"; name := "kch123" |};
    {| wallet := "0xd91d2cbbfa4342cf425b5f10f734eb5d4e3cda67"; name := "Theo4" |};
    {| wallet := "0xb8c0c7f24ebc8f67f8e86fb8d8a16e89e2e1f63d"; name := "Fredi9999" |} ].

Definition File := option (list Followed).

Definition loadFollowing (file : File) : list Followed :=
  match file with
  | None => DEFAULT_FOLLOW
  | Some following => following
  end.

Definition saveFollowing (following : list Followed) : File := Some following.

(** [name || wallet.slice(0, 10)]; [name] is the optional third argument of
    the command line. *)
Definition name_or_slice (wallet_ : string) (name_ : option string) : string :=
  match or_str name_ None with
  | Some s => s
  | None => String.substring 0 10 wallet_
  end.

Section Commands.
Variable toLowerCase : string -> string.

(** [t.wallet.toLowerCase()] *)
Definition lowered (t : Followed) : string := toLowerCase (wallet t).

(** [a.toLowerCase() === b.toLowerCase()] *)
Definition same (a b : string) : bool :=
  String.eqb (toLowerCase a) (toLowerCase b).

Definition addTrader (wallet_ : string) (name_ : option string) (file : File)
    : File :=
  let following := loadFollowing file in
  match List.find (fun t => same (wallet t) wallet_) following with
  | Some _ => file
  | None =>
      saveFollowing
        (following ++ [ {| wallet := wallet_; name := name_or_slice wallet_ name_ |} ])
  end.

(** The test of [removeTrader]'s filter: neither the wallet nor the name is
    the argument. *)
Definition stays (walletOrName : string) (t : Followed) : bool :=
  negb (same (wallet t) walletOrName) && negb (same (name t) walletOrName).

Definition removeTrader (walletOrName : string) (file : File) : File :=
  let following := loadFollowing file in
  let filtered := List.filter (stays walletOrName) following in
  if Nat.eqb (length filtered) (length following) then file
  else saveFollowing filtered.

End Commands.

(** [toLowerCase] on strings of ASCII characters, for the examples. *)
Definition lower_ascii (c : Ascii.ascii) : Ascii.ascii :=
  let n := Ascii.nat_of_ascii c in
  if (65 <=? n)%nat && (n <=? 90)%nat then Ascii.ascii_of_nat (n + 32) else c.

Fixpoint ascii_toLowerCase (s : string) : string :=
  match s with
  | EmptyString => EmptyString
  | String c rest => String (lower_ascii c) (ascii_toLowerCase rest)
  end.

End Following.

(** ** Building the watchlist ([src/whale-watcher.js], [updateWatchlist]) *)

Module Watchlist.
Import Js.

(** An entry of [data/edge-watchlist.json]. *)
Record Curated := {
  cur_wallet : string;
  cur_userName : string;
  cur_pnl : field;
  cur_edgeScore : field
}.

(** The curated file: absent, or present and failing in the [try] (it does
    not parse, or holds no [traders] list), or holding a list. *)
Inductive EdgeFile :=
  | Missing
  | Unreadable
  | Readable (traders : list Curated).

Definition edge_entry (t : Curated) : WhaleWatcher.Whale :=
  {| WhaleWatcher.wallet := cur_wallet t;
     WhaleWatcher.userName := cur_userName t;
     WhaleWatcher.pnl := cur_pnl t;
     WhaleWatcher.volume := Some 0%Q;
     WhaleWatcher.isEdgeTrader := true;
     WhaleWatcher.edgeScore := cur_edgeScore t |}.

(** [edgeTraders] as it stands after the [if] and its [try]/[catch]. *)
Definition edgeTraders (file : EdgeFile) : list WhaleWatcher.Whale :=
  match file with
  | Readable traders => List.map edge_entry traders
  | Missing | Unreadable => []
  end.

Definition leaderboard_entry (t : Leaderboard.Trader) : WhaleWatcher.Whale :=
  {| WhaleWatcher.wallet := Leaderboard.proxyWallet t;
     WhaleWatcher.userName := Leaderboard.userName t;
     WhaleWatcher.pnl := Leaderboard.pnl t;
     WhaleWatcher.volume := Leaderboard.vol t;
     WhaleWatcher.isEdgeTrader := false;
     WhaleWatcher.edgeScore := None |}.

(** One turn of the merging loop, on the set [seen] and the array
    [combined]. *)
Definition merge_step (acc : gset string * list WhaleWatcher.Whale)
    (t : WhaleWatcher.Whale) : gset string * list WhaleWatcher.Whale :=
  let '(seen, combined) := acc in
  if bool_decide (WhaleWatcher.wallet t ∈ seen) then (seen, combined)
  else ({[WhaleWatcher.wallet t]} ∪ seen, combined ++ [t]).

Definition merge (edgeTraders leaderboardTraders : list WhaleWatcher.Whale)
    : list WhaleWatcher.Whale :=
  snd (fold_left merge_step leaderboardTraders
         (list_to_set (List.map WhaleWatcher.wallet edgeTraders), edgeTraders)).

(** [updateWatchlist]: the state it saves, or nothing when the leaderboard
    fetch throws ([topByPnl] is [None]) and the exception leaves the
    function before the watchlist is assigned. *)
Definition updateWatchlist (file : EdgeFile)
    (topByPnl : option (list Leaderboard.Trader)) (state : WhaleWatcher.State)
    : option WhaleWatcher.State :=
  match topByPnl with
  | None => None
  | Some topByPnl =>
      Some {| WhaleWatcher.lastSeen := WhaleWatcher.lastSeen state;
              WhaleWatcher.watchlist :=
                merge (edgeTraders file) (List.map leaderboard_entry topByPnl) |}
  end.

(** [added] is what the merge takes from the leaderboard [board] given the
    wallets [taken] already: a sublist with distinct wallets, none of them
    taken, each the first entry of its wallet on the board, and no wallet
    of the board left out. *)
Definition first_untaken (taken : list string)
    (board added : list WhaleWatcher.Whale) : Prop :=
  sublist added board /\
  List.NoDup (List.map WhaleWatcher.wallet added) /\
  (forall t, In t added ->
     ~ In (WhaleWatcher.wallet t) taken /\
     List.find (fun r => String.eqb (WhaleWatcher.wallet r) (WhaleWatcher.wallet t))
       board = Some t) /\
  (forall t, In t board ->
     In (WhaleWatcher.wallet t) (taken ++ List.map WhaleWatcher.wallet added)).

End Watchlist.

(** ** Answers that show no activity *)

Module Polling.
Import Activity.

(** The fetch threw, or came back with nothing or with an empty list: the
    three ways [checkTraderActivity] leaves before it looks at a record. *)
Definition quiet (response : fetched) : Prop :=
  response = Throws \/ response = Absent \/ response = Page [].

(** Every record of the page has a timestamp that parses, under the
    reading [time] of a watcher. *)
Definition dated (time : Trade -> Js.num) (page : list Trade) : Prop :=
  Forall (fun t => time t <> Js.NaN) page.

End Polling.

(** ** The edge-traders endpoint ([api/edge-traders.js]) *)

Module EdgeTraders.
Import Js Metrics Leaderboard EdgeScore.
Local Open Scope R_scope.

(** An open position as the endpoint reports it. *)
Record Stake := {
  st_market : option string;
  st_outcome : option string;
  st_size : Z;
  st_price : field
}.

Definition stake_of (p : Screening.OpenPosition) : Stake :=
  {| st_market := or_str (Screening.title p) (Screening.eventSlug p);
     st_outcome := Screening.outcome p;
     st_size :=
       Screening.round
         (or_num (or_field (Screening.currentValue p) (Screening.size p)) 0);
     st_price := Screening.curPrice p |}.

(** An entry of the answer; [edge] holds the fields that [...edge] spreads
    into it. *)
Record EdgeTrader := {
  wallet : string;
  userName : string;
  pnl : field;
  volume : field;
  edge : Edge;
  openPositions : list Stake
}.

(** [(t.pnl || 0) > 0 && (t.vol || 0) > 50000] *)
Definition candidates (traders : list Trader) : list Trader :=
  List.filter (Aggregator.qualifies 50000) traders.

(** The body of the loop; a failed fetch is skipped by the [catch]. *)
Definition scored (fetch : string -> Screening.details) (trader : Trader)
    : option EdgeTrader :=
  match fetch (proxyWallet trader) with
  | Screening.Failed => None
  | Screening.Details closedPositions openPositions =>
      Some {| wallet := proxyWallet trader;
              userName := Leaderboard.userName trader;
              pnl := Leaderboard.pnl trader;
              volume := vol trader;
              edge := calculateEdgeScore trader closedPositions;
              openPositions := List.map stake_of (firstn 5 openPositions) |}
  end.

(** The handler: the traders of its answer, or [None] for the answer with
    status 500 that the outer [catch] gives when the leaderboard fetch
    throws. *)
Definition handler (leaderboard : option (list Trader))
    (fetch : string -> Screening.details) : option (list EdgeTrader) :=
  match leaderboard with
  | None => None
  | Some traders =>
      Some (JsArray.sortR (fun a b => edgeScore (edge b) - edgeScore (edge a))
              (omap (scored fetch) (firstn 30 (candidates traders))))
  end.

(** What holds of an entry scored from a profitable trader. *)
Definition sound (traders : list Trader) (fetch : string -> Screening.details)
    (e : EdgeTrader) : Prop :=
  (exists trader closedPositions openPositions,
     In trader traders /\
     fetch (proxyWallet trader) = Screening.Details closedPositions openPositions /\
     wallet e = proxyWallet trader /\
     edge e = calculateEdgeScore trader closedPositions) /\
  (exists p v, pnl e = Some p /\ volume e = Some v /\ (0 < p)%Q /\ (50000 < v)%Q) /\
  in_range (edgeScore (edge e)) /\
  0 <= efficiency (edge e) /\
  (length (openPositions e) <= 5)%nat.

End EdgeTraders.

(** ** The edge detector ([detectEdgeTraders]) *)

Module Detector.
Import Js Metrics Leaderboard EdgeScore.
Local Open Scope R_scope.

Record Details := {
  closedPositions : list ClosedPosition;
  openPositions : list Screening.OpenPosition
}.

(** [fetch(..).catch(() => [])] *)
Definition or_empty {A} (response : option (list A)) : list A :=
  match response with
  | Some l => l
  | None => []
  end.

(** [fetchTraderDetails]: a fetch that throws ([None]) counts as an empty
    list. *)
Definition fetchTraderDetails
    (fetchClosedPositions : string -> option (list ClosedPosition))
    (fetchPositions : string -> option (list Screening.OpenPosition))
    (wallet_ : string) : Details :=
  {| closedPositions := or_empty (fetchClosedPositions wallet_);
     openPositions := or_empty (fetchPositions wallet_) |}.

(** [Math.round(x * 10) / 10] *)
Definition tenths (x : R) : R := round (x * 10) / 10.

Record Components := {
  co_efficiency : R;
  co_winRate : R;
  co_profitFactor : R;
  co_consistency : R;
  co_size : R
}.

Record Stats := {
  stat_pnl : Q;
  stat_volume : Q;
  stat_efficiencyPct : R;
  stat_winRate : R;
  stat_wins : nat;
  stat_losses : nat;
  stat_avgWin : R;
  stat_avgLoss : R;
  stat_profitFactor : R;
  stat_totalTrades : nat
}.

Record Report := {
  edgeScore : R;
  components : Components;
  stats : Stats
}.

(** [wins.length > 0 ? wins.reduce(..) / wins.length : 0] *)
Definition avgWin (closed : list ClosedPosition) : Q :=
  match length (Metrics.wins closed) with
  | O => 0%Q
  | n => (sumPnl (Metrics.wins closed) / inject_Z (Z.of_nat n))%Q
  end.

(** [losses.length > 0 ? Math.abs(losses.reduce(..) / losses.length) : 1] *)
Definition avgLoss (closed : list ClosedPosition) : Q :=
  match length (Metrics.losses closed) with
  | O => 1%Q
  | n => Qabs (sumPnl (Metrics.losses closed) / inject_Z (Z.of_nat n))
  end.

(** [calculateEdgeScore] of the detector: the components are those of
    [EdgeScore.subScores]; the report rounds them. *)
Definition calculateEdgeScore (trader : Trader) (details : Details) : Report :=
  let closed := closedPositions details in
  let s := subScores trader closed in
  {| edgeScore := tenths (weighted s);
     components :=
       {| co_efficiency := tenths (efficiencyScore s);
          co_winRate := tenths (winRateScore s);
          co_profitFactor := tenths (profitFactorScore s);
          co_consistency := tenths (consistencyScore s);
          co_size := tenths (sizeScore s) |};
     stats :=
       {| stat_pnl := or_num (pnl trader) 0;
          stat_volume := or_num (vol trader) 1;
          stat_efficiencyPct := round (efficiencyOf trader * 1000) / 10;
          stat_winRate := round (Q2R (winRateOr (1 # 2) closed) * 1000) / 10;
          stat_wins := length (Metrics.wins closed);
          stat_losses := length (Metrics.losses closed);
          stat_avgWin := round (Q2R (avgWin closed));
          stat_avgLoss := round (Q2R (avgLoss closed));
          stat_profitFactor := round (Q2R (Metrics.profitFactor closed) * 100) / 100;
          stat_totalTrades := Metrics.totalTrades closed |} |}.

(** An open position as listed under [currentPositions]. *)
Record Current := {
  cu_market : option string;
  cu_outcome : option string;
  cu_size : field;
  cu_avgPrice : field;
  cu_currentPrice : field
}.

Definition current_of (p : Screening.OpenPosition) : Current :=
  {| cu_market := or_str (Screening.title p) (Screening.eventSlug p);
     cu_outcome := Screening.outcome p;
     cu_size := or_field (Screening.currentValue p) (Screening.size p);
     cu_avgPrice := Screening.avgPrice p;
     cu_currentPrice := Screening.curPrice p |}.

(** An entry of [edgeTraders]; [report] holds the fields that [...edge]
    spreads into it.  The entry also copies [profileImage] and [xUsername]
    from the leaderboard record, two strings that [Trader] does not
    carry. *)
Record EdgeTrader := {
  wallet : string;
  userName : string;
  report : Report;
  openCount : nat;
  currentPositions : list Current
}.

(** The body of the analysing loop. *)
Definition analyse
    (fetchClosedPositions : string -> option (list ClosedPosition))
    (fetchPositions : string -> option (list Screening.OpenPosition))
    (trader : Trader) : EdgeTrader :=
  let details :=
    fetchTraderDetails fetchClosedPositions fetchPositions (proxyWallet trader) in
  {| wallet := proxyWallet trader;
     userName := Leaderboard.userName trader;
     report := calculateEdgeScore trader details;
     openCount := length (openPositions details);
     currentPositions := List.map current_of (firstn 10 (openPositions details)) |}.

(** The analysed traders, sorted by edge score: [edgeTraders] after
    [edgeTraders.sort(..)].  The loop runs over the first
    [Math.min(candidates.length, topN * 2)] candidates. *)
Definition ranked (minVolume : Q) (topN : nat) (sources : list (list Trader))
    (fetchClosedPositions : string -> option (list ClosedPosition))
    (fetchPositions : string -> option (list Screening.OpenPosition))
    : list EdgeTrader :=
  JsArray.sortR (fun a b => edgeScore (report b) - edgeScore (report a))
    (List.map (analyse fetchClosedPositions fetchPositions)
       (firstn (topN * 2) (Aggregator.detect_candidates minVolume sources))).

(** [detectEdgeTraders(minVolume, topN)]: [topEdge], the list it saves and
    returns, from the three leaderboards [sources]; nothing when a
    leaderboard fetch throws. *)
Definition detectEdgeTraders (minVolume : Q) (topN : nat)
    (leaderboards : option (list (list Trader)))
    (fetchClosedPositions : string -> option (list ClosedPosition))
    (fetchPositions : string -> option (list Screening.OpenPosition))
    : option (list EdgeTrader) :=
  match leaderboards with
  | None => None
  | Some sources =>
      Some (firstn topN
              (ranked minVolume topN sources fetchClosedPositions fetchPositions))
  end.

(** What holds of an entry analysed from a trader in profit. *)
Definition sound (minVolume : Q) (e : EdgeTrader) : Prop :=
  in_range (edgeScore (report e)) /\
  in_range (co_efficiency (components (report e))) /\
  in_range (co_winRate (components (report e))) /\
  in_range (co_profitFactor (components (report e))) /\
  in_range (co_consistency (components (report e))) /\
  in_range (co_size (components (report e))) /\
  (0 < stat_pnl (stats (report e)))%Q /\
  (minVolume <= stat_volume (stats (report e)) \/
   stat_volume (stats (report e)) = 1%Q)%Q /\
  (length (currentPositions e) <= 10)%nat /\
  (length (currentPositions e) <= openCount e)%nat.

End Detector.

(** ** Paging through the leaderboard ([api.js], [fetchAllLeaderboard]) *)

Module Paging.
Import Js Leaderboard Effect Effect.Notations.

(** A leaderboard request, as far as the paging loop varies it. *)
Record Request := {
  limit : nat;
  offset : nat
}.

(** What the data API does with a request: an answer that is not [ok], or
    the rows of the page. *)
Inductive answer :=
  | Refused
  | Rows (traders : list Trader).

Definition rows_of (a : answer) : list Trader :=
  match a with
  | Rows traders => traders
  | Refused => []
  end.

(** [fetchLeaderboard]: the request goes out, which the state records, and
    [if (!res.ok) throw ..]. *)
Definition fetchLeaderboard (api : Request -> answer) (request : Request)
    : M (list Request) (list Trader) :=
  fun sent =>
    match api request with
    | Refused => (Thrown, sent ++ [request])
    | Rows traders => (Returned traders, sent ++ [request])
    end.

(** [options.limit || 100] *)
Definition limit_or (limit_ : option nat) : nat :=
  match limit_ with
  | Some (S n) => S n
  | Some O | None => 100
  end.

(** The request of page [page]. *)
Definition request_of (limit_ page : nat) : Request :=
  {| limit := limit_; offset := page * limit_ |}.

(** The [for] loop from [page] on, with [remaining = maxPages - page]. *)
Fixpoint pages (api : Request -> answer) (limit_ page remaining : nat)
    (allTraders : list Trader) : M (list Request) (list Trader) :=
  match remaining with
  | O => ret allTraders
  | S remaining' =>
      let* traders := fetchLeaderboard api (request_of limit_ page) in
      match traders with
      | [] => ret allTraders
      | _ :: _ => pages api limit_ (S page) remaining' (allTraders ++ traders)
      end
  end.

Definition fetchAllLeaderboard (api : Request -> answer) (limit_ : option nat)
    (maxPages : nat) : M (list Request) (list Trader) :=
  pages api (limit_or limit_) 0 maxPages [].

(** How a run over the pages [page, page + n) ended. *)
Definition ended (api : Request -> answer) (limit_ page n remaining : nat)
    (allTraders : list Trader) (result : completion (list Trader)) : Prop :=
  match result with
  | Returned all =>
      all = allTraders ++
            flat_map (fun i => rows_of (api (request_of limit_ i))) (seq page n) /\
      (n = remaining \/
       exists m, n = S m /\ api (request_of limit_ (page + m)) = Rows [])
  | Thrown =>
      exists m, n = S m /\ api (request_of limit_ (page + m)) = Refused
  end.

End Paging.

(** ** The trader index ([fetch-traders.js]) *)

Module TraderIndex.
Import Js Leaderboard Aggregator.

(** [m.get(k)] *)
Definition get {V} (m : TraderMap V) (k : string) : option V :=
  option_map snd (List.find (fun kv => String.eqb (fst kv) k) m).

(** A write to the object stored under [k]: the map holds the object
    itself, so the write shows in the map. *)
Definition update {V} (m : TraderMap V) (k : string) (f : V -> V) : TraderMap V :=
  List.map (fun kv => if String.eqb (fst kv) k then (fst kv, f (snd kv)) else kv) m.

Section Index.
(** The values the index copies without looking at them. *)
Context {Json : Type}.

(** A leaderboard row with the fields the index copies. *)
Record Row := {
  base : Trader;
  rank : Json;
  profileImage : Json;
  xUsername : Json;
  verifiedBadge : Json
}.

Record Ranking := {
  pnlRank : Json;
  rk_pnl : field;
  rk_volume : field
}.

(** An entry of [traders.json]; [rankings] is an object keyed by period,
    kept in the order its keys were first written. *)
Record Entry := {
  wallet : string;
  userName : string;
  e_profileImage : Json;
  e_xUsername : Json;
  e_verifiedBadge : Json;
  rankings : TraderMap Ranking
}.

Definition fresh (trader : Row) : Entry :=
  {| wallet := proxyWallet (base trader);
     userName := Leaderboard.userName (base trader);
     e_profileImage := profileImage trader;
     e_xUsername := xUsername trader;
     e_verifiedBadge := verifiedBadge trader;
     rankings := [] |}.

Definition ranking_of (trader : Row) : Ranking :=
  {| pnlRank := rank trader;
     rk_pnl := pnl (base trader);
     rk_volume := vol (base trader) |}.

(** [entry.rankings[period] = ranking] *)
Definition rank_in (period : string) (ranking : Ranking) (entry : Entry) : Entry :=
  {| wallet := wallet entry;
     userName := userName entry;
     e_profileImage := e_profileImage entry;
     e_xUsername := e_xUsername entry;
     e_verifiedBadge := e_verifiedBadge entry;
     rankings := set (rankings entry) period ranking |}.

(** The body of the inner loop. *)
Definition index_step (period : string) (traderMap : TraderMap Entry)
    (trader : Row) : TraderMap Entry :=
  let w := proxyWallet (base trader) in
  let traderMap :=
    if has traderMap w then traderMap else set traderMap w (fresh trader) in
  update traderMap w (rank_in period (ranking_of trader)).

Record PeriodData := {
  byPnl : list Row;
  byVolume : list Row
}.

Definition periods : list string := ["day"; "week"; "month"; "all"]%string.

(** [[...allData[period].byPnl, ...allData[period].byVolume]] *)
Definition listed (allData : string -> PeriodData) (period : string) : list Row :=
  byPnl (allData period) ++ byVolume (allData period).

Definition index_period (allData : string -> PeriodData)
    (traderMap : TraderMap Entry) (period : string) : TraderMap Entry :=
  fold_left (index_step period) (listed allData period) traderMap.

(** [traders], as written to [traders.json]. *)
Definition traderIndex (allData : string -> PeriodData) : list Entry :=
  values (fold_left (index_period allData) periods []).

(** The rows in the order the loops visit them, each with its period. *)
Definition visited (allData : string -> PeriodData) : list (string * Row) :=
  flat_map (fun period => List.map (pair period) (listed allData period)) periods.

(** The first row of wallet [w] among [rows], and the last one. *)
Definition first_in (w : string) (rows : list Row) : option Row :=
  List.find (fun r => String.eqb (proxyWallet (base r)) w) rows.

Definition last_in (w : string) (rows : list Row) : option Row :=
  first_in w (rev rows).

(** [e] carries the identity of the first row of its wallet over all
    periods. *)
Definition identified (allData : string -> PeriodData) (e : Entry) : Prop :=
  exists trader,
    first_in (wallet e) (List.map snd (visited allData)) = Some trader /\
    userName e = Leaderboard.userName (base trader) /\
    e_profileImage e = profileImage trader /\
    e_xUsername e = xUsername trader /\
    e_verifiedBadge e = verifiedBadge trader.

(** The ranking of [e] for [period] is that of the last row of its wallet
    in the period's lists, the by-volume list coming after the by-profit
    one; there is none when the wallet is in neither, or the period is not
    one of [periods]. *)
Definition ranked_last (allData : string -> PeriodData) (e : Entry) : Prop :=
  forall period,
    get (rankings e) period =
      if existsb (String.eqb period) periods
      then option_map ranking_of
             match last_in (wallet e) (byVolume (allData period)) with
             | Some trader => Some trader
             | None => last_in (wallet e) (byPnl (allData period))
             end
      else None.

End Index.

End TraderIndex.

(** ** The Cloud Run watcher's watchlist ([updateWatchlist]) *)

Module CloudWatchlist.
Import Js Metrics Leaderboard Aggregator.
Local Open Scope Q_scope.

(** A watchlist object: the entry the dedupe loop built, and the two
    fields the candidate check adds to it. *)
Record Watched := {
  entry : WatchEntry;
  w_winRate : option Q;
  w_totalTrades : option nat
}.

Definition unmarked (e : WatchEntry) : Watched :=
  {| entry := e; w_winRate := None; w_totalTrades := None |}.

Definition candidate (t : Watched) : bool := isCopyCandidate (entry t).

(** [(a, b) => b.efficiency - a.efficiency]; a comparator that returns
    [NaN] is read by [sort] as returning [0]. *)
Definition by_efficiency (a b : WatchEntry) : Q :=
  match entryEfficiency b, entryEfficiency a with
  | Some x, Some y => x - y
  | _, _ => 0
  end.

(** [Array.from(traderMap.values()).sort(..).slice(0, 40)] *)
Definition topTraders (traderMap : TraderMap WatchEntry) : list WatchEntry :=
  firstn 40 (JsArray.sort by_efficiency (values traderMap)).

(** [totalTrades >= 15 && winRate >= 0.70 && trader.efficiency >= 0.30] *)
Definition criteria (closed : list ClosedPosition) (trader : WatchEntry) : bool :=
  (15 <=? totalTrades closed)%nat && Qle_bool (7 # 10) (winRateOr 0 closed)
  && match entryEfficiency trader with
     | Some e => Qle_bool (3 # 10) e
     | None => false
     end.

(** The three writes to [trader]. *)
Definition mark (closed : list ClosedPosition) (t : Watched) : Watched :=
  {| entry :=
       {| wallet := wallet (entry t);
          entryName := entryName (entry t);
          entryPnl := entryPnl (entry t);
          volume := volume (entry t);
          entryEfficiency := entryEfficiency (entry t);
          isCopyCandidate := true |};
     w_winRate := Some (winRateOr 0 closed);
     w_totalTrades := Some (totalTrades closed) |}.

(** One turn of the candidate loop.  [trader] is an object of the map, so
    the writes are made under its wallet; a fetch that throws ([None]) is
    swallowed by the [catch]. *)
Definition check (fetchClosedPositions : string -> option (list ClosedPosition))
    (marked : TraderMap Watched) (trader : WatchEntry) : TraderMap Watched :=
  match fetchClosedPositions (wallet trader) with
  | None => marked
  | Some closed =>
      if criteria closed trader
      then TraderIndex.update marked (wallet trader) (mark closed)
      else marked
  end.

(** The comparator of the final sort. *)
Definition priority (a b : Watched) : Q :=
  if candidate a && negb (candidate b) then -1
  else if negb (candidate a) && candidate b then 1
  else by_efficiency (entry a) (entry b).

Definition watchCount : nat := 50.

(** The map after the candidate loop. *)
Definition checked (sources : list (list Trader))
    (fetchClosedPositions : string -> option (list ClosedPosition))
    : TraderMap Watched :=
  let traderMap := watch_traderMap sources in
  fold_left (check fetchClosedPositions) (topTraders traderMap)
    (List.map (fun kv => (fst kv, unmarked (snd kv))) traderMap).

(** [updateWatchlist]: [state.watchlist] and [state.copyCandidates] as
    saved; nothing when a leaderboard fetch throws. *)
Definition updateWatchlist (leaderboards : option (list (list Trader)))
    (fetchClosedPositions : string -> option (list ClosedPosition))
    : option (list Watched * list string) :=
  match leaderboards with
  | None => None
  | Some sources =>
      let watchlist :=
        firstn watchCount
          (JsArray.sort priority (values (checked sources fetchClosedPositions))) in
      Some (watchlist,
            List.map (fun t => wallet (entry t)) (List.filter candidate watchlist))
  end.

(** [a] may stand before [b]: a candidate before one that is not, and
    within each kind the more efficient first. *)
Definition before (a b : Watched) : Prop :=
  (candidate a = true /\ candidate b = false) \/
  (candidate a = candidate b /\
   exists x y, entryEfficiency (entry a) = Some x /\
               entryEfficiency (entry b) = Some y /\ y <= x).

(** What holds of a watched trader. *)
Definition watched_ok (sources : list (list Trader))
    (fetchClosedPositions : string -> option (list ClosedPosition))
    (t : Watched) : Prop :=
  (exists p v e,
     entryPnl (entry t) = Some p /\ volume (entry t) = Some v /\
     entryEfficiency (entry t) = Some e /\
     0 < p /\ 10000 < v /\ e == p / v) /\
  (candidate t = false -> w_winRate t = None /\ w_totalTrades t = None) /\
  (candidate t = true ->
   exists closed e,
     fetchClosedPositions (wallet (entry t)) = Some closed /\
     w_totalTrades t = Some (totalTrades closed) /\
     w_winRate t = Some (winRateOr 0 closed) /\
     (15 <= totalTrades closed)%nat /\ 7 # 10 <= winRateOr 0 closed /\
     entryEfficiency (entry t) = Some e /\ 3 # 10 <= e /\
     In (wallet (entry t))
        (List.map wallet (topTraders (watch_traderMap sources)))).

End CloudWatchlist.

(** ** The activity endpoint

    The recent large trades of the ten traders on top of the leaderboard.
    Its entries have the fields of the Cloud Run watcher's alerts and are
    built the same way. *)

Module ActivityFeed.
Import Js Activity Leaderboard.
Local Open Scope Q_scope.

Definition whale_of (trader : Trader) : CloudWatcher.Whale :=
  {| CloudWatcher.wallet := proxyWallet trader;
     CloudWatcher.userName := userName trader |}.

(** [if (size < 1000) continue] *)
Definition large (trade : Trade) : bool := negb (Qltb (sizeOf trade) 1000).

(** The trades pushed for one trader; a fetch that throws ([None]) is
    skipped. *)
Definition pushed (fetchActivity : string -> option (list Trade))
    (trader : Trader) : list CloudWatcher.Alert :=
  match fetchActivity (proxyWallet trader) with
  | None => []
  | Some activity =>
      List.map (CloudWatcher.alert_of (whale_of trader)) (List.filter large activity)
  end.

(** [new Date(a.timestamp)] as a number. *)
Definition timeOf (a : CloudWatcher.Alert) : num := getTime (CloudWatcher.a_timestamp a).

(** [(a, b) => new Date(b.timestamp) - new Date(a.timestamp)]; a
    comparator that returns [NaN] is read by [sort] as returning [0]. *)
Definition by_time (a b : CloudWatcher.Alert) : Q :=
  match timeOf b, timeOf a with
  | Num x, Num y => inject_Z (x - y)
  | _, _ => 0
  end.

Definition gathered (topTraders : list Trader)
    (fetchActivity : string -> option (list Trade)) : list CloudWatcher.Alert :=
  flat_map (pushed fetchActivity) (firstn 10 topTraders).

(** The handler: the list of its answer, or [None] for the answer with
    status 500 when the leaderboard fetch throws. *)
Definition handler (leaderboard : option (list Trader))
    (fetchActivity : string -> option (list Trade))
    : option (list CloudWatcher.Alert) :=
  match leaderboard with
  | None => None
  | Some topTraders =>
      Some (firstn 50 (JsArray.sort by_time (gathered topTraders fetchActivity)))
  end.

(** [b] is not newer than [a]. *)
Definition not_newer (a b : CloudWatcher.Alert) : Prop :=
  exists x y, timeOf a = Num x /\ timeOf b = Num y /\ (y <= x)%Z.

End ActivityFeed.

(** ** Printing amounts ([src/analyze.js]) *)

Module Report.
Import Js.
Local Open Scope string_scope.

Section Format.
(** [x.toLocaleString('en-US', { maximumFractionDigits: 0 })] *)
Variable toLocaleString : Q -> string.

(** [formatMoney]; [None] is [null] or [undefined]. *)
Definition formatMoney (n : field) : string :=
  match n with
  | None => "-"
  | Some q =>
      let sign := if Qle_bool 0 q then "+" else "" in
      sign ++ "$" ++ toLocaleString (Qabs q)
  end.

End Format.

End Report.

(** * Properties *)

(** ** Comparisons *)

Section Comparisons.
Import Js.

Lemma Qltb_lt (x y : Q) : Qltb x y = true <-> (x < y)%Q.
Proof.
  unfold Qltb. rewrite negb_true_iff, <- not_true_iff_false, Qle_bool_iff.
  split; [apply Qnot_le_lt | apply Qlt_not_le].
Qed.

Lemma Qltb_ge (x y : Q) : Qltb x y = false <-> (y <= x)%Q.
Proof.
  unfold Qltb. rewrite negb_false_iff. apply Qle_bool_iff.
Qed.

Lemma gt0_spec (x : field) : gt0 x = true <-> exists q, x = Some q /\ (0 < q)%Q.
Proof.
  destruct x as [q|]; simpl.
  - rewrite Qltb_lt. split; [eauto | intros (q' & [= <-] & H); exact H].
  - split; [discriminate | intros (q & [=] & _)].
Qed.

Lemma lt0_spec (x : field) : lt0 x = true <-> exists q, x = Some q /\ (q < 0)%Q.
Proof.
  destruct x as [q|]; simpl.
  - rewrite Qltb_lt. split; [eauto | intros (q' & [= <-] & H); exact H].
  - split; [discriminate | intros (q & [=] & _)].
Qed.

End Comparisons.

(** ** Profit factor *)

Section ProfitFactor.
Import Js Metrics.
Local Open Scope Q_scope.

Lemma totalLosses_nonneg closed : 0 <= totalLosses closed.
Proof. apply Qabs_nonneg. Qed.

Lemma fold_amount_ge (xs : list ClosedPosition) (a : Q) :
  Forall (fun p => 0 < amount p) xs ->
  a <= fold_left (fun s p => s + amount p) xs a.
Proof.
  revert a. induction xs as [|p xs IH]; intros a Hpos; simpl.
  - apply Qle_refl.
  - inversion Hpos as [|? ? Hp Hxs]; subst.
    apply Qle_trans with (a + amount p); [|apply IH; assumption].
    rewrite <- (Qplus_0_r a) at 1. apply Qplus_le_r. apply Qlt_le_weak, Hp.
Qed.

Lemma fold_amount_gt (xs : list ClosedPosition) (a : Q) :
  Forall (fun p => 0 < amount p) xs -> xs <> [] ->
  a < fold_left (fun s p => s + amount p) xs a.
Proof.
  intros Hpos Hne. destruct xs as [|p xs]; [congruence|]. simpl.
  inversion Hpos as [|? ? Hp Hxs]; subst.
  apply Qlt_le_trans with (a + amount p); [|apply fold_amount_ge; assumption].
  rewrite <- (Qplus_0_r a) at 1. apply Qplus_lt_r. exact Hp.
Qed.

Lemma wins_positive closed : Forall (fun p => 0 < amount p) (wins closed).
Proof.
  apply List.Forall_forall. intros p Hp. apply List.filter_In in Hp as [_ Hp].
  apply gt0_spec in Hp as (q & Hq & Hpos). unfold amount. rewrite Hq. exact Hpos.
Qed.

Lemma totalWins_nonneg closed : 0 <= totalWins closed.
Proof. apply fold_amount_ge, wins_positive. Qed.

(** A trader with at least one winning position has positive gross wins. *)
Lemma totalWins_pos closed : wins closed <> [] -> 0 < totalWins closed.
Proof. apply fold_amount_gt, wins_positive. Qed.

(** [calculateEdgeScore] follows the three-way policy. *)
Lemma profitFactor_three_way closed : pf_policy_at profitFactor closed.
Proof.
  unfold pf_policy_at, profitFactor. repeat split.
  - intros H. apply Qltb_lt in H. rewrite H. reflexivity.
  - intros Hl Hw.
    assert (Qltb 0 (totalLosses closed) = false) as ->
      by (apply Qltb_ge; rewrite Hl; apply Qle_refl).
    apply Qltb_lt in Hw. rewrite Hw. reflexivity.
  - intros Hl Hw.
    assert (Qltb 0 (totalLosses closed) = false) as ->
      by (apply Qltb_ge; rewrite Hl; apply Qle_refl).
    assert (Qltb 0 (totalWins closed) = false) as ->
      by (apply Qltb_ge; rewrite Hw; apply Qle_refl).
    reflexivity.
Qed.

(** The copy-candidates handler knows two cases only. *)
Lemma handler_profitFactor_two_way closed :
  pf_two_way_at handler_profitFactor closed.
Proof.
  unfold pf_two_way_at, handler_profitFactor. split.
  - intros H. apply Qltb_lt in H. rewrite H. reflexivity.
  - intros Hl.
    assert (Qltb 0 (totalLosses closed) = false) as ->
      by (apply Qltb_ge; rewrite Hl; apply Qle_refl).
    reflexivity.
Qed.

(** Both computations give the same number unless there is neither a win
    nor a loss. *)
Lemma handler_profitFactor_agrees closed :
  0 < totalLosses closed \/ 0 < totalWins closed ->
  handler_profitFactor closed = profitFactor closed.
Proof.
  unfold handler_profitFactor, profitFactor. intros H.
  destruct (Qltb 0 (totalLosses closed)) eqn:Hl; [reflexivity|].
  destruct H as [H|H]; apply Qltb_lt in H; [congruence|]. rewrite H. reflexivity.
Qed.

(** The handler only reports a trader with 15 trades or more and a win
    rate of 70% or more; such a trader has a win, so on every trader it
    reports the handler's profit factor is the one of [calculateEdgeScore]. *)
Lemma handler_profitFactor_reported closed :
  (15 <= totalTrades closed)%nat -> 7 # 10 <= winRateOr 0 closed ->
  handler_profitFactor closed = profitFactor closed.
Proof.
  intros Hn Hr. apply handler_profitFactor_agrees. right. apply totalWins_pos.
  intros E. unfold winRateOr in Hr.
  destruct (totalTrades closed) as [|n]; [lia|]. rewrite E in Hr.
  unfold ratio, Qdiv in Hr. simpl length in Hr. rewrite Qmult_0_l in Hr.
  apply Qle_not_lt in Hr. apply Hr. reflexivity.
Qed.

(** C4, as the code has it: [calculateEdgeScore] computes
    [totalWins/totalLosses] when there are losses, 10 when there are wins
    and no losses, and 1 when there is neither; the copy-candidates
    handler computes [totalWins/totalLosses] when there are losses and 10
    otherwise, so the two agree except on a trader with neither a win nor a
    loss, where the handler says 10. *)
Theorem profitFactor_policies (closed : list ClosedPosition) :
  pf_policy_at profitFactor closed /\
  pf_two_way_at handler_profitFactor closed /\
  (0 < totalLosses closed \/ 0 < totalWins closed ->
   handler_profitFactor closed = profitFactor closed) /\
  (totalLosses closed == 0 -> totalWins closed == 0 ->
   handler_profitFactor closed == 10 /\ profitFactor closed == 1).
Proof.
  split; [apply profitFactor_three_way|].
  split; [apply handler_profitFactor_two_way|].
  split; [apply handler_profitFactor_agrees|].
  intros Hl Hw. split.
  - apply handler_profitFactor_two_way, Hl.
  - apply profitFactor_three_way; assumption.
Qed.

(** The worked example of the specification: wins 130, losses 60, profit
    factor 13/6. *)
Example sample_profitFactor :
  totalWins Samples.closed == 130 /\ totalLosses Samples.closed == 60 /\
  profitFactor Samples.closed == 13 # 6 /\
  handler_profitFactor Samples.closed == 13 # 6.
Proof. vm_compute. repeat split; reflexivity. Qed.

Lemma profitFactor_policies_witness :
  handler_profitFactor Samples.closed = profitFactor Samples.closed.
Proof.
  apply (profitFactor_policies Samples.closed). left. vm_compute. reflexivity.
Defined.

(** With no closed position at all the handler's profit factor is 10, not
    the neutral 1. *)
Lemma handler_profitFactor_not_three_way :
  ~ pf_policy_at handler_profitFactor [].
Proof.
  intros (_ & _ & H).
  assert (handler_profitFactor [] == 1) as E by (apply H; reflexivity).
  vm_compute in E. discriminate E.
Qed.

End ProfitFactor.

(** ** Edge score *)

Section EdgeScoreBounds.
Import Js Metrics Leaderboard EdgeScore.

Lemma ratio_unit (a n : nat) :
  (a <= n)%nat -> (0 < n)%nat -> (0 <= ratio a n /\ ratio a n <= 1)%Q.
Proof.
  intros Ha Hn. unfold ratio.
  assert (0 < inject_Z (Z.of_nat n))%Q as Hpos.
  { change 0%Q with (inject_Z 0). rewrite <- Zlt_Qlt. lia. }
  split.
  - apply Qle_shift_div_l; [exact Hpos|]. rewrite Qmult_0_l.
    change 0%Q with (inject_Z 0). rewrite <- Zle_Qle. lia.
  - apply Qle_shift_div_r; [exact Hpos|]. rewrite Qmult_1_l.
    rewrite <- Zle_Qle. lia.
Qed.

Lemma winRateOr_unit (dflt : Q) closed :
  (0 <= dflt <= 1)%Q -> (0 <= winRateOr dflt closed /\ winRateOr dflt closed <= 1)%Q.
Proof.
  intros Hd. unfold winRateOr.
  destruct (Metrics.totalTrades closed) as [|n] eqn:Hn; [exact Hd|].
  apply ratio_unit; [|lia]. rewrite <- Hn. unfold Metrics.totalTrades. lia.
Qed.

Lemma profitFactor_nonneg closed : (0 <= Metrics.profitFactor closed)%Q.
Proof.
  unfold Metrics.profitFactor.
  destruct (Qltb 0 (totalLosses closed)) eqn:Hl.
  - apply Qltb_lt in Hl. apply Qle_shift_div_l; [exact Hl|].
    rewrite Qmult_0_l. apply totalWins_nonneg.
  - destruct (Qltb 0 (totalWins closed)); discriminate.
Qed.

Local Open Scope R_scope.

Lemma volumeOf_pos trader :
  (0 <= or_num (vol trader) 0)%Q -> 0 < volumeOf trader.
Proof.
  unfold volumeOf, or_num. intros Hv.
  replace 0 with (Q2R 0) by (unfold Q2R; simpl; lra).
  apply Qlt_Rlt.
  destruct (vol trader) as [q|]; [|reflexivity].
  destruct (Qeq_bool q 0) eqn:Hq; [reflexivity|].
  apply Qeq_bool_neq in Hq. apply Qle_lteq in Hv as [Hv|Hv]; [exact Hv|].
  symmetry in Hv. contradiction.
Qed.

Lemma ln10_pos : 0 < ln 10.
Proof. rewrite <- ln_1. apply ln_increasing; lra. Qed.

Lemma log10_nonneg x : 1 <= x -> 0 <= log10 x.
Proof.
  intros Hx. unfold log10.
  assert (0 <= ln x) as Hln.
  { destruct Hx as [Hx| <-]; [|rewrite ln_1; lra].
    rewrite <- ln_1. left. apply ln_increasing; lra. }
  apply Rmult_le_pos; [exact Hln|]. left. apply Rinv_0_lt_compat, ln10_pos.
Qed.

Lemma Rmin_cap x : 0 <= x -> in_range (Rmin x 100).
Proof.
  intros Hx. unfold in_range. split.
  - apply Rmin_glb; lra.
  - apply Rmin_r.
Qed.

Lemma round_bounds (x : R) (n : Z) :
  0 <= x <= IZR n -> 0 <= round x <= IZR n.
Proof.
  intros [Hlo Hhi]. unfold round.
  destruct (base_Int_part (x + / 2)) as [Hle Hgt].
  split.
  - apply IZR_le.
    assert (-1 < Int_part (x + / 2))%Z; [|lia].
    apply lt_IZR. lra.
  - apply IZR_le.
    assert (Int_part (x + / 2) < n + 1)%Z; [|lia].
    apply lt_IZR. rewrite plus_IZR. lra.
Qed.

Lemma round_negative (x : R) : x <= -1 -> round x < 0.
Proof.
  intros Hx. unfold round.
  destruct (base_Int_part (x + / 2)) as [Hle _]. lra.
Qed.

Lemma consistency_in_range (n : nat) :
  in_range (if (20 <? n)%nat then 100 else INR n / 20 * 100).
Proof.
  unfold in_range. destruct (20 <? n)%nat eqn:Hn; [lra|].
  apply Nat.ltb_ge in Hn. apply le_INR in Hn.
  replace (INR 20) with 20 in Hn by (simpl; lra).
  pose proof (pos_INR n). lra.
Qed.

Lemma weighted_in_range s :
  in_range (efficiencyScore s) -> in_range (winRateScore s) ->
  in_range (profitFactorScore s) -> in_range (consistencyScore s) ->
  in_range (sizeScore s) -> in_range (weighted s).
Proof. unfold in_range, weighted. intros. lra. Qed.

(** Four of the five components need no assumption on the sign of the
    profit: they are within [0, 100] for any trader of non-negative
    volume. *)
Lemma other_scores_in_range trader closed :
  (0 <= or_num (vol trader) 0)%Q ->
  let s := subScores trader closed in
  in_range (winRateScore s) /\ in_range (profitFactorScore s) /\
  in_range (consistencyScore s) /\ in_range (sizeScore s).
Proof.
  intros Hv. simpl. repeat split.
  - destruct (winRateOr_unit (1 # 2) closed) as [H _]; [split; discriminate|].
    apply Qle_Rle in H. unfold Q2R at 1 in H. simpl in H. lra.
  - destruct (winRateOr_unit (1 # 2) closed) as [_ H]; [split; discriminate|].
    apply Qle_Rle in H. unfold Q2R at 2 in H. simpl in H. lra.
  - apply Rmin_cap. pose proof (profitFactor_nonneg closed) as H.
    apply Qle_Rle in H. unfold Q2R at 1 in H. simpl in H. lra.
  - apply Rmin_cap. pose proof (profitFactor_nonneg closed) as H.
    apply Qle_Rle in H. unfold Q2R at 1 in H. simpl in H. lra.
  - apply consistency_in_range.
  - apply consistency_in_range.
  - apply Rmin_cap. pose proof (volumeOf_pos trader Hv).
    pose proof (log10_nonneg (volumeOf trader + 1)). lra.
  - apply Rmin_cap. pose proof (volumeOf_pos trader Hv).
    pose proof (log10_nonneg (volumeOf trader + 1)). lra.
Qed.

Lemma efficiencyOf_sign trader :
  (0 <= or_num (vol trader) 0)%Q ->
  (0 <= or_num (pnl trader) 0)%Q -> 0 <= efficiencyOf trader.
Proof.
  intros Hv Hp. unfold efficiencyOf.
  apply Qle_Rle in Hp. unfold Q2R at 1 in Hp. simpl in Hp.
  apply Rmult_le_pos; [lra|]. left. apply Rinv_0_lt_compat, volumeOf_pos, Hv.
Qed.

(** The efficiency component is only capped from above: it is the raw
    [efficiency * 200] whenever that is below 100, negative values
    included. *)
Lemma efficiencyScore_uncapped_below trader closed :
  efficiencyOf trader * 200 <= 100 ->
  efficiencyScore (subScores trader closed) = efficiencyOf trader * 200.
Proof. intros H. simpl. apply Rmin_left, H. Qed.

(** C1, as the code has it: for a trader whose profit is not negative (and
    whose volume is not negative) and any closed positions, the five
    components, their weighted sum and the rounded edge score are within
    [0, 100].  The components are capped at 100 by [Math.min] and are not
    capped from below; they are non-negative because their inputs are. *)
Theorem edge_scores_in_range (trader : Trader) (closed : list ClosedPosition) :
  (0 <= or_num (pnl trader) 0)%Q ->
  (0 <= or_num (vol trader) 0)%Q ->
  scores_in_range trader closed.
Proof.
  intros Hp Hv.
  destruct (other_scores_in_range trader closed Hv) as (Hw & Hf & Hc & Hs).
  assert (in_range (efficiencyScore (subScores trader closed))) as He.
  { simpl. apply Rmin_cap. pose proof (efficiencyOf_sign trader Hv Hp). lra. }
  pose proof (weighted_in_range _ He Hw Hf Hc Hs) as Hsum.
  unfold scores_in_range. cbv zeta. repeat split; try apply He; try apply Hw;
    try apply Hf; try apply Hc; try apply Hs; try apply Hsum.
  - unfold calculateEdgeScore; simpl edgeScore.
    destruct (round_bounds (weighted (subScores trader closed) * 10) 1000) as [H _].
    { unfold in_range in Hsum. lra. }
    lra.
  - unfold calculateEdgeScore; simpl edgeScore.
    destruct (round_bounds (weighted (subScores trader closed) * 10) 1000) as [_ H].
    { unfold in_range in Hsum. lra. }
    lra.
Qed.

Lemma edge_scores_in_range_witness :
  scores_in_range Samples.profitable Samples.closed.
Proof.
  apply edge_scores_in_range; vm_compute; discriminate.
Defined.

(** A trader in the red: the efficiency component is -200 and drags the
    edge score below zero. *)
Lemma edge_scores_negative_pnl :
  ~ scores_in_range Samples.losing [].
Proof.
  unfold scores_in_range. cbv zeta. intros ((H & _) & _).
  rewrite efficiencyScore_uncapped_below in H;
    unfold efficiencyOf, volumeOf, Samples.losing, Q2R in *; simpl in *; lra.
Qed.

Lemma ln_1_plus x : 0 < x -> ln (1 + x) < x.
Proof.
  intros Hx. rewrite <- (ln_exp x) at 2.
  apply ln_increasing; [lra|]. apply exp_ineq1. lra.
Qed.

Lemma ln10_half : / 2 < ln 10.
Proof.
  apply Rlt_trans with (ln 2); [apply ln_lt_2|].
  apply ln_increasing; lra.
Qed.

Lemma log10_100001 : 5 <= log10 100001 < 5 + / 1000.
Proof.
  pose proof ln10_half as H10.
  assert (ln 100001 = 5 * ln 10 + ln (1 + / 100000)) as E.
  { replace 100001 with (10 ^ 5 * (1 + / 100000)) by (simpl; lra).
    rewrite ln_mult; [|simpl; lra|lra]. rewrite ln_pow by lra.
    simpl INR. f_equal. lra. }
  assert (0 < ln (1 + / 100000) < / 100000) as [Hlo Hhi].
  { split; [|apply ln_1_plus; lra].
    rewrite <- ln_1. apply ln_increasing; lra. }
  unfold log10. rewrite E. split.
  - apply Rmult_le_reg_r with (ln 10); [lra|].
    unfold Rdiv. rewrite Rmult_assoc, Rinv_l by lra. lra.
  - apply Rmult_lt_reg_r with (ln 10); [lra|].
    unfold Rdiv. rewrite Rmult_assoc, Rinv_l by lra. nra.
Qed.

(** [Math.round] picks the integer within a half of its argument. *)
Lemma round_eq (x : R) (n : Z) : IZR n - / 2 <= x < IZR n + / 2 -> round x = IZR n.
Proof.
  intros [Hlo Hhi]. unfold round. f_equal. symmetry. apply Int_part_spec. lra.
Qed.

(** The worked example of the specification: efficiency 0.5, win rate 0.5,
    profit factor 13/6, four trades, volume 100000, edge score 61.7. *)
Example edge_sample :
  edgeScore (calculateEdgeScore Samples.profitable Samples.closed) = 617 / 10.
Proof.
  unfold calculateEdgeScore. simpl edgeScore.
  rewrite (round_eq _ 617); [reflexivity|].
  unfold weighted, subScores. simpl.
  unfold efficiencyOf, volumeOf. simpl.
  assert (Metrics.profitFactor Samples.closed = (130 # 60)%Q) as -> by (vm_compute; reflexivity).
  assert (winRateOr (1 # 2) Samples.closed = (2 # 4)%Q) as -> by (vm_compute; reflexivity).
  unfold Q2R. simpl.
  pose proof log10_100001 as [Hlo Hhi].
  rewrite (Rmin_right (_ * 200) 100) by lra.
  rewrite (Rmin_left (_ * 20) 100) by lra.
  replace (100000 * / 1 + 1) with 100001 by lra.
  rewrite (Rmin_left (log10 100001 * 15) 100) by lra.
  lra.
Qed.

End EdgeScoreBounds.

(** ** Trader aggregation *)

Section MapFacts.
Import Aggregator.
Context {V : Type}.

Lemma has_true (m : TraderMap V) (k : string) :
  has m k = true <-> exists v, In (k, v) m.
Proof.
  unfold has. rewrite List.existsb_exists. split.
  - intros ([k' v] & Hin & Heq). apply String.eqb_eq in Heq. simpl in Heq.
    subst k'. eauto.
  - intros (v & Hin). exists (k, v). split; [exact Hin|]. apply String.eqb_refl.
Qed.

Lemma has_false (m : TraderMap V) (k : string) :
  has m k = false <-> ~ In k (List.map fst m).
Proof.
  rewrite <- not_true_iff_false, has_true, List.in_map_iff. split.
  - intros Hno ([k' v] & Hk & Hin). simpl in Hk. subst k'. eauto.
  - intros Hno (v & Hin). apply Hno. exists (k, v). auto.
Qed.

Lemma set_fresh (m : TraderMap V) (k : string) (v : V) :
  has m k = false -> set m k v = m ++ [(k, v)].
Proof. unfold set. intros ->. reflexivity. Qed.

End MapFacts.

Section FirstMatchWins.
Import Js Leaderboard Aggregator.

(** The shape shared by the dedupe loops: a record enters the map when its
    wallet is not there yet and it passes the test [q]. *)
Variable q : Trader -> bool.
Variable step : TraderMap Trader -> Trader -> TraderMap Trader.
Hypothesis step_spec : forall m t,
  step m t =
    if negb (has m (proxyWallet t)) && q t then set m (proxyWallet t) t else m.

Let first_match (w : string) (records : list Trader) : option Trader :=
  List.find (fun t => String.eqb (proxyWallet t) w && q t) records.

(** What holds of the map once the records [seen] have gone through. *)
Let inv (seen : list Trader) (m : TraderMap Trader) : Prop :=
  List.NoDup (List.map fst m) /\
  forall k t, In (k, t) m <-> first_match k seen = Some t.

Lemma find_snoc {A} (f : A -> bool) (l : list A) (x : A) :
  List.find f (l ++ [x]) =
    match List.find f l with
    | Some y => Some y
    | None => if f x then Some x else None
    end.
Proof.
  induction l as [|a l IH]; simpl; [reflexivity|].
  destruct (f a); [reflexivity | exact IH].
Qed.

Lemma inv_nil : inv [] [].
Proof.
  split; [constructor|]. intros k t. simpl. split; [contradiction | discriminate].
Qed.

Lemma inv_step seen m t : inv seen m -> inv (seen ++ [t]) (step m t).
Proof.
  intros [Hnd Hin]. rewrite step_spec.
  assert (forall k, has m k = true <-> first_match k seen <> None) as Hhas.
  { intros k. rewrite has_true. split.
    - intros (v & Hv). apply Hin in Hv. congruence.
    - destruct (first_match k seen) as [v|] eqn:E; [|congruence].
      intros _. exists v. apply Hin, E. }
  destruct (negb (has m (proxyWallet t)) && q t) eqn:Hguard.
  - apply andb_true_iff in Hguard as [Hfresh Hq].
    apply negb_true_iff in Hfresh. rewrite (set_fresh _ _ _ Hfresh). split.
    + rewrite List.map_app. simpl. apply List.NoDup_app; [exact Hnd| |].
      * repeat constructor. simpl. tauto.
      * intros k Hk [<-|[]]. apply has_false in Hfresh. exact (Hfresh Hk).
    + intros k t'. unfold first_match. rewrite find_snoc. fold (first_match k seen).
      rewrite List.in_app_iff, Hin. simpl.
      destruct (first_match k seen) as [v|] eqn:E.
      * split; [intros [H|[H|[]]]; [exact H|] | tauto].
        injection H as <- <-. apply not_true_iff_false in Hfresh.
        exfalso. apply Hfresh, Hhas. congruence.
      * rewrite Hq, andb_true_r.
        destruct (String.eqb (proxyWallet t) k) eqn:Hk.
        -- apply String.eqb_eq in Hk. subst k.
           split; [intros [H|[H|[]]]; congruence | intros [= <-]; auto].
        -- apply String.eqb_neq in Hk.
           split; [intros [H|[H|[]]]; congruence | discriminate].
  - split; [exact Hnd|]. intros k t'. unfold first_match. rewrite find_snoc.
    fold (first_match k seen). rewrite Hin.
    destruct (first_match k seen) as [v|] eqn:E; [tauto|].
    destruct (String.eqb (proxyWallet t) k) eqn:Hk; simpl; [|tauto].
    destruct (q t) eqn:Hq; [|tauto]. exfalso.
    apply String.eqb_eq in Hk. subst k. rewrite andb_true_r in Hguard.
    apply negb_false_iff, Hhas in Hguard. congruence.
Qed.

Lemma inv_fold (records seen : list Trader) (m : TraderMap Trader) :
  inv seen m -> inv (seen ++ records) (fold_left step records m).
Proof.
  revert seen m. induction records as [|t records IH]; intros seen m Hinv; simpl.
  - rewrite List.app_nil_r. exact Hinv.
  - replace (seen ++ t :: records) with ((seen ++ [t]) ++ records)
      by (rewrite <- List.app_assoc; reflexivity).
    apply IH, inv_step, Hinv.
Qed.

Lemma first_match_sound w records t :
  first_match w records = Some t -> proxyWallet t = w /\ q t = true /\ In t records.
Proof.
  intros H. apply List.find_some in H as [Hin H].
  apply andb_true_iff in H as [Hw Hq]. apply String.eqb_eq in Hw. auto.
Qed.

(** The values of the map built from [records]: one per wallet, each the
    first record of its wallet that passes [q]. *)
Lemma fold_values (records : list Trader) :
  let out := values (fold_left step records []) in
  List.NoDup (List.map proxyWallet out) /\
  forall t, In t out <-> first_match (proxyWallet t) records = Some t.
Proof.
  destruct (inv_fold records [] [] inv_nil) as [Hnd Hin]. simpl in Hnd, Hin.
  set (m := fold_left step records []) in *. cbv zeta. unfold values.
  assert (List.map proxyWallet (List.map snd m) = List.map fst m) as Hkeys.
  { rewrite List.map_map. apply List.map_ext_in. intros [k t] Hkt. simpl.
    apply Hin, first_match_sound in Hkt. tauto. }
  split; [rewrite Hkeys; exact Hnd|]. intros t. rewrite List.in_map_iff. split.
  - intros ([k t'] & Heq & Hkt). simpl in Heq. subst t'.
    pose proof Hkt as Hm. apply Hin, first_match_sound in Hm as [<- _].
    apply Hin, Hkt.
  - intros H. exists (proxyWallet t, t). split; [reflexivity | apply Hin, H].
Qed.

(** Records of distinct wallets that all pass [q] go through unchanged. *)
Lemma fold_fresh (records : list Trader) (m : TraderMap Trader) :
  List.NoDup (List.map proxyWallet records) ->
  Forall (fun t => q t = true) records ->
  (forall t, In t records -> has m (proxyWallet t) = false) ->
  fold_left step records m =
    m ++ List.map (fun t => (proxyWallet t, t)) records.
Proof.
  revert m. induction records as [|t records IH]; intros m Hnd Hq Hfresh; simpl.
  - rewrite List.app_nil_r. reflexivity.
  - inversion Hnd as [|? ? Hnotin Hnd']; subst.
    inversion Hq as [|? ? Hqt Hq']; subst.
    rewrite step_spec, Hqt, (Hfresh t) by (left; reflexivity). simpl.
    rewrite set_fresh by (apply Hfresh; left; reflexivity).
    rewrite IH; [rewrite <- List.app_assoc; reflexivity | assumption..|].
    intros t' Ht'. apply has_false. rewrite List.map_app, List.in_app_iff. simpl.
    intros [H|[H|[]]].
    + apply has_false in H; [exact H|]. apply Hfresh. right. exact Ht'.
    + apply Hnotin. rewrite H. apply List.in_map, Ht'.
Qed.

Lemma fold_fixpoint (records : list Trader) :
  List.NoDup (List.map proxyWallet records) ->
  Forall (fun t => q t = true) records ->
  values (fold_left step records []) = records.
Proof.
  intros Hnd Hq. rewrite fold_fresh; [|assumption..|reflexivity].
  simpl. unfold values. rewrite List.map_map. simpl. apply List.map_id.
Qed.

End FirstMatchWins.

Section Aggregation.
Import Js Leaderboard Aggregator.
Local Open Scope Q_scope.

Lemma dedupe_step_spec minVol m t :
  dedupe_step minVol m t =
    if negb (has m (proxyWallet t)) && qualifies minVol t
    then set m (proxyWallet t) t else m.
Proof. reflexivity. Qed.

Lemma detect_step_spec m t :
  detect_step m t =
    if negb (has m (proxyWallet t)) && true then set m (proxyWallet t) t else m.
Proof. unfold detect_step. rewrite andb_true_r. reflexivity. Qed.

Lemma qualifies_spec minVol t :
  qualifies minVol t = true <->
  0 < or_num (pnl t) 0 /\ minVol < or_num (vol t) 0.
Proof. unfold qualifies. rewrite andb_true_iff, !Qltb_lt. reflexivity. Qed.

Lemma passes_spec minVolume t :
  passes minVolume t = true <->
  0 < or_num (pnl t) 0 /\ minVolume <= or_num (vol t) 0.
Proof.
  unfold passes. rewrite andb_true_iff, Qltb_lt, Qle_bool_iff. tauto.
Qed.

Lemma find_agree {A} (f g : A -> bool) (l : list A) :
  (forall x, f x = g x) -> List.find f l = List.find g l.
Proof.
  intros H. induction l as [|a l IH]; simpl; [reflexivity|].
  rewrite H, IH. reflexivity.
Qed.

Lemma NoDup_map_filter {A B} (f : A -> B) (p : A -> bool) (l : list A) :
  List.NoDup (List.map f l) -> List.NoDup (List.map f (List.filter p l)).
Proof.
  induction l as [|a l IH]; simpl; [auto|]. intros Hnd.
  apply List.NoDup_cons_iff in Hnd as [Hnotin Hnd].
  destruct (p a); [|auto]. simpl. constructor; [|auto].
  intros Hin. apply Hnotin. apply List.in_map_iff in Hin as (x & Hx & Hin).
  apply List.filter_In in Hin as [Hin _]. apply List.in_map_iff. eauto.
Qed.

Lemma NoDup_firstn {A} (n : nat) (l : list A) :
  List.NoDup l -> List.NoDup (firstn n l).
Proof.
  intros H. rewrite <- (List.firstn_skipn n l) in H.
  apply List.NoDup_app_remove_r in H. exact H.
Qed.

Lemma In_firstn {A} (n : nat) (l : list A) (x : A) :
  In x (firstn n l) -> In x l.
Proof.
  intros H. rewrite <- (List.firstn_skipn n l). apply List.in_or_app. auto.
Qed.

(** The fused loops keep, for each wallet, its first record that meets the
    test. *)
Lemma aggregate_spec minVol sources :
  let out := aggregate minVol sources in
  List.NoDup (List.map proxyWallet out) /\
  forall t, In t out <->
    first_qualifying minVol (proxyWallet t) (concat sources) = Some t.
Proof.
  exact (fold_values (qualifies minVol) (dedupe_step minVol)
           (dedupe_step_spec minVol) (concat sources)).
Qed.

Lemma aggregate_qualifies minVol sources t :
  In t (aggregate minVol sources) -> qualifies minVol t = true.
Proof.
  intros H. apply aggregate_spec in H. apply List.find_some in H as [_ H].
  apply andb_true_iff in H. tauto.
Qed.

(** The edge detector keeps the first record of each wallet, whatever it
    looks like. *)
Lemma detect_traderMap_spec sources :
  let out := values (detect_traderMap sources) in
  List.NoDup (List.map proxyWallet out) /\
  forall t, In t out <-> first_of (proxyWallet t) (concat sources) = Some t.
Proof.
  destruct (fold_values (fun _ => true) detect_step detect_step_spec
              (concat sources)) as [Hnd Hin].
  split; [exact Hnd|]. intros t. unfold detect_traderMap. rewrite Hin.
  unfold first_of.
  rewrite (find_agree _ (fun t0 => String.eqb (proxyWallet t0) (proxyWallet t)));
    [reflexivity|].
  intros x. apply andb_true_r.
Qed.

(** The handler's list is a prefix of the aggregation at 50000. *)
Lemma handler_traders_spec sources :
  List.NoDup (List.map proxyWallet (handler_traders sources)) /\
  forall t, In t (handler_traders sources) ->
    first_qualifying 50000 (proxyWallet t) (concat sources) = Some t /\
    0 < or_num (pnl t) 0 /\ 50000 < or_num (vol t) 0.
Proof.
  unfold handler_traders. split.
  - rewrite <- List.firstn_map. apply NoDup_firstn, aggregate_spec.
  - intros t Ht. apply In_firstn in Ht. split; [apply aggregate_spec, Ht|].
    apply qualifies_spec, (aggregate_qualifies _ sources), Ht.
Qed.

(** The Cloud Run watcher runs the same loop at 10000 and stores a rebuilt
    entry per kept record. *)
Lemma watch_traderMap_spec sources :
  watch_traderMap sources =
    List.map (fun kv => (fst kv, entry_of (snd kv))) (dedupe 10000 sources).
Proof.
  unfold watch_traderMap, dedupe.
  change (@nil (string * WatchEntry))
    with (List.map (fun kv : string * Trader => (fst kv, entry_of (snd kv))) []).
  generalize (@nil (string * Trader)).
  induction (concat sources) as [|t l IH]; intros m; simpl; [reflexivity|].
  rewrite <- IH. f_equal. unfold watch_step, dedupe_step.
  assert (has (List.map (fun kv : string * Trader => (fst kv, entry_of (snd kv))) m)
            (proxyWallet t) = has m (proxyWallet t)) as ->.
  { unfold has. induction m as [|kv m IHm]; simpl; [reflexivity|].
    rewrite IHm. reflexivity. }
  destruct (negb (has m (proxyWallet t)) && qualifies 10000 t) eqn:Hg;
    [|reflexivity].
  apply andb_true_iff in Hg as [Hf _]. apply negb_true_iff in Hf.
  rewrite !set_fresh, List.map_app; [reflexivity| exact Hf |].
  unfold has in *. clear -Hf. induction m as [|kv m IHm]; simpl in *; [reflexivity|].
  apply orb_false_iff in Hf as [-> Hf]. simpl. auto.
Qed.

(** C6, as the code has it: the copy-candidates handler and the Cloud Run
    watcher return at most one record per wallet, and the record kept is the
    first one in processing order that has [pnl > 0] and a volume above the
    floor; an earlier record of the same wallet that fails the test does not
    stand in the way of a later one.  Every record kept has [pnl > 0] and a
    volume above (hence at least) the floor.  The handler keeps the record
    as it is and the watcher stores an entry rebuilt from it.  The edge
    detector dedupes before it filters, and there the first record of each
    wallet is the one kept or dropped. *)
Theorem aggregation_first_qualifying_wins
    (minVol : Q) (sources : list (list Trader)) :
  (let out := aggregate minVol sources in
   List.NoDup (List.map proxyWallet out) /\
   (forall t, In t out <->
      first_qualifying minVol (proxyWallet t) (concat sources) = Some t) /\
   (forall t, In t out ->
      0 < or_num (pnl t) 0 /\ minVol < or_num (vol t) 0 /\
      minVol <= or_num (vol t) 0)) /\
  (List.NoDup (List.map proxyWallet (handler_traders sources)) /\
   forall t, In t (handler_traders sources) ->
     first_qualifying 50000 (proxyWallet t) (concat sources) = Some t /\
     0 < or_num (pnl t) 0 /\ 50000 < or_num (vol t) 0) /\
  watch_traderMap sources =
    List.map (fun kv => (fst kv, entry_of (snd kv))) (dedupe 10000 sources) /\
  first_seen_wins minVol sources (detect_candidates minVol sources).
Proof.
  split; [|split; [apply handler_traders_spec|split; [apply watch_traderMap_spec|]]].
  - cbv zeta. split; [apply aggregate_spec|]. split; [apply aggregate_spec|].
    intros t Ht. apply (aggregate_qualifies _ sources), qualifies_spec in Ht.
    destruct Ht as [Hp Hv]. repeat split; [exact Hp | exact Hv |].
    apply Qlt_le_weak, Hv.
  - unfold first_seen_wins, detect_candidates.
    destruct (detect_traderMap_spec sources) as [Hnd Hin]. split.
    + apply NoDup_map_filter, Hnd.
    + split; intros t Ht; apply List.filter_In in Ht as [Ht Hp].
      * apply Hin, Ht.
      * apply passes_spec, Hp.
Qed.

(** The wallet of the sample shows up in the red in the all-time window and
    in the black in the monthly one: the handler keeps the monthly record,
    which is not the first record of that wallet. *)
Lemma handler_keeps_later_duplicate :
  ~ first_seen_wins 50000 Samples.windows (handler_traders Samples.windows).
Proof.
  intros (_ & H & _).
  specialize (H Samples.monthly_row).
  assert (In Samples.monthly_row (handler_traders Samples.windows)) as Hin
    by (vm_compute; auto).
  apply H in Hin. vm_compute in Hin. discriminate Hin.
Qed.

Example handler_sample :
  handler_traders Samples.windows = [Samples.profitable; Samples.monthly_row].
Proof. vm_compute. reflexivity. Qed.

(** C8: run on its own output, the aggregation returns that output; this
    holds for the handler's dedupe loop with and without its [slice(0, 50)],
    at any volume floor, and for the edge detector's dedupe-then-filter. *)
Theorem aggregation_idempotent (minVol : Q) (sources : list (list Trader)) :
  handler_traders [handler_traders sources] = handler_traders sources /\
  aggregate minVol [aggregate minVol sources] = aggregate minVol sources /\
  detect_candidates minVol [detect_candidates minVol sources] =
    detect_candidates minVol sources.
Proof.
  assert (forall mv out,
            List.NoDup (List.map proxyWallet out) ->
            (forall t, In t out -> qualifies mv t = true) ->
            aggregate mv [out] = out) as Hfix.
  { intros mv out Hnd Hq. unfold aggregate, dedupe. simpl.
    rewrite List.app_nil_r.
    apply (fold_fixpoint (qualifies mv) (dedupe_step mv) (dedupe_step_spec mv));
      [exact Hnd | apply List.Forall_forall, Hq]. }
  split; [|split].
  - unfold handler_traders at 1. rewrite Hfix.
    + unfold handler_traders. rewrite List.firstn_firstn. reflexivity.
    + apply handler_traders_spec.
    + intros t Ht. apply In_firstn in Ht.
      apply (aggregate_qualifies _ sources), Ht.
  - apply Hfix; [apply aggregate_spec | apply aggregate_qualifies].
  - unfold detect_candidates at 1. unfold detect_traderMap. simpl.
    rewrite List.app_nil_r.
    rewrite (fold_fixpoint (fun _ => true) detect_step detect_step_spec).
    + unfold detect_candidates.
      rewrite (List.filter_ext_in (passes minVol) (fun _ => true)).
      * apply List.filter_true.
      * intros t Ht. apply List.filter_In in Ht. tauto.
    + apply NoDup_map_filter, detect_traderMap_spec.
    + apply List.Forall_forall. reflexivity.
Qed.

End Aggregation.

(** ** Sorting *)

Section SortFacts.
Import Js JsArray.
Context {A : Type} (behind : A -> A -> bool).

Lemma insert_when_perm (x : A) (l : list A) :
  Permutation (x :: l) (insert_when behind x l).
Proof.
  induction l as [|y l IH]; simpl; [reflexivity|].
  destruct (behind x y); [|reflexivity].
  rewrite perm_swap. apply perm_skip, IH.
Qed.

Lemma sort_when_perm (l : list A) : Permutation l (sort_when behind l).
Proof.
  induction l as [|x l IH]; simpl; [reflexivity|].
  rewrite <- insert_when_perm. apply perm_skip, IH.
Qed.

Lemma sort_when_In (l : list A) (x : A) : In x (sort_when behind l) <-> In x l.
Proof.
  split; apply Permutation_in; [symmetry|]; apply sort_when_perm.
Qed.

Context (P : A -> Prop) (Horders : orders_on P behind).

Lemma insert_when_sorted (x : A) (l : list A) :
  P x -> Forall P l ->
  StronglySorted (fun a b => behind a b = false) l ->
  StronglySorted (fun a b => behind a b = false) (insert_when behind x l).
Proof.
  destruct Horders as [Htotal Htrans]. intros Px.
  induction l as [|y l IH]; intros HP Hs; simpl.
  - repeat constructor.
  - inversion Hs as [|? ? Hl Hy]; subst.
    inversion HP as [|? ? Py Pl]; subst.
    destruct (behind x y) eqn:Hxy.
    + constructor; [apply IH; assumption|].
      apply List.Forall_forall. intros z Hz.
      apply (Permutation_in _ (Permutation_sym (insert_when_perm x l))) in Hz.
      destruct Hz as [<-|Hz].
      * destruct (Htotal x y Px Py) as [H|H]; [congruence | exact H].
      * rewrite List.Forall_forall in Hy. apply Hy, Hz.
    + constructor; [exact Hs|]. constructor; [exact Hxy|].
      rewrite List.Forall_forall in Hy, Pl |- *. intros z Hz.
      apply (Htrans x y z Px Py (Pl z Hz) Hxy), Hy, Hz.
Qed.

Lemma sort_when_sorted (l : list A) :
  Forall P l -> StronglySorted (fun a b => behind a b = false) (sort_when behind l).
Proof.
  induction l as [|x l IH]; intros HP; simpl; [constructor|].
  inversion HP as [|? ? Px Pl]; subst.
  apply insert_when_sorted; [exact Px | | apply IH, Pl].
  apply List.Forall_forall. intros z Hz.
  apply (proj1 (sort_when_In l z)) in Hz.
  rewrite List.Forall_forall in Pl. apply Pl, Hz.
Qed.

End SortFacts.

Lemma sorted_weaken {A} (R S : A -> A -> Prop) (l : list A) :
  (forall a b, R a b -> S a b) -> StronglySorted R l -> StronglySorted S l.
Proof.
  intros HRS. induction 1 as [|x l Hl IH Hx]; constructor; [exact IH|].
  eapply List.Forall_impl; [|exact Hx]. intros b. apply HRS.
Qed.

Section SortQ.
Import Js JsArray.
Local Open Scope Q_scope.
Context {A : Type} (compare : A -> A -> Q).

Lemma sort_perm (l : list A) : Permutation l (sort compare l).
Proof. apply sort_when_perm. Qed.

Lemma sort_In (l : list A) (x : A) : In x (sort compare l) <-> In x l.
Proof. apply sort_when_In. Qed.

Lemma sort_length (l : list A) : length (sort compare l) = length l.
Proof. symmetry. apply Permutation_length, sort_perm. Qed.

Lemma sort_sorted (l : list A) :
  consistent compare ->
  StronglySorted (fun a b => compare a b <= 0) (sort compare l).
Proof.
  intros [Htotal Htrans].
  apply (sorted_weaken (fun a b => Qltb 0 (compare a b) = false)).
  { intros a b H. apply Qltb_ge, H. }
  apply (sort_when_sorted _ (fun _ => True)).
  - split.
    + intros a b _ _. rewrite !Qltb_ge. apply Htotal.
    + intros a b c _ _ _. rewrite !Qltb_ge. apply Htrans.
  - apply List.Forall_forall. trivial.
Qed.

End SortQ.

Section TopOfSorted.
Context {A : Type} (R : A -> A -> Prop).

(** In a sorted list everything in a prefix stands in the order to
    everything behind it. *)
Lemma sorted_prefix_first (n : nat) (l : list A) (a b : A) :
  StronglySorted R l -> In a (firstn n l) -> In b (skipn n l) -> R a b.
Proof.
  revert n. induction l as [|x l IH]; intros n Hs Ha Hb.
  - rewrite List.firstn_nil in Ha. contradiction.
  - destruct n as [|n]; [contradiction|]. simpl in Ha, Hb.
    inversion Hs as [|? ? Hl Hx]; subst. destruct Ha as [<-|Ha].
    + rewrite List.Forall_forall in Hx. apply Hx.
      rewrite <- (List.firstn_skipn n l). apply List.in_or_app. auto.
    + apply (IH n); assumption.
Qed.

Lemma sorted_firstn (n : nat) (l : list A) :
  StronglySorted R l -> StronglySorted R (firstn n l).
Proof.
  revert n. induction l as [|x l IH]; intros n Hs.
  - rewrite List.firstn_nil. constructor.
  - destruct n as [|n]; [constructor|]. simpl.
    inversion Hs as [|? ? Hl Hx]; subst. constructor; [apply IH, Hl|].
    rewrite List.Forall_forall in Hx |- *. intros z Hz. apply Hx.
    rewrite <- (List.firstn_skipn n l). apply List.in_or_app. auto.
Qed.

End TopOfSorted.

Section KeyOrder.
Import JsArray.
Local Open Scope Q_scope.

(** [(a, b) => key(b) - key(a)] orders consistently: largest key first. *)
Lemma descending_consistent {A} (key : A -> Q) :
  consistent (fun a b => key b - key a).
Proof.
  split.
  - intros a b. cbv beta.
    destruct (Qlt_le_dec (key a) (key b)) as [H|H]; [right | left]; Lqa.lra.
  - intros a b c Hab Hbc. cbv beta in *. Lqa.lra.
Qed.

Lemma descending_le {A} (key : A -> Q) (a b : A) :
  key b - key a <= 0 <-> key b <= key a.
Proof. split; intros H; Lqa.lra. Qed.

End KeyOrder.

(** ** Confidence tiers *)

Section ConfidenceTiers.
Import Js Signals.
Local Open Scope Q_scope.

Ltac bool_facts :=
  repeat match goal with
  | H : (_ <= _)%nat |- _ => apply Nat.leb_le in H
  | H : (_ < _)%nat |- _ => apply Nat.leb_gt in H
  | H : (_ < _)%Q |- _ => apply Qltb_lt in H
  | H : (_ <= _)%Q |- _ => apply Qltb_ge in H
  end.

(** The daemon applies the table of the specification. *)
Lemma daemon_tier_table n s : tier_table_at daemon_tier n s.
Proof.
  unfold tier_table_at, daemon_tier, confidence. repeat split.
  - intros H. bool_facts. rewrite H. reflexivity.
  - intros H3 [H2|Hs]; bool_facts; rewrite H3.
    + rewrite H2. reflexivity.
    + rewrite Hs, orb_true_r. reflexivity.
  - intros H2 Hs Hl. assert (n < 3)%nat as H3 by lia. bool_facts.
    rewrite H3, H2, Hs, Hl. reflexivity.
  - intros H2 Hs. assert (n < 3)%nat as H3 by lia.
    assert (s <= 50000) as Hm by (eapply Qle_trans; [exact Hs | discriminate]).
    bool_facts. rewrite H3, H2, Hm, Hs. reflexivity.
Qed.

(** The endpoint applies a table of its own. *)
Lemma endpoint_tier_table n s : endpoint_table_at endpoint_tier n s.
Proof.
  unfold endpoint_table_at, endpoint_tier, endpoint_confidence. repeat split.
  - intros H. bool_facts. rewrite H. reflexivity.
  - intros H2 Hs. bool_facts. rewrite H2, Hs. reflexivity.
  - intros H2 Hs. bool_facts. rewrite H2, Hs. reflexivity.
Qed.

(** What the daemon emits for a group carries the tier of the table; a
    group the table drops gives no signal. *)
Lemma signal_of_tier stamp now existing kg sg :
  signal_of stamp now existing kg = Some sg ->
  daemon_tier (traderCount (snd kg)) (totalSize (snd kg)) = Some (s_confidence sg).
Proof.
  unfold signal_of. cbv zeta.
  destruct (Qltb (totalSize (snd kg)) minPositionSize); [discriminate|].
  destruct (daemon_tier _ _) as [c|] eqn:Ht; [|discriminate].
  destruct (List.find _ existing); [discriminate|]. intros [= <-]. simpl.
  unfold daemon_tier in Ht. cbv zeta in Ht.
  destruct (Qltb _ low); congruence.
Qed.

Lemma signal_of_dropped stamp now existing kg :
  daemon_tier (traderCount (snd kg)) (totalSize (snd kg)) = None ->
  signal_of stamp now existing kg = None.
Proof.
  unfold signal_of. cbv zeta. intros ->.
  destruct (Qltb _ minPositionSize); reflexivity.
Qed.

(** The endpoint emits every group of total size 5000 or more, with its
    own confidence. *)
Lemma endpoint_signal_of_tier now kg :
  5000 <= totalSize (snd kg) ->
  exists sg, endpoint_signal_of now kg = Some sg /\
    endpoint_tier (traderCount (snd kg)) (totalSize (snd kg)) =
      Some (s_confidence sg).
Proof.
  intros H. apply Qltb_ge in H. unfold endpoint_signal_of. cbv zeta. rewrite H.
  eexists. split; reflexivity.
Qed.

(** The daemon's loop body on a group that passes the size floor and has
    no recent signal: the table of the specification. *)
Lemma signal_of_by_table stamp now existing kg :
  5000 <= totalSize (snd kg) ->
  List.find (same_recent now (snd kg)) existing = None ->
  emits_by_table (signal_of stamp now existing) kg.
Proof.
  intros Hsize Hfind. apply Qltb_ge in Hsize.
  destruct (daemon_tier_table (traderCount (snd kg)) (totalSize (snd kg)))
    as (T3 & T2 & T1 & T0).
  unfold emits_by_table, signal_of. cbv zeta.
  change minPositionSize with 5000. rewrite Hsize, Hfind.
  assert (forall c,
            daemon_tier (traderCount (snd kg)) (totalSize (snd kg)) = Some c ->
            confidence (traderCount (snd kg)) (totalSize (snd kg)) = c) as Hc.
  { intros c. unfold daemon_tier. cbv zeta.
    destruct (Qltb _ low); congruence. }
  repeat split.
  - intros H. rewrite (T3 H). eexists. split; [reflexivity|]. apply Hc, T3, H.
  - intros H3 H2. rewrite (T2 H3 H2). eexists. split; [reflexivity|].
    apply Hc, T2; assumption.
  - intros H2 Hm Hl. rewrite (T1 H2 Hm Hl). eexists. split; [reflexivity|].
    apply Hc, T1; assumption.
  - intros H2 Hl. rewrite (T0 H2 Hl). reflexivity.
Qed.

Lemma endpoint_signal_of_by_table now kg :
  5000 <= totalSize (snd kg) ->
  emits_by_endpoint_table (endpoint_signal_of now) kg.
Proof.
  intros Hsize. apply Qltb_ge in Hsize.
  destruct (endpoint_tier_table (traderCount (snd kg)) (totalSize (snd kg)))
    as (T2 & T1 & T0).
  unfold endpoint_tier in T2, T1, T0.
  unfold emits_by_endpoint_table, endpoint_signal_of. cbv zeta. rewrite Hsize.
  repeat split.
  - intros H. eexists. split; [reflexivity|]. simpl.
    specialize (T2 H). congruence.
  - intros H2 Hs. eexists. split; [reflexivity|]. simpl.
    specialize (T1 H2 Hs). congruence.
  - intros H2 Hs. eexists. split; [reflexivity|]. simpl.
    specialize (T0 H2 Hs). congruence.
Qed.

(** C5, as the code has it.  The signals of a run of the daemon's
    [generateSignals] are those its loop body makes of the groups, and the
    signals the endpoint answers with are among those its own loop body
    makes.  Both bodies first drop a group whose total size is below
    5000, whatever its trader count.  Of a group of 5000 or more the
    daemon makes no signal when a stored signal younger than 24 hours has
    its [conditionId] and [outcome]; otherwise it follows the table of the
    specification: high with three or more traders, medium with two
    traders or a total size above 50000, low with a total size above
    10000, no signal otherwise.  Of a group of 5000 or more the endpoint
    always makes a signal, by a table of its own: high with two or more
    traders, else medium above 50000, else low. *)
Theorem confidence_tiers (stamp : Z -> string) (now : Z)
    (existingSignals : list Signal) (kg : string * Group) :
  (forall allPositions file sg,
     In sg (fst (generateSignals stamp now allPositions file)) <->
     exists kg', In kg' (group_positions allPositions) /\
                 signal_of stamp now (loadSignals file) kg' = Some sg) /\
  (forall allPositions sg,
     In sg (SignalFeed.endpoint now allPositions) ->
     exists kg', In kg' (group_positions allPositions) /\
                 endpoint_signal_of now kg' = Some sg) /\
  (totalSize (snd kg) < 5000 ->
     signal_of stamp now existingSignals kg = None /\
     endpoint_signal_of now kg = None) /\
  (List.find (same_recent now (snd kg)) existingSignals <> None ->
     signal_of stamp now existingSignals kg = None) /\
  (5000 <= totalSize (snd kg) ->
     (List.find (same_recent now (snd kg)) existingSignals = None ->
      emits_by_table (signal_of stamp now existingSignals) kg) /\
     emits_by_endpoint_table (endpoint_signal_of now) kg).
Proof.
  split; [|split; [|split; [|split]]].
  - intros allPositions file sg. unfold generateSignals, new_signals. simpl.
    rewrite <- list_elem_of_In, list_elem_of_omap. split.
    + intros (kg' & Hin & Hs). exists kg'. rewrite <- list_elem_of_In. auto.
    + intros (kg' & Hin & Hs). exists kg'. rewrite list_elem_of_In. auto.
  - intros allPositions sg Hin. unfold SignalFeed.endpoint in Hin.
    apply In_firstn in Hin. apply sort_In in Hin.
    apply list_elem_of_In, list_elem_of_omap in Hin as (kg' & Hin & Hs).
    exists kg'. rewrite <- list_elem_of_In. auto.
  - intros Hsmall. apply Qltb_lt in Hsmall.
    unfold signal_of, endpoint_signal_of. cbv zeta.
    change minPositionSize with 5000. rewrite Hsmall. split; reflexivity.
  - intros Hrecent. unfold signal_of. cbv zeta.
    destruct (Qltb _ minPositionSize); [reflexivity|].
    destruct (daemon_tier _ _); [|reflexivity].
    destruct (List.find _ existingSignals); [reflexivity | contradiction].
  - intros Hsize. split.
    + intros Hfind. apply signal_of_by_table; assumption.
    + apply endpoint_signal_of_by_table, Hsize.
Qed.

Lemma confidence_tiers_witness :
  (exists sg, signal_of (fun _ => ""%string) 0 [] Samples.pair_group = Some sg /\
              s_confidence sg = medium) /\
  (exists sg, endpoint_signal_of 0 Samples.pair_group = Some sg /\
              s_confidence sg = high).
Proof.
  assert (traderCount (snd Samples.pair_group) = 2%nat) as Hn
    by (vm_compute; reflexivity).
  assert (5000 <= totalSize (snd Samples.pair_group)) as Hsize
    by (vm_compute; discriminate).
  destruct (confidence_tiers (fun _ => ""%string) 0 [] Samples.pair_group)
    as (_ & _ & _ & _ & Htable).
  destruct (Htable Hsize) as [Hdaemon Hendpoint]. split.
  - apply (Hdaemon eq_refl); rewrite Hn; [lia | left; lia].
  - apply Hendpoint. rewrite Hn. lia.
Defined.

(** The table of the specification is not what every code path does.  The
    endpoint rates the group of the two sample positions, two traders and
    55000 in total, high, where the table says medium; and the daemon makes
    no signal of three traders holding 3000 in total, whom the table
    rates high. *)
Lemma tier_table_not_applied :
  ~ emits_by_table (endpoint_signal_of 0) Samples.pair_group /\
  ~ emits_by_table (signal_of (fun _ => ""%string) 0 []) Samples.trio_group.
Proof.
  split.
  - intros (_ & H & _).
    assert (traderCount (snd Samples.pair_group) = 2%nat) as Hn
      by (vm_compute; reflexivity).
    cbv zeta in H. rewrite Hn in H.
    destruct H as (sg & Hsg & Hc); [lia | left; lia |].
    vm_compute in Hsg. injection Hsg as <-. vm_compute in Hc. discriminate Hc.
  - intros (H & _).
    assert (traderCount (snd Samples.trio_group) = 3%nat) as Hn
      by (vm_compute; reflexivity).
    cbv zeta in H. rewrite Hn in H.
    destruct H as (sg & Hsg & _); [lia|].
    vm_compute in Hsg. discriminate Hsg.
Qed.

(** The sample groups are the ones the grouping loop makes. *)
Example sample_groups :
  group_positions Samples.agreeing = [Samples.pair_group] /\
  group_positions Samples.trio = [Samples.trio_group].
Proof. vm_compute. split; reflexivity. Qed.

(** Two traders and 55000 in total: medium by the table, high at the
    endpoint. *)
Lemma endpoint_two_traders_high :
  ~ tier_table_at endpoint_tier 2 55000.
Proof.
  intros (_ & H & _).
  assert (endpoint_tier 2 55000 = Some medium) as E by (apply H; [lia | left; lia]).
  vm_compute in E. discriminate E.
Qed.

(** The same boundary on positions: the daemon's group of the two sample
    positions is rated medium, the endpoint's high. *)
Example agreeing_group :
  List.map (fun kg => (traderCount (snd kg), totalSize (snd kg)))
    (group_positions Samples.agreeing) = [(2%nat, 55000)] /\
  List.map s_confidence
    (omap (signal_of (fun _ => ""%string) 0 []) (group_positions Samples.agreeing))
    = [medium] /\
  List.map s_confidence
    (omap (endpoint_signal_of 0) (group_positions Samples.agreeing)) = [high].
Proof. vm_compute. repeat split; reflexivity. Qed.

End ConfidenceTiers.

(** ** Bounded histories *)

Section Histories.
Import Js Signals.

Lemma saveSignals_length signals :
  (length (loadSignals (saveSignals signals)) <= 500)%nat.
Proof. simpl. apply List.firstn_le_length. Qed.

Lemma saveActivity_length activity :
  (length (WhaleWatcher.loadActivity (WhaleWatcher.saveActivity activity)) <= 1000)%nat.
Proof. simpl. apply List.firstn_le_length. Qed.

(** New trades go in front of the history, newest first. *)
Lemma unshift_all {A} (newTrades allActivity : list A) :
  fold_left (fun all trade => trade :: all) newTrades allActivity =
    rev newTrades ++ allActivity.
Proof.
  revert allActivity. induction newTrades as [|t l IH]; intros acc; simpl.
  - reflexivity.
  - rewrite IH, <- List.app_assoc. reflexivity.
Qed.

(** The polling loop only adds to the front of the history. *)
Lemma poll_all_front cfg responses (traders : list WhaleWatcher.Whale) st all :
  exists fresh,
    snd (fold_left (WhaleWatcher.poll cfg responses) traders (st, all)) =
      fresh ++ all.
Proof.
  revert st all. induction traders as [|trader traders IH]; intros st all.
  - exists []. reflexivity.
  - simpl. destruct (WhaleWatcher.checkTraderActivity _ _ _ _) as [newTrades st'].
    rewrite unshift_all.
    destruct (IH st' (rev newTrades ++ all)) as (fresh & ->).
    exists (fresh ++ rev newTrades). rewrite <- List.app_assoc. reflexivity.
Qed.

(** What [runOnce] writes is the first 1000 entries of the trades of this
    run followed by the history it loaded; it writes nothing only when the
    update of the watchlist was due and threw. *)
Lemma runOnce_history cfg updateWatchlist random responses stateFile activityFile :
  match WhaleWatcher.runOnce cfg updateWatchlist random responses
          stateFile activityFile with
  | Some (_, saved) =>
      exists fresh,
        saved = Some (firstn 1000 (fresh ++ WhaleWatcher.loadActivity activityFile))
  | None =>
      WhaleWatcher.update_due (WhaleWatcher.loadState stateFile) random = true /\
      updateWatchlist (WhaleWatcher.loadState stateFile) = None
  end.
Proof.
  unfold WhaleWatcher.runOnce. cbv zeta.
  destruct (WhaleWatcher.update_due (WhaleWatcher.loadState stateFile) random) eqn:Hdue.
  - destruct (updateWatchlist (WhaleWatcher.loadState stateFile)) as [state|] eqn:Hup;
      [|split; reflexivity].
    destruct (poll_all_front cfg responses (WhaleWatcher.watchlist state) state
                (WhaleWatcher.loadActivity activityFile)) as (fresh & Hfresh).
    destruct (fold_left _ _ _) as [st all]. simpl in *.
    exists fresh. rewrite Hfresh. reflexivity.
  - destruct (poll_all_front cfg responses
                (WhaleWatcher.watchlist (WhaleWatcher.loadState stateFile))
                (WhaleWatcher.loadState stateFile)
                (WhaleWatcher.loadActivity activityFile)) as (fresh & Hfresh).
    destruct (fold_left _ _ _) as [st all]. simpl in *.
    exists fresh. rewrite Hfresh. reflexivity.
Qed.

(** C9: what [saveSignals] writes is the first 500 entries of the list it
    is given, and [saveActivity] the first 1000; [generateSignals] hands
    [saveSignals] the new signals followed by the ones it loaded and
    [runOnce], whenever it saves, hands [saveActivity] the new trades
    followed by the ones it loaded, so the files hold the most recent
    entries, and a run of [generateSignals] that starts from a saved file
    decides on suppression from those 500 entries alone.  A run of
    [runOnce] saves nothing only when the update of the watchlist was due
    and threw. *)
Theorem histories_bounded :
  (forall signals,
     loadSignals (saveSignals signals) = firstn 500 signals /\
     (length (loadSignals (saveSignals signals)) <= 500)%nat) /\
  (forall activity,
     WhaleWatcher.loadActivity (WhaleWatcher.saveActivity activity) =
       firstn 1000 activity /\
     (length (WhaleWatcher.loadActivity (WhaleWatcher.saveActivity activity))
        <= 1000)%nat) /\
  (forall stamp now allPositions file,
     let run := generateSignals stamp now allPositions file in
     loadSignals (snd run) = firstn 500 (fst run ++ loadSignals file) /\
     fst run = new_signals stamp now (loadSignals file) allPositions) /\
  (forall stamp now allPositions signals,
     fst (generateSignals stamp now allPositions (saveSignals signals)) =
       new_signals stamp now (firstn 500 signals) allPositions /\
     (length (firstn 500 signals) <= 500)%nat) /\
  (forall cfg updateWatchlist random responses stateFile activityFile,
     match WhaleWatcher.runOnce cfg updateWatchlist random responses
             stateFile activityFile with
     | Some (_, saved) =>
         exists fresh,
           saved =
             Some (firstn 1000 (fresh ++ WhaleWatcher.loadActivity activityFile))
     | None =>
         WhaleWatcher.update_due (WhaleWatcher.loadState stateFile) random = true /\
         updateWatchlist (WhaleWatcher.loadState stateFile) = None
     end).
Proof.
  split; [|split; [|split; [|split]]].
  - intros signals. split; [reflexivity | apply saveSignals_length].
  - intros activity. split; [reflexivity | apply saveActivity_length].
  - intros stamp now allPositions file. cbv zeta. split; reflexivity.
  - intros stamp now allPositions signals.
    split; [reflexivity | apply List.firstn_le_length].
  - apply runOnce_history.
Qed.

End Histories.

(** ** Time values *)

Section TimeValues.
Import Js Activity.
Local Open Scope Z_scope.

Lemma le_Num (a : num) (w : Z) :
  le a (Num w) = true <-> exists z, a = Num z /\ z <= w.
Proof.
  destruct a as [z|]; simpl.
  - rewrite Z.leb_le. split; [eauto | intros (z' & [= <-] & H); exact H].
  - split; [discriminate | intros (z & [=] & _)].
Qed.

(** On a time that parsed, "not at or before" and "strictly after" are the
    same test; on [NaN] the first holds and the second does not. *)
Lemma kept_newer_and_large (minTradeSize : Q) (w z : Z) (trade : Trade) :
  kept minTradeSize w (Num z) trade = newer_and_large minTradeSize w (Num z) trade.
Proof.
  unfold kept, newer_and_large, Qltb. simpl.
  rewrite negb_involutive, Z.ltb_antisym. reflexivity.
Qed.

Lemma kept_NaN (minTradeSize : Q) (w : Z) (trade : Trade) :
  kept minTradeSize w NaN trade = Qle_bool minTradeSize (sizeOf trade) /\
  newer_and_large minTradeSize w NaN trade = false.
Proof.
  unfold kept, newer_and_large, Qltb. simpl.
  rewrite negb_involutive. split; reflexivity.
Qed.

Lemma kept_not_old (minTradeSize : Q) (w : Z) (t : num) (trade : Trade) :
  kept minTradeSize w t trade = true ->
  le t (Num w) = false /\ (minTradeSize <= sizeOf trade)%Q.
Proof.
  unfold kept. rewrite andb_true_iff, !negb_true_iff, Qltb_ge. tauto.
Qed.

Lemma max2_fold (rest : list num) (a : Z) :
  Forall (fun x => x <> NaN) rest ->
  exists z, fold_left max2 rest (Num a) = Num z /\ a <= z /\
    (forall y, In (Num y) rest -> y <= z) /\
    (z = a \/ In (Num z) rest).
Proof.
  revert a. induction rest as [|x rest IH]; intros a Hp; simpl.
  - exists a. repeat split; [lia | contradiction | auto].
  - inversion Hp as [|? ? Hx Hrest]; subst.
    destruct x as [b|]; [|congruence]. simpl.
    destruct (IH (Z.max a b) Hrest) as (z & Hz & Hge & Hub & Hmem).
    exists z. split; [exact Hz|]. split; [lia|]. split.
    + intros y [[= ->]|Hy]; [lia | apply Hub, Hy].
    + destruct Hmem as [->|Hmem]; [|auto].
      destruct (Z.max_spec a b) as [[_ ->]|[_ ->]]; auto.
Qed.

(** [Math.max] over a page whose times all parsed is the largest of them. *)
Lemma max_of_maximum (first : num) (rest : list num) :
  Forall (fun x => x <> NaN) (first :: rest) ->
  exists z, max_of first rest = Num z /\ page_maximum (first :: rest) z.
Proof.
  intros Hp. inversion Hp as [|? ? Hf Hrest]; subst.
  destruct first as [a|]; [|congruence]. unfold max_of.
  destruct (max2_fold rest a Hrest) as (z & Hz & Hge & Hub & Hmem).
  exists z. split; [exact Hz|]. split.
  - destruct Hmem as [->|Hmem]; [left; reflexivity | right; exact Hmem].
  - intros y [[= ->]|Hy]; [exact Hge | apply Hub, Hy].
Qed.

(** One unparseable time makes the maximum [NaN]. *)
Lemma max_of_NaN (first : num) (rest : list num) :
  In NaN (first :: rest) -> max_of first rest = NaN.
Proof.
  unfold max_of. revert first. induction rest as [|x rest IH]; intros first.
  - intros [->|[]]. reflexivity.
  - simpl. intros [->|[->|H]].
    + apply IH. left. reflexivity.
    + apply IH. left. destruct first; reflexivity.
    + apply IH. right. exact H.
Qed.

End TimeValues.

(** ** The tracking step *)

Section Tracking.
Import Js Activity.
Local Open Scope Z_scope.

(** The loop returns, in order, the alerts of the records that get past
    both [continue]s. *)
Lemma whale_scan_filter cfg trader w activity :
  WhaleWatcher.scan cfg trader w activity =
    List.map (WhaleWatcher.alert_of trader)
      (List.filter
         (fun t => kept (WhaleWatcher.minTradeSize cfg) w (WhaleWatcher.tradeTime t) t)
         activity).
Proof.
  induction activity as [|trade rest IH]; simpl; [reflexivity|]. unfold kept.
  destruct (le (WhaleWatcher.tradeTime trade) (Num w)); simpl; [exact IH|].
  destruct (Qltb (sizeOf trade) (WhaleWatcher.minTradeSize cfg)); simpl;
    [exact IH | rewrite IH; reflexivity].
Qed.

Lemma cloud_scan_filter cfg trader w activity :
  CloudWatcher.scan cfg trader w activity =
    List.map (CloudWatcher.alert_of trader)
      (List.filter
         (fun t => kept (CloudWatcher.minTradeSize cfg) w (CloudWatcher.tradeTime t) t)
         activity).
Proof.
  induction activity as [|trade rest IH]; simpl; [reflexivity|]. unfold kept.
  destruct (le (CloudWatcher.tradeTime trade) (Num w)); simpl; [exact IH|].
  destruct (Qltb (sizeOf trade) (CloudWatcher.minTradeSize cfg)); simpl;
    [exact IH | rewrite IH; reflexivity].
Qed.

Lemma filter_kept_parsed (time : Trade -> num) (minTradeSize : Q) (w : Z)
    (activity : list Trade) :
  Forall (fun t => time t <> NaN) activity ->
  List.filter (fun t => kept minTradeSize w (time t) t) activity =
  List.filter (fun t => newer_and_large minTradeSize w (time t) t) activity.
Proof.
  intros Hp. apply List.filter_ext_in. intros t Ht.
  rewrite List.Forall_forall in Hp. specialize (Hp t Ht).
  destruct (time t) as [z|]; [apply kept_newer_and_large | congruence].
Qed.

(** A non-empty page runs the body to its end: the loop, then the one
    write to the state. *)
Lemma whale_check_page cfg trader st first rest :
  WhaleWatcher.checkTraderActivity cfg (Page (first :: rest)) trader st =
    (WhaleWatcher.scan cfg trader
       (WhaleWatcher.watermark st (WhaleWatcher.wallet trader)) (first :: rest),
     {| WhaleWatcher.lastSeen :=
          <[WhaleWatcher.wallet trader :=
              max_of (WhaleWatcher.tradeTime first)
                (List.map WhaleWatcher.tradeTime rest)]> (WhaleWatcher.lastSeen st);
        WhaleWatcher.watchlist := WhaleWatcher.watchlist st |}).
Proof. reflexivity. Qed.

Lemma cloud_check_page cfg now trader st first rest :
  CloudWatcher.checkTraderActivity cfg now (Page (first :: rest)) trader st =
    (CloudWatcher.scan cfg trader
       (CloudWatcher.watermark now st (CloudWatcher.wallet trader)) (first :: rest),
     {| CloudWatcher.lastSeen :=
          <[CloudWatcher.wallet trader :=
              max_of (CloudWatcher.tradeTime first)
                (List.map CloudWatcher.tradeTime rest)]> (CloudWatcher.lastSeen st);
        CloudWatcher.watchlist := CloudWatcher.watchlist st;
        CloudWatcher.initialized := CloudWatcher.initialized st |}).
Proof. reflexivity. Qed.

(** When every timestamp of the page parses, the records returned are
    exactly those strictly newer than the watermark and of at least the
    minimum size. *)
Lemma whale_scan_exact cfg trader w activity :
  Forall (fun t => WhaleWatcher.tradeTime t <> NaN) activity ->
  WhaleWatcher.scan cfg trader w activity =
    List.map (WhaleWatcher.alert_of trader)
      (List.filter
         (fun t => newer_and_large (WhaleWatcher.minTradeSize cfg) w
                     (WhaleWatcher.tradeTime t) t)
         activity).
Proof.
  intros Hp. rewrite whale_scan_filter, (filter_kept_parsed _ _ _ _ Hp). reflexivity.
Qed.

Lemma cloud_scan_exact cfg trader w activity :
  Forall (fun t => CloudWatcher.tradeTime t <> NaN) activity ->
  CloudWatcher.scan cfg trader w activity =
    List.map (CloudWatcher.alert_of trader)
      (List.filter
         (fun t => newer_and_large (CloudWatcher.minTradeSize cfg) w
                     (CloudWatcher.tradeTime t) t)
         activity).
Proof.
  intros Hp. rewrite cloud_scan_filter, (filter_kept_parsed _ _ _ _ Hp). reflexivity.
Qed.

(** No record at or before the watermark is ever returned, parsed or not. *)
Lemma whale_scan_not_old cfg trader w activity :
  Forall (fun a => le (getTime (WhaleWatcher.a_timestamp a)) (Num w) = false /\
                   (WhaleWatcher.minTradeSize cfg <= WhaleWatcher.a_size a)%Q)
    (WhaleWatcher.scan cfg trader w activity).
Proof.
  rewrite whale_scan_filter. apply List.Forall_forall. intros a Ha.
  apply List.in_map_iff in Ha as (t & <- & Ht).
  apply List.filter_In in Ht as [_ Ht]. apply kept_not_old in Ht. exact Ht.
Qed.

Lemma cloud_scan_not_old cfg trader w activity :
  Forall (fun a => le (CloudWatcher.normalise (CloudWatcher.a_timestamp a)) (Num w) = false /\
                   (CloudWatcher.minTradeSize cfg <= CloudWatcher.a_size a)%Q)
    (CloudWatcher.scan cfg trader w activity).
Proof.
  rewrite cloud_scan_filter. apply List.Forall_forall. intros a Ha.
  apply List.in_map_iff in Ha as (t & <- & Ht).
  apply List.filter_In in Ht as [_ Ht]. apply kept_not_old in Ht. exact Ht.
Qed.

(** C3 at a record whose timestamp does not parse: [NaN <= lastSeen] is
    false, the first [continue] does not fire, and the record is returned
    as a new trade although its time is not greater than the watermark.
    Both watchers behave alike. *)
Theorem unparseable_timestamp_returned :
  WhaleWatcher.tradeTime Samples.undated = NaN /\
  fst (WhaleWatcher.checkTraderActivity WhaleWatcher.CONFIG
         (Page [Samples.undated]) Samples.whale Samples.seen)
    = [WhaleWatcher.alert_of Samples.whale Samples.undated] /\
  List.filter
    (fun t => newer_and_large 10000
                (WhaleWatcher.watermark Samples.seen "0xaa")
                (WhaleWatcher.tradeTime t) t)
    [Samples.undated] = [] /\
  fst (CloudWatcher.checkTraderActivity CloudWatcher.CONFIG 2000000
         (Page [Samples.undated]) Samples.cloud_whale Samples.cloud_seen)
    = [CloudWatcher.alert_of Samples.cloud_whale Samples.undated] /\
  List.filter
    (fun t => newer_and_large 10000
                (CloudWatcher.watermark 2000000 Samples.cloud_seen "0xaa")
                (CloudWatcher.tradeTime t) t)
    [Samples.undated] = [].
Proof. vm_compute. repeat split; reflexivity. Qed.

(** The worked example of the specification: watermark 1000000, three
    records, minimum size 10000. *)
Example tracking_sample :
  let run := WhaleWatcher.checkTraderActivity WhaleWatcher.CONFIG
               (Page [Samples.old_large; Samples.recent_small; Samples.recent_large])
               Samples.whale Samples.seen in
  fst run = [WhaleWatcher.alert_of Samples.whale Samples.recent_large] /\
  WhaleWatcher.lastSeen (snd run) !! "0xaa"%string = Some (Num 1000002).
Proof. vm_compute. split; reflexivity. Qed.

(** Closes the four facts about the entry written for the polled wallet,
    once the maximum [z] of the page is known. *)
Ltac page_maximum_facts Hmax :=
  split; [apply lookup_insert_eq|];
  split; [exact Hmax|];
  split;
  [ let y := fresh "y" in let Hy := fresh "Hy" in
    intros y Hy ?; destruct Hmax as [_ Hmax]; specialize (Hmax y Hy); lia
  | intros ? ?; apply lookup_insert_ne; congruence ].

(** C2, as the code has it: after a non-empty page whose timestamps all
    parse, the stored watermark of the wallet is the largest time of the
    page, whatever the size filter let through; it is at or above the
    watermark in force before the call as soon as one fetched record is, and
    the entries of other wallets are untouched. *)
Theorem watermark_is_page_maximum :
  (forall cfg trader st first rest,
     Forall (fun t => WhaleWatcher.tradeTime t <> NaN) (first :: rest) ->
     let st' := snd (WhaleWatcher.checkTraderActivity cfg (Page (first :: rest))
                       trader st) in
     let old := WhaleWatcher.watermark st (WhaleWatcher.wallet trader) in
     exists z,
       WhaleWatcher.lastSeen st' !! WhaleWatcher.wallet trader = Some (Num z) /\
       page_maximum (List.map WhaleWatcher.tradeTime (first :: rest)) z /\
       (forall y, In (Num y) (List.map WhaleWatcher.tradeTime (first :: rest)) ->
                  old <= y -> old <= z) /\
       (forall w, w <> WhaleWatcher.wallet trader ->
                  WhaleWatcher.lastSeen st' !! w = WhaleWatcher.lastSeen st !! w)) /\
  (forall cfg now trader st first rest,
     Forall (fun t => CloudWatcher.tradeTime t <> NaN) (first :: rest) ->
     let st' := snd (CloudWatcher.checkTraderActivity cfg now (Page (first :: rest))
                       trader st) in
     let old := CloudWatcher.watermark now st (CloudWatcher.wallet trader) in
     exists z,
       CloudWatcher.lastSeen st' !! CloudWatcher.wallet trader = Some (Num z) /\
       page_maximum (List.map CloudWatcher.tradeTime (first :: rest)) z /\
       (forall y, In (Num y) (List.map CloudWatcher.tradeTime (first :: rest)) ->
                  old <= y -> old <= z) /\
       (forall w, w <> CloudWatcher.wallet trader ->
                  CloudWatcher.lastSeen st' !! w = CloudWatcher.lastSeen st !! w)).
Proof.
  split.
  - intros cfg trader st first rest Hp. cbv zeta. rewrite whale_check_page.
    destruct (max_of_maximum (WhaleWatcher.tradeTime first)
                (List.map WhaleWatcher.tradeTime rest)) as (z & Hz & Hmax).
    { apply (List.Forall_map WhaleWatcher.tradeTime (fun x => x <> NaN)) in Hp.
      exact Hp. }
    exists z. simpl. rewrite Hz. page_maximum_facts Hmax.
  - intros cfg now trader st first rest Hp. cbv zeta. rewrite cloud_check_page.
    destruct (max_of_maximum (CloudWatcher.tradeTime first)
                (List.map CloudWatcher.tradeTime rest)) as (z & Hz & Hmax).
    { apply (List.Forall_map CloudWatcher.tradeTime (fun x => x <> NaN)) in Hp.
      exact Hp. }
    exists z. simpl. rewrite Hz. page_maximum_facts Hmax.
Qed.

Lemma watermark_is_page_maximum_witness :
  exists z,
    WhaleWatcher.lastSeen
      (snd (WhaleWatcher.checkTraderActivity WhaleWatcher.CONFIG
              (Page [Samples.old_large; Samples.recent_small]) Samples.whale
              Samples.seen)) !! "0xaa"%string = Some (Num z) /\
    page_maximum
      (List.map WhaleWatcher.tradeTime [Samples.old_large; Samples.recent_small]) z.
Proof.
  destruct (proj1 watermark_is_page_maximum WhaleWatcher.CONFIG Samples.whale
              Samples.seen Samples.old_large [Samples.recent_small])
    as (z & H1 & H2 & _).
  - repeat constructor; vm_compute; discriminate.
  - exists z. split; [exact H1 | exact H2].
Defined.

(** A page that only holds a record older than the watermark takes the
    watermark back to that record's time. *)
Lemma watermark_moves_back :
  ~ (WhaleWatcher.watermark Samples.seen "0xaa" <=
     WhaleWatcher.watermark
       (snd (WhaleWatcher.checkTraderActivity WhaleWatcher.CONFIG
               (Page [Samples.old_large]) Samples.whale Samples.seen)) "0xaa").
Proof. vm_compute. intros H. apply H. reflexivity. Qed.

(** The first poll of the Cloud Run watcher compares against its start-up
    time and then stores the newest time of the page, which lies before
    it. *)
Example cloud_first_poll :
  let st := CloudWatcher.loadState 2000000 None in
  let run := CloudWatcher.checkTraderActivity CloudWatcher.CONFIG 2000500
               (Page [Samples.trade_at (TOther (Num 1999000)) 20000])
               Samples.cloud_whale st in
  CloudWatcher.watermark 2000500 st "0xaa" = 2000000 /\
  fst run = [] /\
  CloudWatcher.watermark 2000900 (snd run) "0xaa" = 1999000.
Proof. vm_compute. repeat split; reflexivity. Qed.

(** C10: when the fetch throws, or comes back with nothing or with an empty
    list, both watchers return no new trade and the state they were given,
    last-seen entries included. *)
Theorem failed_fetch_leaves_state
    (response : fetched)
    (cfg : WhaleWatcher.Config) (trader : WhaleWatcher.Whale)
    (st : WhaleWatcher.State)
    (ccfg : CloudWatcher.Config) (now : Z) (ctrader : CloudWatcher.Whale)
    (cst : CloudWatcher.State) :
  response = Throws \/ response = Absent \/ response = Page [] ->
  WhaleWatcher.checkTraderActivity cfg response trader st = ([], st) /\
  CloudWatcher.checkTraderActivity ccfg now response ctrader cst = ([], cst).
Proof. intros [->|[->| ->]]; split; reflexivity. Qed.

Lemma failed_fetch_leaves_state_witness :
  WhaleWatcher.checkTraderActivity WhaleWatcher.CONFIG Throws Samples.whale
    Samples.seen = ([], Samples.seen) /\
  CloudWatcher.checkTraderActivity CloudWatcher.CONFIG 2000000 Throws
    Samples.cloud_whale Samples.cloud_seen = ([], Samples.cloud_seen).
Proof.
  apply (failed_fetch_leaves_state Throws). left. reflexivity.
Defined.

(** C7, as the code has it: in the Cloud Run watcher a wallet with no
    stored entry is compared against the state's [initialized] time, which
    [loadState] sets to the clock when there is no state file, or against
    the clock itself when the state carries none; no record at or before
    that time is returned.  The plain whale watcher has no such field and
    starts every wallet at zero. *)
Theorem first_poll_watermark :
  (forall cfg later response trader st,
     CloudWatcher.lastSeen st !! CloudWatcher.wallet trader = None ->
     let seed := or_time (CloudWatcher.initialized st) later in
     CloudWatcher.watermark later st (CloudWatcher.wallet trader) = seed /\
     Forall (fun a => le (CloudWatcher.normalise (CloudWatcher.a_timestamp a))
                         (Num seed) = false)
       (fst (CloudWatcher.checkTraderActivity cfg later response trader st))) /\
  (forall now later w,
     CloudWatcher.lastSeen (CloudWatcher.loadState now None) !! w = None /\
     CloudWatcher.watermark later (CloudWatcher.loadState now None) w =
       if now =? 0 then later else now) /\
  (forall w,
     WhaleWatcher.lastSeen (WhaleWatcher.loadState None) !! w = None /\
     WhaleWatcher.watermark (WhaleWatcher.loadState None) w = 0).
Proof.
  split; [|split].
  - intros cfg later response trader st Hnone. cbv zeta.
    assert (CloudWatcher.watermark later st (CloudWatcher.wallet trader) =
            or_time (CloudWatcher.initialized st) later) as Hw.
    { unfold CloudWatcher.watermark. rewrite Hnone. reflexivity. }
    split; [exact Hw|].
    destruct response as [| |[|first rest]]; try (simpl; constructor).
    rewrite cloud_check_page, Hw. cbn [fst].
    eapply List.Forall_impl; [|apply cloud_scan_not_old].
    intros a [Ha _]. exact Ha.
  - intros now later w. split; [apply lookup_empty|].
    unfold CloudWatcher.watermark. simpl. rewrite lookup_empty. reflexivity.
  - intros w. split; [apply lookup_empty|].
    unfold WhaleWatcher.watermark. simpl. rewrite lookup_empty. reflexivity.
Qed.

Lemma first_poll_watermark_witness :
  CloudWatcher.watermark 2000500 (CloudWatcher.loadState 2000000 None) "0xaa"
    = 2000000.
Proof.
  apply (proj1 first_poll_watermark CloudWatcher.CONFIG 2000500 Absent
           Samples.cloud_whale (CloudWatcher.loadState 2000000 None)).
  vm_compute. reflexivity.
Defined.

(** The plain whale watcher, first run at time 2000000 with nothing
    stored: a large trade made before that is returned as new. *)
Lemma whale_first_poll_returns_backlog :
  ~ Forall (fun a => le (getTime (WhaleWatcher.a_timestamp a)) (Num 2000000) = false)
      (fst (WhaleWatcher.checkTraderActivity WhaleWatcher.CONFIG
              (Page [Samples.old_large]) Samples.whale
              (WhaleWatcher.loadState None))).
Proof.
  assert (fst (WhaleWatcher.checkTraderActivity WhaleWatcher.CONFIG
                 (Page [Samples.old_large]) Samples.whale
                 (WhaleWatcher.loadState None))
          = [WhaleWatcher.alert_of Samples.whale Samples.old_large]) as ->
    by (vm_compute; reflexivity).
  intros H. inversion H as [|? ? Hhead _]. vm_compute in Hhead.
  discriminate Hhead.
Qed.

End Tracking.

(** * Further properties *)

(** ** Win and loss counts *)

Section Counts.
Import Js Metrics.
Local Open Scope Q_scope.

Lemma not_win_and_loss (x : field) : gt0 x = true -> lt0 x = true -> False.
Proof.
  intros Hg Hl. apply gt0_spec in Hg as (q & -> & Hq).
  apply lt0_spec in Hl as (q' & [= <-] & Hq'). Lqa.lra.
Qed.

(** A closed position counts as a win or as a loss, never as both; one
    with a zero or missing profit counts as neither. *)
Lemma wins_losses_le (closed : list ClosedPosition) :
  (length (wins closed) + length (losses closed) <= length closed)%nat.
Proof.
  unfold wins, losses. induction closed as [|p closed IH]; simpl; [lia|].
  destruct (gt0 (realizedPnl p)) eqn:Hg, (lt0 (realizedPnl p)) eqn:Hl; simpl;
    try lia.
  exfalso. exact (not_win_and_loss _ Hg Hl).
Qed.

Lemma losses_negative closed : Forall (fun p => amount p < 0) (losses closed).
Proof.
  apply List.Forall_forall. intros p Hp. apply List.filter_In in Hp as [_ Hp].
  apply lt0_spec in Hp as (q & Hq & Hneg). unfold amount. rewrite Hq. exact Hneg.
Qed.

Lemma fold_amount_le (xs : list ClosedPosition) (a : Q) :
  Forall (fun p => amount p < 0) xs ->
  fold_left (fun s p => s + amount p) xs a <= a.
Proof.
  revert a. induction xs as [|p xs IH]; intros a Hneg; simpl.
  - apply Qle_refl.
  - inversion Hneg as [|? ? Hp Hxs]; subst.
    apply Qle_trans with (a + amount p); [apply IH; assumption | Lqa.lra].
Qed.

Lemma sum_losses_nonpos closed : sumPnl (losses closed) <= 0.
Proof. apply fold_amount_le, losses_negative. Qed.

(** [7/10 <= wins/n] read on the counts. *)
Lemma ratio_threshold (w n : nat) :
  (0 < n)%nat -> 7 # 10 <= ratio w n -> (7 * n <= 10 * w)%nat.
Proof.
  intros Hn H. unfold ratio in H.
  assert (0 < inject_Z (Z.of_nat n)) as Hpos.
  { change 0 with (inject_Z 0). rewrite <- Zlt_Qlt. lia. }
  assert ((7 # 10) * inject_Z (Z.of_nat n) <= inject_Z (Z.of_nat w)) as H'.
  { apply Qle_trans with
      (inject_Z (Z.of_nat w) / inject_Z (Z.of_nat n) * inject_Z (Z.of_nat n)).
    - apply Qmult_le_compat_r; [exact H | apply Qlt_le_weak, Hpos].
    - rewrite Qmult_comm, Qmult_div_r; [apply Qle_refl|].
      intros E. rewrite E in Hpos. discriminate Hpos. }
  assert (inject_Z (7 * Z.of_nat n) <= inject_Z (10 * Z.of_nat w)) as H''.
  { rewrite !inject_Z_mult. change (inject_Z 7) with 7. change (inject_Z 10) with 10.
    Lqa.lra. }
  rewrite <- Zle_Qle in H''. lia.
Qed.

End Counts.

(** ** The copy-candidates handler *)

Section ScreeningFacts.
Import Js Metrics Leaderboard Aggregator Screening.
Local Open Scope Q_scope.

Lemma round_ge (n : Z) (x : Q) : inject_Z n <= x -> (n <= round x)%Z.
Proof.
  intros H. unfold round. rewrite <- (Qfloor_Z n).
  apply Qfloor_resp_le. Lqa.lra.
Qed.

Lemma average_nonneg (total : Q) (n : nat) : 0 <= total -> (0 <= average total n)%Z.
Proof.
  intros H. unfold average. destruct n as [|n]; [lia|].
  apply round_ge. change (inject_Z 0) with 0.
  apply Qle_shift_div_l; [|Lqa.lra].
  change 0 with (inject_Z 0). rewrite <- Zlt_Qlt. lia.
Qed.

Lemma tenths_ge (x c : Q) (n : Z) :
  c <= x -> inject_Z n <= c * 1000 -> inject_Z n / 10 <= tenths_of_percent x.
Proof.
  intros Hx Hn. unfold tenths_of_percent.
  assert (n <= round (x * 1000))%Z as H by (apply round_ge; Lqa.lra).
  rewrite Zle_Qle in H. unfold Qdiv. apply Qmult_le_compat_r; [exact H|].
  discriminate.
Qed.

Lemma candidate_of_screened trader closed open c :
  qualifies 50000 trader = true ->
  candidate_of trader closed open = Some c ->
  c_wallet c = proxyWallet trader /\ well_screened c.
Proof.
  intros Hq Hc. apply qualifies_spec in Hq as [Hp Hv].
  unfold candidate_of, efficiencyOf in Hc. cbv zeta in Hc.
  destruct (pnl trader) as [p|] eqn:Ep; [|discriminate].
  destruct (vol trader) as [v|] eqn:Ev; [|simpl in Hv; discriminate Hv].
  simpl in Hp, Hv.
  destruct (Qeq_bool p 0) eqn:Ep0;
    [exfalso; apply Qeq_bool_iff in Ep0; Lqa.lra|].
  destruct (Qeq_bool v 0) eqn:Ev0;
    [exfalso; apply Qeq_bool_iff in Ev0; Lqa.lra|].
  unfold or_num in Hc. rewrite Ev0 in Hc.
  destruct ((15 <=? totalTrades closed)%nat && Qle_bool (7 # 10) (winRateOr 0 closed)
            && Qle_bool (3 # 10) (p / v)) eqn:Hpass; [|discriminate].
  apply andb_true_iff in Hpass as [Hpass He].
  apply andb_true_iff in Hpass as [Hn Hw].
  apply Nat.leb_le in Hn. apply Qle_bool_iff in Hw, He.
  injection Hc as <-. split; [reflexivity|]. unfold well_screened. simpl.
  assert (7 * totalTrades closed <= 10 * length (wins closed))%nat as Hcount.
  { unfold winRateOr in Hw. destruct (totalTrades closed) as [|n] eqn:En; [lia|].
    apply ratio_threshold in Hw; [exact Hw | lia]. }
  assert ((3 # 10) * v <= p) as Hpv.
  { apply Qle_trans with (p / v * v).
    - apply Qmult_le_compat_r; [exact He | Lqa.lra].
    - rewrite Qmult_comm, Qmult_div_r; [apply Qle_refl|]. intros E. Lqa.lra. }
  repeat split; try lia.
  - apply Qle_trans with (inject_Z 300 / 10); [discriminate|].
    apply (tenths_ge _ (3 # 10)); [exact He | discriminate].
  - apply Qle_trans with (inject_Z 700 / 10); [discriminate|].
    apply (tenths_ge _ (7 # 10)); [exact Hw | discriminate].
  - exists (round p). split; [reflexivity|]. apply round_ge.
    change (inject_Z 15000) with 15000. Lqa.lra.
  - exists (round v). split; [reflexivity|]. apply round_ge.
    change (inject_Z 50000) with 50000. Lqa.lra.
  - apply average_nonneg, totalWins_nonneg.
  - apply average_nonneg, totalLosses_nonneg.
Qed.

Lemma omap_keys {A B K} (f : A -> option B) (ka : A -> K) (kb : B -> K)
    (l : list A) :
  (forall a b, f a = Some b -> kb b = ka a) ->
  List.NoDup (List.map ka l) -> List.NoDup (List.map kb (omap f l)).
Proof.
  intros Hk. induction l as [|a l IH]; simpl; intros Hnd; [constructor|].
  apply List.NoDup_cons_iff in Hnd as [Hnotin Hnd].
  destruct (f a) as [b|] eqn:Hb; [|apply IH, Hnd]. simpl.
  constructor; [|apply IH, Hnd]. rewrite (Hk _ _ Hb). intros Hin.
  apply Hnotin. apply List.in_map_iff in Hin as (b' & Hkb & Hin).
  apply list_elem_of_In, list_elem_of_omap in Hin as (a' & Ha' & Hf).
  apply list_elem_of_In in Ha'. rewrite <- Hkb, (Hk _ _ Hf).
  apply List.in_map, Ha'.
Qed.

Lemma omap_length {A B} (f : A -> option B) (l : list A) :
  (length (omap f l) <= length l)%nat.
Proof.
  induction l as [|a l IH]; [reflexivity|].
  change (omap f (a :: l))
    with (match f a with Some b => b :: omap f l | None => omap f l end).
  destruct (f a); simpl; lia.
Qed.

(** X1: every candidate the copy-candidates handler reports has 15 closed
    trades or more, of which at least 11 and at least 70% are wins, a
    reported efficiency of 30 or more and win rate of 70 or more, a reported
    profit of 15000 or more on a volume of 50000 or more, and averages that
    are not negative. *)
Theorem handler_candidates_screened
    (sources : list (list Trader)) (fetch : string -> details) :
  Forall well_screened (handler sources fetch).
Proof.
  apply List.Forall_forall. intros c Hc. unfold handler in Hc.
  apply sort_In in Hc.
  apply list_elem_of_In, list_elem_of_omap in Hc as (trader & Ht & Hc).
  apply list_elem_of_In in Ht.
  destruct (fetch (proxyWallet trader)) as [|closed open]; [discriminate|].
  apply (candidate_of_screened trader closed open); [|exact Hc].
  unfold handler_traders in Ht. apply In_firstn in Ht.
  apply (aggregate_qualifies _ sources), Ht.
Qed.

(** X2: the handler reports at most 50 candidates, at most one per wallet,
    and lists them by reported efficiency, largest first. *)
Theorem handler_candidates_ranked
    (sources : list (list Trader)) (fetch : string -> details) :
  (length (handler sources fetch) <= 50)%nat /\
  List.NoDup (List.map c_wallet (handler sources fetch)) /\
  StronglySorted (fun a b => c_efficiency b <= c_efficiency a)
    (handler sources fetch).
Proof.
  unfold handler. split; [|split].
  - rewrite sort_length. etransitivity; [apply omap_length|].
    unfold handler_traders. apply List.firstn_le_length.
  - eapply Permutation.Permutation_NoDup; [apply Permutation_map, sort_perm|].
    apply (omap_keys _ proxyWallet c_wallet); [|apply handler_traders_spec].
    intros trader c Hc.
    destruct (fetch (proxyWallet trader)) as [|closed open]; [discriminate|].
    unfold candidate_of in Hc. cbv zeta in Hc.
    destruct (efficiencyOf trader); [|discriminate].
    destruct (_ && _); [|discriminate]. injection Hc as <-. reflexivity.
  - eapply sorted_weaken; [|apply sort_sorted, descending_consistent].
    intros a b H. apply descending_le in H. exact H.
Qed.

(** X3: the detailed-stats endpoint counts wins and losses apart, so that
    together they never exceed the closed positions; it reports a win rate
    of [null] exactly when there is neither, a win rate within [0, 1]
    otherwise, an average win that is not negative and an average loss that
    is not positive. *)
Theorem detail_of_stats (closedPositions : list ClosedPosition) :
  let d := detail_of closedPositions in
  d_totalTrades d = (d_wins d + d_losses d)%nat /\
  (d_totalTrades d <= length closedPositions)%nat /\
  (d_winRate d = None <-> d_totalTrades d = O) /\
  (forall r, d_winRate d = Some r -> 0 <= r <= 1) /\
  0 <= d_avgWin d /\ d_avgLoss d <= 0.
Proof.
  cbv zeta. unfold detail_of. simpl. split; [reflexivity|].
  split; [apply wins_losses_le|]. split; [|split; [|split]].
  - destruct (length (wins closedPositions) + length (losses closedPositions))%nat;
      split; congruence.
  - intros r Hr.
    destruct (length (wins closedPositions) + length (losses closedPositions))%nat
      as [|n] eqn:En; [discriminate|].
    injection Hr as <-. apply ratio_unit; lia.
  - destruct (length (wins closedPositions)) as [|n]; [apply Qle_refl|].
    apply Qle_shift_div_l; [change 0 with (inject_Z 0); rewrite <- Zlt_Qlt; lia|].
    rewrite Qmult_0_l. apply totalWins_nonneg.
  - destruct (length (losses closedPositions)) as [|n]; [apply Qle_refl|].
    apply Qle_shift_div_r; [change 0 with (inject_Z 0); rewrite <- Zlt_Qlt; lia|].
    rewrite Qmult_0_l. apply sum_losses_nonpos.
Qed.

End ScreeningFacts.

(** ** Grouping positions *)

Section Grouping.
Import Js Signals SignalFeed.
Local Open Scope Q_scope.

Lemma existsb_key (grouped : Grouped) (k : string) :
  existsb (fun kg => String.eqb (fst kg) k) grouped = true <->
  In k (List.map fst grouped).
Proof.
  rewrite List.existsb_exists, List.in_map_iff. split.
  - intros (kg & Hin & Hk). apply String.eqb_eq in Hk. eauto.
  - intros (kg & Hk & Hin). exists kg. split; [exact Hin|].
    apply String.eqb_eq, Hk.
Qed.

Lemma push_elsewhere (grouped : Grouped) (k : string) (pos : Position) :
  ~ In k (List.map fst grouped) ->
  List.map (fun kg => if String.eqb (fst kg) k then (fst kg, push pos (snd kg)) else kg)
    grouped = grouped.
Proof.
  intros Hk. rewrite <- (List.map_id grouped) at 2. apply List.map_ext_in.
  intros kg Hin. destruct (String.eqb (fst kg) k) eqn:E; [|reflexivity].
  exfalso. apply Hk. apply String.eqb_eq in E. subst k. apply List.in_map, Hin.
Qed.

Lemma filed_under_snoc (k : string) (l : list Position) (p : Position) :
  filed_under k (l ++ [p]) =
    filed_under k l ++ (if String.eqb (key_of p) k then [p] else []).
Proof. unfold filed_under. rewrite List.filter_app. reflexivity. Qed.

Lemma grouped_as_step (l : list Position) (grouped : Grouped) (p : Position) :
  grouped_as l grouped -> grouped_as (l ++ [p]) (add_position grouped p).
Proof.
  intros (Hnd & Hkeys & Hgroups). unfold add_position. cbv zeta.
  set (k0 := key_of p).
  set (f := fun kg : string * Group =>
              if String.eqb (fst kg) k0 then (fst kg, push p (snd kg)) else kg).
  assert (forall G : Grouped, List.map fst (List.map f G) = List.map fst G) as Hfst.
  { intros G. rewrite List.map_map. apply List.map_ext. intros kg. unfold f.
    destruct (String.eqb (fst kg) k0); reflexivity. }
  destruct (existsb (fun kg => String.eqb (fst kg) k0) grouped) eqn:Hex.
  - apply existsb_key in Hex. split; [rewrite Hfst; exact Hnd|]. split.
    + intros p' Hp'. rewrite Hfst. apply List.in_app_iff in Hp' as [Hp'|[<-|[]]];
        [apply Hkeys, Hp' | exact Hex].
    + intros k g' Hin. apply List.in_map_iff in Hin as ([k1 g] & Hf & Hin).
      destruct (Hgroups k1 g Hin) as (first & rest & Hfiled & Hpos & Hhead).
      unfold f in Hf. simpl in Hf. rewrite filed_under_snoc.
      destruct (String.eqb k1 k0) eqn:E.
      * apply String.eqb_eq in E. subst k1. injection Hf as <- <-.
        fold k0. rewrite String.eqb_refl, Hfiled.
        exists first, (rest ++ [p]). simpl. rewrite Hpos.
        repeat split; apply Hhead.
      * injection Hf as <- <-. apply String.eqb_neq in E.
        assert (String.eqb (key_of p) k1 = false) as ->
          by (apply String.eqb_neq; fold k0; congruence).
        rewrite List.app_nil_r. eauto.
  - assert (~ In k0 (List.map fst grouped)) as Hfresh.
    { intros Hin. apply existsb_key in Hin. congruence. }
    rewrite List.map_app.
    rewrite (push_elsewhere grouped k0 p Hfresh : List.map f grouped = grouped). simpl.
    unfold f at 1. simpl. rewrite String.eqb_refl. split; [|split].
    + rewrite List.map_app. simpl. apply List.NoDup_app; [exact Hnd| |].
      * repeat constructor. simpl. tauto.
      * intros k Hk [<-|[]]. exact (Hfresh Hk).
    + intros p' Hp'. rewrite List.map_app, List.in_app_iff. simpl.
      apply List.in_app_iff in Hp' as [Hp'|[<-|[]]]; [left; apply Hkeys, Hp' | auto].
    + intros k g Hin. rewrite filed_under_snoc. fold k0.
      apply List.in_app_iff in Hin as [Hin|[[= <- <-]|[]]].
      * destruct (Hgroups k g Hin) as (first & rest & Hfiled & Hpos & Hhead).
        assert (String.eqb k0 k = false) as ->.
        { apply String.eqb_neq. intros ->. apply Hfresh.
          apply (List.in_map fst) in Hin. exact Hin. }
        rewrite List.app_nil_r. eauto.
      * rewrite String.eqb_refl.
        assert (filed_under k0 l = []) as ->.
        { unfold filed_under. destruct (List.filter _ l) as [|q qs] eqn:E; [reflexivity|].
          exfalso. assert (In q (List.filter (fun p0 => String.eqb (key_of p0) k0) l))
            as Hq by (rewrite E; left; reflexivity).
          apply List.filter_In in Hq as [Hq Hk]. apply String.eqb_eq in Hk.
          apply Hfresh. rewrite <- Hk. apply Hkeys, Hq. }
        exists p, []. repeat split.
Qed.

Lemma group_positions_snoc (l : list Position) (p : Position) :
  group_positions (l ++ [p]) = add_position (group_positions l) p.
Proof. unfold group_positions. rewrite List.fold_left_app. reflexivity. Qed.

Lemma group_positions_grouped (allPositions : list Position) :
  grouped_as allPositions (group_positions allPositions).
Proof.
  induction allPositions as [|p l IH] using List.rev_ind.
  - split; [constructor|]. split; [contradiction|]. intros k g [].
  - rewrite group_positions_snoc. apply grouped_as_step, IH.
Qed.

(** X4: the grouping loop files every position under its key
    [conditionId-outcome] and nowhere else: keys are distinct, a group
    holds exactly the positions of its key, in the order they came, is
    never empty, and takes its market, outcome and side from the first of
    them. *)
Theorem group_positions_spec (allPositions : list Position) :
  grouped_as allPositions (group_positions allPositions).
Proof.
  induction allPositions as [|p l IH] using List.rev_ind.
  - split; [constructor|]. split; [contradiction|]. intros k g [].
  - rewrite group_positions_snoc. apply grouped_as_step, IH.
Qed.

End Grouping.

(** ** Emitted signals *)

Section Emission.
Import Js Signals SignalFeed.
Local Open Scope Q_scope.

Lemma fold_abs_nonneg {A} (f : A -> Q) (l : list A) (a : Q) :
  0 <= a -> 0 <= fold_left (fun s p => s + Qabs (f p)) l a.
Proof.
  revert a. induction l as [|x l IH]; intros a Ha; simpl; [exact Ha|].
  apply IH. pose proof (Qabs_nonneg (f x)). Lqa.lra.
Qed.

Lemma totalSize_nonneg (g : Group) : 0 <= totalSize g.
Proof. apply fold_abs_nonneg. apply Qle_refl. Qed.

Lemma nodup_length (l : list string) :
  (length (nodup String.string_dec l) <= length l)%nat.
Proof.
  induction l as [|x l IH]; simpl; [lia|].
  destruct (in_dec String.string_dec x l); simpl; lia.
Qed.

Lemma nodup_nonempty (l : list string) :
  l <> [] -> (1 <= length (nodup String.string_dec l))%nat.
Proof.
  intros Hl. destruct (nodup String.string_dec l) as [|x xs] eqn:E; [|simpl; lia].
  destruct l as [|y l]; [congruence|]. exfalso.
  assert (In y (nodup String.string_dec (y :: l))) as H
    by (apply List.nodup_In; left; reflexivity).
  rewrite E in H. exact H.
Qed.

Lemma traderCount_bounds (g : Group) :
  positions g <> [] ->
  (1 <= traderCount g <= length (positions g))%nat.
Proof.
  intros Hne. unfold traderCount. split.
  - apply nodup_nonempty. destruct (positions g); [congruence | discriminate].
  - etransitivity; [apply nodup_length|]. rewrite List.length_map. lia.
Qed.

Lemma append_cancel (s a b : string) :
  (s ++ a)%string = (s ++ b)%string -> a = b.
Proof. induction s as [|c s IH]; simpl; [auto|]. intros [= H]. auto. Qed.

Lemma signal_of_Some stamp now existing kg sg :
  signal_of stamp now existing kg = Some sg ->
  sg = make_signal stamp now (fst kg) (snd kg) /\
  5000 <= totalSize (snd kg) /\
  daemon_tier (traderCount (snd kg)) (totalSize (snd kg)) <> None /\
  List.find (same_recent now (snd kg)) existing = None.
Proof.
  unfold signal_of. cbv zeta.
  destruct (Qltb (totalSize (snd kg)) minPositionSize) eqn:Hsize; [discriminate|].
  destruct (daemon_tier _ _) as [c|] eqn:Ht; [|discriminate].
  destruct (List.find _ existing) eqn:Hf; [discriminate|]. intros [= <-].
  apply Qltb_ge in Hsize. repeat split; [exact Hsize | discriminate].
Qed.

(** X5: every signal the daemon emits in a run has a total size of 5000 or
    more, and of more than 10000 when it rests on a single trader; its
    trader count is at least 1 and at most the number of its contributors;
    no stored signal younger than 24 hours has its [conditionId] and
    [outcome]; and within the run no two signals share an id. *)
Theorem new_signals_shape (stamp : Z -> string) (now : Z)
    (existing : list Signal) (allPositions : list Position) :
  Forall (fun s =>
      5000 <= s_totalSize s /\
      ((2 <= s_traderCount s)%nat \/ 10000 < s_totalSize s) /\
      (1 <= s_traderCount s <= length (traders s))%nat /\
      Forall (fun e =>
          s_conditionId e = s_conditionId s -> s_outcome e = s_outcome s ->
          (day_ms <= now - timestamp e)%Z)
        existing)
    (new_signals stamp now existing allPositions) /\
  List.NoDup (List.map id (new_signals stamp now existing allPositions)).
Proof.
  destruct (group_positions_grouped allPositions) as (Hnd & _ & Hgroups).
  unfold new_signals. split.
  - apply List.Forall_forall. intros s Hs.
    apply list_elem_of_In, list_elem_of_omap in Hs as ([k g] & Hin & Hs).
    apply list_elem_of_In in Hin.
    apply signal_of_Some in Hs as (-> & Hsize & Htier & Hfind). simpl in *.
    destruct (Hgroups k g Hin) as (first & rest & _ & Hpos & _).
    split; [exact Hsize|]. split; [|split].
    + unfold daemon_tier, confidence in Htier. cbv zeta in Htier.
      destruct (2 <=? traderCount g)%nat eqn:H2; [left; apply Nat.leb_le, H2|].
      right. destruct (3 <=? traderCount g)%nat eqn:H3;
        [apply Nat.leb_le in H3; apply Nat.leb_gt in H2; lia|].
      simpl in Htier. destruct (Qltb 50000 (totalSize g)) eqn:H5.
      * apply Qltb_lt in H5. Lqa.lra.
      * destruct (Qltb 10000 (totalSize g)) eqn:H1; [apply Qltb_lt, H1|].
        exfalso. apply Htier. reflexivity.
    + rewrite List.length_map. apply traderCount_bounds. rewrite Hpos. discriminate.
    + apply List.Forall_forall. intros e He Hc Ho.
      pose proof (List.find_none _ _ Hfind e He) as Hrecent.
      unfold same_recent in Hrecent.
      rewrite Hc, Ho, !String.eqb_refl in Hrecent. simpl in Hrecent.
      apply Z.ltb_ge in Hrecent. exact Hrecent.
  - assert (forall (G : Grouped),
              List.NoDup (List.map fst G) ->
              List.NoDup (List.map id (omap (signal_of stamp now existing) G))) as H.
    { induction G as [|kg G IH]; intros HG; [constructor|].
      apply List.NoDup_cons_iff in HG as [Hnotin HG].
      change (omap (signal_of stamp now existing) (kg :: G))
        with (match signal_of stamp now existing kg with
              | Some s => s :: omap (signal_of stamp now existing) G
              | None => omap (signal_of stamp now existing) G
              end).
      destruct (signal_of stamp now existing kg) as [s|] eqn:Hs; [|apply IH, HG].
      simpl. constructor; [|apply IH, HG]. intros Hin. apply Hnotin.
      apply List.in_map_iff in Hin as (s' & Hid & Hs').
      apply list_elem_of_In, list_elem_of_omap in Hs' as (kg' & Hkg' & Hs').
      apply list_elem_of_In in Hkg'.
      apply signal_of_Some in Hs as (-> & _). apply signal_of_Some in Hs' as (-> & _).
      change ((stamp now ++ "-" ++ fst kg')%string = (stamp now ++ "-" ++ fst kg)%string)
        in Hid.
      apply append_cancel, (append_cancel "-") in Hid.
      rewrite <- Hid. apply (List.in_map fst), Hkg'. }
    apply H, Hnd.
Qed.

Lemma In_firstn_all {A} (n : nat) (l : list A) (x : A) :
  (length l <= n)%nat -> In x l -> In x (firstn n l).
Proof. intros Hlen Hx. rewrite List.firstn_all2; assumption. Qed.

(** X6: a run of the daemon that starts from the file the previous run
    wrote, less than 24 hours later by the clock, emits no signal with the
    [conditionId] and [outcome] of a signal the previous run emitted,
    provided that run emitted no more than 500. *)
Theorem emitted_not_repeated (stamp stamp' : Z -> string) (now now' : Z)
    (allPositions allPositions' : list Position) (file : SignalsFile) :
  let first := generateSignals stamp now allPositions file in
  (now' - now < day_ms)%Z ->
  (length (fst first) <= 500)%nat ->
  Forall (fun s' =>
      Forall (fun s =>
          ~ (s_conditionId s' = s_conditionId s /\ s_outcome s' = s_outcome s))
        (fst first))
    (fst (generateSignals stamp' now' allPositions' (snd first))).
Proof.
  cbv zeta. intros Hclock Hlen. unfold generateSignals in *. simpl in *.
  set (new1 := new_signals stamp now (loadSignals file) allPositions) in *.
  apply List.Forall_forall. intros s' Hs'. apply List.Forall_forall.
  intros s Hs [Hc Ho].
  unfold new_signals in Hs'.
  apply list_elem_of_In, list_elem_of_omap in Hs' as (kg' & _ & Hs').
  apply signal_of_Some in Hs' as (-> & _ & _ & Hfind). simpl in Hc, Ho.
  assert (In s (firstn 500 (new1 ++ loadSignals file))) as Hstored.
  { rewrite List.firstn_app.
    apply List.in_or_app. left. apply In_firstn_all; assumption. }
  pose proof (List.find_none _ _ Hfind s Hstored) as Hrecent.
  assert (timestamp s = now) as Hstamp.
  { unfold new1, new_signals in Hs.
    apply list_elem_of_In, list_elem_of_omap in Hs as (kg & _ & Hs).
    apply signal_of_Some in Hs as (-> & _). reflexivity. }
  unfold same_recent in Hrecent.
  rewrite <- Hc, <- Ho, !String.eqb_refl, Hstamp in Hrecent. simpl in Hrecent.
  apply Z.ltb_ge in Hrecent. lia.
Qed.

Lemma emitted_not_repeated_witness :
  Forall (fun s' =>
      Forall (fun s =>
          ~ (s_conditionId s' = s_conditionId s /\ s_outcome s' = s_outcome s))
        (fst (generateSignals (fun _ => ""%string) 0 Samples.agreeing None)))
    (fst (generateSignals (fun _ => ""%string) 1000 Samples.agreeing
            (snd (generateSignals (fun _ => ""%string) 0 Samples.agreeing None)))).
Proof.
  apply (emitted_not_repeated (fun _ => ""%string) (fun _ => ""%string) 0 1000
           Samples.agreeing Samples.agreeing None).
  - vm_compute. reflexivity.
  - vm_compute. lia.
Defined.

(** X7: the signals endpoint answers with at most 20 signals, each of a
    total size of 5000 or more, sorted by total size with the largest
    first, and no signal it leaves out is larger than one it returns. *)
Theorem endpoint_top_signals (now : Z) (allPositions : list Position) :
  let all := JsArray.sort (fun a b => s_totalSize b - s_totalSize a)
               (omap (endpoint_signal_of now) (group_positions allPositions)) in
  endpoint now allPositions = firstn 20 all /\
  (length (endpoint now allPositions) <= 20)%nat /\
  StronglySorted (fun a b => s_totalSize b <= s_totalSize a)
    (endpoint now allPositions) /\
  Forall (fun a => 5000 <= s_totalSize a /\
                   Forall (fun b => s_totalSize b <= s_totalSize a) (skipn 20 all))
    (endpoint now allPositions).
Proof.
  cbv zeta. unfold endpoint.
  set (all := JsArray.sort _ _).
  assert (StronglySorted (fun a b => s_totalSize b <= s_totalSize a) all) as Hsorted.
  { eapply sorted_weaken; [|apply sort_sorted, descending_consistent].
    intros a b H. apply descending_le in H. exact H. }
  split; [reflexivity|]. split; [apply List.firstn_le_length|].
  split; [apply sorted_firstn, Hsorted|].
  apply List.Forall_forall. intros a Ha. split.
  - apply In_firstn in Ha. apply sort_In in Ha.
    apply list_elem_of_In, list_elem_of_omap in Ha as (kg & _ & Ha).
    unfold endpoint_signal_of in Ha. cbv zeta in Ha.
    destruct (Qltb (totalSize (snd kg)) 5000) eqn:Hsize; [discriminate|].
    injection Ha as <-. simpl. apply Qltb_ge, Hsize.
  - apply List.Forall_forall. intros b Hb.
    apply (sorted_prefix_first _ 20 all a b Hsorted Ha Hb).
Qed.

(** X8: every gathered position carries the wallet and name of a followed
    trader whose fetch came back, so a trader whose fetch throws
    contributes nothing, and no group counts more traders than are
    followed. *)
Theorem gathered_from_followed (following : list Followed)
    (fetchPositions : string -> option (list Position)) :
  Forall (fun p =>
      exists trader, In trader following /\
        traderWallet p = wallet trader /\ traderName p = name trader /\
        fetchPositions (wallet trader) <> None)
    (gather following fetchPositions) /\
  Forall (fun kg => (traderCount (snd kg) <= length following)%nat)
    (group_positions (gather following fetchPositions)).
Proof.
  assert (Forall (fun p =>
      exists trader, In trader following /\
        traderWallet p = wallet trader /\ traderName p = name trader /\
        fetchPositions (wallet trader) <> None)
    (gather following fetchPositions)) as Hg.
  { apply List.Forall_forall. intros p Hp. unfold gather in Hp.
    apply List.in_flat_map in Hp as (trader & Ht & Hp). exists trader.
    unfold getTraderPositions in Hp.
    destruct (fetchPositions (wallet trader)) as [ps|] eqn:E; [|contradiction].
    apply List.in_map_iff in Hp as (q & <- & _).
    repeat split; [exact Ht | discriminate]. }
  split; [exact Hg|]. apply List.Forall_forall. intros [k g] Hin. simpl.
  destruct (group_positions_grouped (gather following fetchPositions))
    as (_ & _ & Hgroups).
  destruct (Hgroups k g Hin) as (first & rest & Hfiled & Hpos & _).
  unfold traderCount. rewrite <- (List.length_map wallet following).
  apply List.NoDup_incl_length; [apply List.NoDup_nodup|].
  intros w Hw. apply List.nodup_In, List.in_map_iff in Hw as (p & <- & Hp).
  rewrite Hpos, <- Hfiled in Hp. apply List.filter_In in Hp as [Hp _].
  rewrite List.Forall_forall in Hg.
  destruct (Hg p Hp) as (trader & Ht & -> & _). apply List.in_map, Ht.
Qed.

End Emission.

(** ** The following list *)

Section FollowingList.
Import Js SignalFeed Following.
Variable toLowerCase : string -> string.

Lemma same_spec (a b : string) :
  same toLowerCase a b = true <-> toLowerCase a = toLowerCase b.
Proof. unfold same. apply String.eqb_eq. Qed.

Lemma same_false (a b : string) :
  same toLowerCase a b = false <-> toLowerCase a <> toLowerCase b.
Proof. unfold same. apply String.eqb_neq. Qed.

Lemma find_wallet_none (w : string) (l : list Followed) :
  List.find (fun t => same toLowerCase (wallet t) w) l = None <->
  ~ In (toLowerCase w) (List.map (lowered toLowerCase) l).
Proof.
  induction l as [|t l IH]; simpl; [tauto|].
  destruct (same toLowerCase (wallet t) w) eqn:E.
  - apply same_spec in E. split; [discriminate | intros H; exfalso; apply H; auto].
  - apply same_false in E. rewrite IH. split.
    + intros H [H1|H1]; [apply E; exact H1 | contradiction].
    + intros H H1. apply H. auto.
Qed.

Lemma filter_length_same {A} (f : A -> bool) (l : list A) :
  length (List.filter f l) = length l -> List.filter f l = l.
Proof.
  induction l as [|x l IH]; simpl; [reflexivity|].
  destruct (f x); simpl; intros H.
  - f_equal. apply IH. lia.
  - pose proof (List.filter_length_le f l). lia.
Qed.

Lemma removeTrader_load (x : string) (file : File) :
  loadFollowing (removeTrader toLowerCase x file) =
  List.filter (stays toLowerCase x) (loadFollowing file).
Proof.
  unfold removeTrader.
  destruct (Nat.eqb _ _) eqn:E; [|reflexivity].
  apply Nat.eqb_eq in E. symmetry. apply filter_length_same, E.
Qed.

Lemma addTrader_load (w : string) (n : option string) (file : File) :
  loadFollowing (addTrader toLowerCase w n file) =
  match List.find (fun t => same toLowerCase (wallet t) w) (loadFollowing file) with
  | Some _ => loadFollowing file
  | None => loadFollowing file ++ [ {| wallet := w; name := name_or_slice w n |} ]
  end.
Proof.
  unfold addTrader.
  destruct (List.find _ (loadFollowing file)); reflexivity.
Qed.

Lemma addTrader_again (w : string) (n : option string) (file : File) :
  In (toLowerCase w) (List.map (lowered toLowerCase) (loadFollowing file)) ->
  addTrader toLowerCase w n file = file.
Proof.
  intros Hin. unfold addTrader.
  destruct (List.find _ (loadFollowing file)) eqn:E; [reflexivity|].
  apply find_wallet_none in E. contradiction.
Qed.

Lemma addTrader_In (w : string) (n : option string) (file : File) :
  In (toLowerCase w)
     (List.map (lowered toLowerCase) (loadFollowing (addTrader toLowerCase w n file))).
Proof.
  rewrite addTrader_load.
  destruct (List.find _ (loadFollowing file)) as [t|] eqn:E.
  - apply List.find_some in E as [Hin Hs]. apply same_spec in Hs.
    rewrite <- Hs. apply (List.in_map (lowered toLowerCase)), Hin.
  - rewrite List.map_app. apply List.in_or_app. right. simpl. auto.
Qed.

(** X9: after [add] the wallet is on the list, whatever the list was: what
    was followed before is still there, in front and untouched, with at
    most one entry behind it; and a second [add] of the same wallet, in
    any case of letters and under any name, leaves the file as it is. *)
Theorem addTrader_once (w : string) (n : option string) (file : File) :
  let file' := addTrader toLowerCase w n file in
  In (toLowerCase w) (List.map (lowered toLowerCase) (loadFollowing file')) /\
  (exists added, loadFollowing file' = loadFollowing file ++ added /\
                 (length added <= 1)%nat) /\
  (forall w' n', toLowerCase w' = toLowerCase w ->
     addTrader toLowerCase w' n' file' = file').
Proof.
  cbv zeta. split; [apply addTrader_In|]. split.
  - rewrite addTrader_load. destruct (List.find _ (loadFollowing file)).
    + exists []. rewrite List.app_nil_r. auto.
    + eexists. split; [reflexivity|]. simpl. lia.
  - intros w' n' Hw. apply addTrader_again. rewrite Hw. apply addTrader_In.
Qed.

(** X10: [remove] leaves exactly the followed traders that match the
    argument neither by wallet nor by name (letter case ignored), in their
    order, so nothing that is left matches it; when nobody matched, the
    file is not written: an absent file stays absent. *)
Theorem removeTrader_removes (x : string) (file : File) :
  let file' := removeTrader toLowerCase x file in
  loadFollowing file' = List.filter (stays toLowerCase x) (loadFollowing file) /\
  (forall t, In t (loadFollowing file') ->
     toLowerCase (wallet t) <> toLowerCase x /\
     toLowerCase (name t) <> toLowerCase x) /\
  ((forall t, In t (loadFollowing file) -> stays toLowerCase x t = true) ->
     file' = file).
Proof.
  cbv zeta. split; [apply removeTrader_load|]. split.
  - intros t. rewrite removeTrader_load. intros Ht.
    apply List.filter_In in Ht as [_ Ht]. unfold stays in Ht.
    apply andb_prop in Ht as [H1 H2].
    apply negb_true_iff in H1, H2. split; apply same_false; assumption.
  - intros Hall. unfold removeTrader.
    replace (List.filter (stays toLowerCase x) (loadFollowing file))
      with (loadFollowing file).
    + rewrite Nat.eqb_refl. reflexivity.
    + symmetry. apply List.forallb_filter_id, List.forallb_forall, Hall.
Qed.

(** X11: [add] followed by [remove] of the same wallet gives back the list
    there was, provided no trader followed before matched that wallet by
    wallet or by name. *)
Theorem add_then_remove (w : string) (n : option string) (file : File) :
  (forall t, In t (loadFollowing file) -> stays toLowerCase w t = true) ->
  loadFollowing (removeTrader toLowerCase w (addTrader toLowerCase w n file)) =
  loadFollowing file.
Proof.
  intros Hall. rewrite removeTrader_load, addTrader_load.
  destruct (List.find _ (loadFollowing file)) as [t|] eqn:E.
  - apply List.find_some in E as [Hin Hs]. apply Hall in Hin.
    unfold stays in Hin. rewrite Hs in Hin. discriminate.
  - rewrite List.filter_app. simpl. unfold stays at 2. simpl.
    assert (same toLowerCase w w = true) as -> by (apply same_spec; reflexivity).
    simpl. rewrite List.app_nil_r.
    apply List.forallb_filter_id, List.forallb_forall, Hall.
Qed.

(** X12: if no two followed wallets agree up to the case of their letters,
    this is still so after [add] and after [remove]. *)
Theorem following_wallets_distinct (w : string) (n : option string) (file : File) :
  List.NoDup (List.map (lowered toLowerCase) (loadFollowing file)) ->
  List.NoDup (List.map (lowered toLowerCase) (loadFollowing (addTrader toLowerCase w n file))) /\
  List.NoDup (List.map (lowered toLowerCase) (loadFollowing (removeTrader toLowerCase w file))).
Proof.
  intros Hnd. split.
  - rewrite addTrader_load.
    destruct (List.find _ (loadFollowing file)) as [t|] eqn:E; [exact Hnd|].
    apply find_wallet_none in E. rewrite List.map_app. simpl.
    apply List.NoDup_app; [exact Hnd | repeat constructor; simpl; tauto |].
    intros a Ha [<-|[]]. apply E, Ha.
  - rewrite removeTrader_load. apply NoDup_map_filter, Hnd.
Qed.

End FollowingList.

Lemma add_then_remove_witness :
  (forall t, In t (Following.loadFollowing None) ->
     Following.stays Following.ascii_toLowerCase "0xABCDEF0123456789" t = true) /\
  Following.loadFollowing
    (Following.removeTrader Following.ascii_toLowerCase "0xABCDEF0123456789"
       (Following.addTrader Following.ascii_toLowerCase "0xABCDEF0123456789" None None)) =
  Following.loadFollowing None.
Proof.
  assert (forall t, In t (Following.loadFollowing None) ->
     Following.stays Following.ascii_toLowerCase "0xABCDEF0123456789" t = true) as H.
  { intros t Ht. simpl in Ht.
    destruct Ht as [<-|[<-|[<-|[]]]]; vm_compute; reflexivity. }
  split; [exact H|].
  apply (add_then_remove Following.ascii_toLowerCase "0xABCDEF0123456789" None None H).
Defined.

Lemma following_wallets_distinct_witness :
  List.NoDup (List.map (Following.lowered Following.ascii_toLowerCase)
                (Following.loadFollowing None)) /\
  List.NoDup (List.map (Following.lowered Following.ascii_toLowerCase)
                (Following.loadFollowing
                   (Following.addTrader Following.ascii_toLowerCase
                      "0xABCDEF0123456789" (Some "whale") None))).
Proof.
  assert (List.NoDup (List.map (Following.lowered Following.ascii_toLowerCase)
                (Following.loadFollowing None))) as H.
  { vm_compute. repeat constructor; simpl; intros Hc;
      repeat (destruct Hc as [Hc|Hc]; [discriminate|]); exact Hc. }
  split; [exact H|].
  apply (following_wallets_distinct Following.ascii_toLowerCase
           "0xABCDEF0123456789" (Some "whale") None H).
Defined.

(** ** Building the watchlist *)

Section WatchlistMerge.
Import Js Watchlist.
Import WhaleWatcher.

Lemma find_first_none {A} (f : A -> bool) (l : list A) :
  (forall x, In x l -> f x = false) -> List.find f l = None.
Proof.
  induction l as [|y l IH]; intros H; simpl; [reflexivity|].
  rewrite (H y) by (left; reflexivity). apply IH. intros x Hx. apply H. right. exact Hx.
Qed.

(** The loop over the board, from any set of wallets already taken. *)
Lemma merge_fold (taken : list string) (edge board : list Whale) :
  exists added,
    fold_left merge_step board (list_to_set taken, edge) =
      (list_to_set (taken ++ List.map wallet added), edge ++ added) /\
    first_untaken taken board added.
Proof.
  induction board as [|t board IH] using List.rev_ind.
  - exists []. simpl. rewrite !List.app_nil_r. split; [reflexivity|].
    split; [constructor|]. split; [constructor|]. split; intros t [].
  - destruct IH as (added & Hfold & Hsub & Hnd & Hfirst & Hall).
    rewrite List.fold_left_app, Hfold. simpl.
    destruct (bool_decide _) eqn:Hseen.
    + apply bool_decide_eq_true in Hseen.
      apply elem_of_list_to_set, list_elem_of_In in Hseen.
      exists added. split; [reflexivity|]. split; [|split; [exact Hnd|split]].
      * apply sublist_inserts_r, Hsub.
      * intros r Hr. destruct (Hfirst r Hr) as [Hnot Hfind].
        split; [exact Hnot|]. rewrite find_snoc, Hfind. reflexivity.
      * intros r Hr. apply List.in_app_or in Hr as [Hr|[<-|[]]];
          [apply Hall, Hr | exact Hseen].
    + apply bool_decide_eq_false in Hseen.
      assert (~ In (wallet t) (taken ++ List.map wallet added)) as Hnew.
      { intros H. apply Hseen, elem_of_list_to_set, list_elem_of_In, H. }
      exists (added ++ [t]). split; [|split; [|split; [|split]]].
      * f_equal; [|symmetry; apply List.app_assoc].
        rewrite List.map_app, List.app_assoc. simpl.
        rewrite (list_to_set_app_L (taken ++ List.map wallet added)). simpl.
        rewrite (right_id_L ∅ (∪)). apply (comm_L (∪)).
      * apply sublist_app; [exact Hsub | reflexivity].
      * rewrite List.map_app. simpl.
        apply List.NoDup_app; [exact Hnd | repeat constructor; simpl; tauto|].
        intros a Ha [<-|[]]. apply Hnew, List.in_or_app. right. exact Ha.
      * intros r Hr. apply List.in_app_or in Hr as [Hr|[<-|[]]].
        -- destruct (Hfirst r Hr) as [Hnot Hfind].
           split; [exact Hnot|]. rewrite find_snoc, Hfind. reflexivity.
        -- split; [intros H; apply Hnew, List.in_or_app; left; exact H|].
           rewrite find_snoc, find_first_none, String.eqb_refl; [reflexivity|].
           intros x Hx. apply String.eqb_neq. intros Heq.
           apply Hnew. rewrite <- Heq. apply Hall, Hx.
      * intros r Hr. rewrite List.map_app, List.app_assoc. apply List.in_or_app.
        apply List.in_app_or in Hr as [Hr|[<-|[]]];
          [left; apply Hall, Hr | right; simpl; auto].
Qed.

(** X13: the watchlist [updateWatchlist] stores is the curated edge traders,
    all of them and in front, followed by the leaderboard entries whose
    wallet is neither curated nor already taken from the leaderboard: a
    curated entry wins over the leaderboard's, every leaderboard wallet is
    watched, an unreadable curated file counts as empty, and the last-seen
    times are left alone.  With distinct curated wallets no wallet is
    watched twice. *)
Theorem updateWatchlist_merge (file : EdgeFile)
    (topByPnl : list Leaderboard.Trader) (state : State) :
  exists added,
    updateWatchlist file (Some topByPnl) state =
      Some {| lastSeen := lastSeen state;
              watchlist := edgeTraders file ++ added |} /\
    first_untaken (List.map wallet (edgeTraders file))
      (List.map leaderboard_entry topByPnl) added /\
    (file = Missing \/ file = Unreadable ->
       edgeTraders file = [] /\ Forall (fun t => isEdgeTrader t = false) added) /\
    (List.NoDup (List.map wallet (edgeTraders file)) ->
       List.NoDup (List.map wallet (edgeTraders file ++ added))).
Proof.
  destruct (merge_fold (List.map wallet (edgeTraders file)) (edgeTraders file)
              (List.map leaderboard_entry topByPnl)) as (added & Hfold & Hspec).
  exists added. split; [|split; [exact Hspec|split]].
  - unfold updateWatchlist, merge. rewrite Hfold. reflexivity.
  - destruct Hspec as (Hsub & _). intros Hfile. split.
    + destruct Hfile as [-> | ->]; reflexivity.
    + apply List.Forall_forall. intros t Ht.
      apply list_elem_of_In in Ht.
      apply (fun H => elem_of_sublist _ _ _ H Hsub), list_elem_of_In in Ht.
      apply List.in_map_iff in Ht as (r & <- & _). reflexivity.
  - destruct Hspec as (_ & Hnd & Hfirst & _). intros Hedge.
    rewrite List.map_app. apply List.NoDup_app; [exact Hedge | exact Hnd|].
    intros a Ha Hb. apply List.in_map_iff in Hb as (t & <- & Ht).
    apply (Hfirst t Ht), Ha.
Qed.

End WatchlistMerge.

(** ** Polling, run after run *)

Section Runs.
Import Js Activity Polling.
Local Open Scope Z_scope.

Lemma whale_check_quiet cfg response trader st :
  quiet response ->
  WhaleWatcher.checkTraderActivity cfg response trader st = ([], st).
Proof. intros [->|[->| ->]]; reflexivity. Qed.

(** What one call does to the state: the watchlist stays, and so does
    every last-seen entry but the polled wallet's. *)
Lemma whale_check_state cfg response trader st :
  let st' := snd (WhaleWatcher.checkTraderActivity cfg response trader st) in
  WhaleWatcher.watchlist st' = WhaleWatcher.watchlist st /\
  forall w, w <> WhaleWatcher.wallet trader \/ quiet response ->
    WhaleWatcher.lastSeen st' !! w = WhaleWatcher.lastSeen st !! w.
Proof.
  cbv zeta. destruct response as [| |[|first rest]];
    try (split; [reflexivity | intros; reflexivity]).
  rewrite whale_check_page. simpl. split; [reflexivity|].
  intros w [Hw|[H|[H|H]]]; try discriminate.
  apply lookup_insert_ne. congruence.
Qed.

Lemma poll_state cfg responses (traders : list WhaleWatcher.Whale) st all :
  let st' := fst (fold_left (WhaleWatcher.poll cfg responses) traders (st, all)) in
  WhaleWatcher.watchlist st' = WhaleWatcher.watchlist st /\
  (forall w,
     ~ In w (List.map WhaleWatcher.wallet traders) \/ quiet (responses w) ->
     WhaleWatcher.lastSeen st' !! w = WhaleWatcher.lastSeen st !! w) /\
  (forall w first rest,
     In w (List.map WhaleWatcher.wallet traders) ->
     responses w = Page (first :: rest) ->
     WhaleWatcher.lastSeen st' !! w =
       Some (max_of (WhaleWatcher.tradeTime first)
               (List.map WhaleWatcher.tradeTime rest))).
Proof.
  cbv zeta. revert st all.
  induction traders as [|trader traders IH] using List.rev_ind; intros st all.
  - simpl. split; [reflexivity|]. split; [reflexivity|]. intros w f r [].
  - rewrite List.fold_left_app. simpl.
    destruct (IH st all) as (Hwl & Hkeep & Hset).
    destruct (fold_left _ traders (st, all)) as [st1 all1]. simpl in *.
    pose proof (whale_check_state cfg (responses (WhaleWatcher.wallet trader))
                  trader st1) as [Hwl1 Hkeep1].
    destruct (WhaleWatcher.checkTraderActivity _ _ _ _) as [newTrades st2] eqn:E.
    simpl in *. split; [congruence|]. split.
    + intros w Hw. rewrite <- Hkeep.
      * apply Hkeep1. destruct Hw as [Hw|Hw].
        -- left. intros ->. apply Hw. rewrite List.map_app.
           apply List.in_or_app. right. simpl. auto.
        -- destruct (String.string_dec w (WhaleWatcher.wallet trader)) as [->|Hne];
             [right; exact Hw | left; exact Hne].
      * destruct Hw as [Hw|Hw]; [left|right; exact Hw].
        intros H. apply Hw. rewrite List.map_app. apply List.in_or_app. auto.
    + intros w first rest Hw Hpage.
      destruct (String.string_dec w (WhaleWatcher.wallet trader)) as [->|Hne].
      * rewrite Hpage, whale_check_page in E. injection E as _ <-. simpl.
        apply lookup_insert_eq.
      * rewrite Hkeep1 by (left; exact Hne). apply Hset; [|exact Hpage].
        rewrite List.map_app in Hw. apply List.in_app_or in Hw as [Hw|[Hw|[]]];
          [exact Hw | congruence].
Qed.

Lemma poll_quiet cfg responses (traders : list WhaleWatcher.Whale) st all :
  Forall (fun t => quiet (responses (WhaleWatcher.wallet t))) traders ->
  fold_left (WhaleWatcher.poll cfg responses) traders (st, all) = (st, all).
Proof.
  induction 1 as [|trader traders Hq _ IH]; simpl; [reflexivity|].
  rewrite (whale_check_quiet _ _ _ _ Hq). exact IH.
Qed.

(** X14: a run of the whale watcher updates the watchlist when it is
    empty or the draw is below 0.1, and not otherwise.  When the update
    throws, the run ends there: nothing is polled and nothing is saved, as
    happens with an empty watchlist whenever the leaderboard fetch throws.
    A run that gets to its end saves the watchlist it polled; for every
    watched wallet whose page came back with records it stores the
    largest time of that page; the last-seen time of every other wallet,
    watched with nothing fetched or not watched at all, is the one it had
    after the update; and when nothing was fetched for anyone the state is
    saved as it stood after the update and the history is only cut to 1000
    entries. *)
Theorem runOnce_state cfg updateWatchlist random responses stateFile activityFile :
  let loaded := WhaleWatcher.loadState stateFile in
  let due := WhaleWatcher.update_due loaded random in
  match WhaleWatcher.runOnce cfg updateWatchlist random responses
          stateFile activityFile with
  | None => due = true /\ updateWatchlist loaded = None
  | Some (st', saved) =>
      exists st0,
        (if due then updateWatchlist loaded else Some loaded) = Some st0 /\
        WhaleWatcher.watchlist st' = WhaleWatcher.watchlist st0 /\
        (forall w first rest,
           In w (List.map WhaleWatcher.wallet (WhaleWatcher.watchlist st0)) ->
           responses w = Page (first :: rest) ->
           WhaleWatcher.lastSeen st' !! w =
             Some (max_of (WhaleWatcher.tradeTime first)
                     (List.map WhaleWatcher.tradeTime rest))) /\
        (forall w,
           ~ In w (List.map WhaleWatcher.wallet (WhaleWatcher.watchlist st0)) \/
           quiet (responses w) ->
           WhaleWatcher.lastSeen st' !! w = WhaleWatcher.lastSeen st0 !! w) /\
        (Forall (fun t => quiet (responses (WhaleWatcher.wallet t)))
           (WhaleWatcher.watchlist st0) ->
         st' = st0 /\
         saved = WhaleWatcher.saveActivity (WhaleWatcher.loadActivity activityFile))
  end /\
  (forall file,
     WhaleWatcher.watchlist loaded = [] ->
     WhaleWatcher.runOnce cfg (Watchlist.updateWatchlist file None) random responses
       stateFile activityFile = None).
Proof.
  cbv zeta. split.
  - unfold WhaleWatcher.runOnce. cbv zeta.
    set (loaded := WhaleWatcher.loadState stateFile).
    set (all0 := WhaleWatcher.loadActivity activityFile).
    destruct (if WhaleWatcher.update_due loaded random
              then updateWatchlist loaded else Some loaded) as [st0|] eqn:Hup.
    + pose proof (poll_state cfg responses (WhaleWatcher.watchlist st0) st0 all0)
        as (Hwl & Hkeep & Hset).
      pose proof (poll_quiet cfg responses (WhaleWatcher.watchlist st0) st0 all0) as Hq.
      destruct (fold_left _ _ _) as [st' all']. simpl in *.
      exists st0. split; [reflexivity|]. split; [exact Hwl|].
      split; [exact Hset|]. split; [exact Hkeep|].
      intros Hall. specialize (Hq Hall). split; congruence.
    + destruct (WhaleWatcher.update_due loaded random); [|discriminate].
      split; [reflexivity | exact Hup].
  - intros file Hempty. unfold WhaleWatcher.runOnce, WhaleWatcher.update_due.
    cbv zeta. rewrite Hempty. reflexivity.
Qed.

Lemma or_time_stored (z d : Z) : z <> 0 -> or_time (Some (Num z)) d = z.
Proof. intros Hz. simpl. apply Z.eqb_neq in Hz. rewrite Hz. reflexivity. Qed.

Lemma filter_none {A} (f : A -> bool) (l : list A) :
  (forall x, In x l -> f x = false) -> List.filter f l = [].
Proof.
  induction l as [|x l IH]; intros H; simpl; [reflexivity|].
  rewrite (H x) by (left; reflexivity). apply IH. intros y Hy. apply H. right. exact Hy.
Qed.

(** Nothing of a page gets past a watermark that is the largest time of a
    page holding its records. *)
Lemma kept_none_below (time : Trade -> num) (minTradeSize : Q) (z : Z)
    (first : Trade) (rest page' : list Trade) :
  page_maximum (List.map time (first :: rest)) z ->
  incl page' (first :: rest) ->
  dated time (first :: rest) ->
  List.filter (fun t => kept minTradeSize z (time t) t) page' = [].
Proof.
  intros [_ Hmax] Hincl Hdated. apply filter_none. intros t Ht.
  apply Hincl in Ht. unfold dated in Hdated. rewrite List.Forall_forall in Hdated.
  specialize (Hdated t Ht). unfold kept.
  destruct (time t) as [y|] eqn:Ey; [|congruence].
  assert (y <= z) as Hy.
  { apply Hmax. rewrite <- Ey. apply (List.in_map time), Ht. }
  simpl. apply Z.leb_le in Hy. rewrite Hy. reflexivity.
Qed.

(** X15: no alert twice.  Once a watcher has polled a page whose
    timestamps all parse, a later page made up of records of that page,
    the same page again included, yields no new trade for that trader,
    whatever the size threshold.  For the Cloud Run watcher the largest
    time of the page must not be zero, a value its state reads as unset. *)
Theorem polled_page_not_realerted
    (page page' : list Trade)
    (cfg cfg' : WhaleWatcher.Config) (trader : WhaleWatcher.Whale)
    (st : WhaleWatcher.State)
    (ccfg ccfg' : CloudWatcher.Config) (now now' : Z)
    (ctrader : CloudWatcher.Whale) (cst : CloudWatcher.State) :
  incl page' page ->
  (dated WhaleWatcher.tradeTime page ->
   fst (WhaleWatcher.checkTraderActivity cfg' (Page page') trader
          (snd (WhaleWatcher.checkTraderActivity cfg (Page page) trader st))) = []) /\
  (dated CloudWatcher.tradeTime page ->
   ~ page_maximum (List.map CloudWatcher.tradeTime page) 0 ->
   fst (CloudWatcher.checkTraderActivity ccfg' now' (Page page') ctrader
          (snd (CloudWatcher.checkTraderActivity ccfg now (Page page) ctrader cst))) = []).
Proof.
  intros Hincl.
  destruct page' as [|first' rest'].
  { split; intros; reflexivity. }
  destruct page as [|first rest].
  { exfalso. apply (Hincl first'). left. reflexivity. }
  split.
  - intros Hdated. rewrite (whale_check_page cfg trader st first rest). cbn [snd].
    rewrite whale_check_page. cbn [fst].
    destruct (max_of_maximum (WhaleWatcher.tradeTime first)
                (List.map WhaleWatcher.tradeTime rest)) as (z & Hz & Hmax).
    { unfold dated in Hdated. rewrite <- List.map_cons.
      apply List.Forall_map, Hdated. }
    unfold WhaleWatcher.watermark. cbn [WhaleWatcher.lastSeen].
    rewrite lookup_insert_eq, Hz.
    assert (or_time (Some (Num z)) 0 = z) as ->.
    { simpl. destruct (z =? 0) eqn:E; [apply Z.eqb_eq in E; auto | reflexivity]. }
    rewrite whale_scan_filter.
    rewrite (kept_none_below WhaleWatcher.tradeTime _ z first rest);
      [reflexivity | exact Hmax | exact Hincl | exact Hdated].
  - intros Hdated Hzero.
    rewrite (cloud_check_page ccfg now ctrader cst first rest). cbn [snd].
    rewrite cloud_check_page. cbn [fst].
    destruct (max_of_maximum (CloudWatcher.tradeTime first)
                (List.map CloudWatcher.tradeTime rest)) as (z & Hz & Hmax).
    { unfold dated in Hdated. rewrite <- List.map_cons.
      apply List.Forall_map, Hdated. }
    unfold CloudWatcher.watermark. cbn [CloudWatcher.lastSeen].
    rewrite lookup_insert_eq, Hz.
    rewrite or_time_stored by (intros ->; apply Hzero, Hmax).
    rewrite cloud_scan_filter.
    rewrite (kept_none_below CloudWatcher.tradeTime _ z first rest);
      [reflexivity | exact Hmax | exact Hincl | exact Hdated].
Qed.

Lemma polled_page_not_realerted_witness :
  fst (WhaleWatcher.checkTraderActivity WhaleWatcher.CONFIG
         (Page [Samples.recent_large]) Samples.whale
         (snd (WhaleWatcher.checkTraderActivity WhaleWatcher.CONFIG
                 (Page [Samples.recent_large; Samples.old_large])
                 Samples.whale Samples.seen))) = [].
Proof.
  refine (proj1 (polled_page_not_realerted
                   [Samples.recent_large; Samples.old_large] [Samples.recent_large]
                   WhaleWatcher.CONFIG WhaleWatcher.CONFIG Samples.whale Samples.seen
                   CloudWatcher.CONFIG CloudWatcher.CONFIG 0 0
                   Samples.cloud_whale Samples.cloud_seen _) _).
  - intros t [<-|[]]. left. reflexivity.
  - repeat constructor; vm_compute; discriminate.
Defined.

(** X16: the Cloud Run watcher reads a numeric timestamp below 10^10 as
    seconds and any other as milliseconds, so an instant given in seconds
    and the same instant given in milliseconds come to the same time, as
    long as it lies from 10^7 seconds on (26 April 1970) and before 10^10
    seconds; the plain watcher reads both as milliseconds. *)
Theorem normalise_seconds (s : Z) :
  10000000 <= s < 10000000000 ->
  CloudWatcher.normalise (TNumber s) = Num (s * 1000) /\
  CloudWatcher.normalise (TNumber (s * 1000)) = Num (s * 1000) /\
  getTime (TNumber s) = Num s.
Proof.
  intros [Hlo Hhi]. unfold CloudWatcher.normalise, getTime, maxTime.
  assert ((s <? 10000000000) = true) as -> by (apply Z.ltb_lt; lia).
  assert ((s * 1000 <? 10000000000) = false) as -> by (apply Z.ltb_ge; lia).
  assert ((Z.abs (s * 1000) <=? 8640000000000000) = true) as ->
    by (apply Z.leb_le; lia).
  assert ((Z.abs s <=? 8640000000000000) = true) as -> by (apply Z.leb_le; lia).
  repeat split.
Qed.

Lemma normalise_seconds_witness :
  CloudWatcher.normalise (TNumber 1700000000) = Num 1700000000000 /\
  CloudWatcher.normalise (TNumber (1700000000 * 1000)) = Num 1700000000000 /\
  getTime (TNumber 1700000000) = Num 1700000000.
Proof. apply (normalise_seconds 1700000000). lia. Defined.

End Runs.

(** ** The edge-traders endpoint *)

Section SortR.
Import JsArray.
Local Open Scope R_scope.

(** [(a, b) => key(b) - key(a)] on reals sorts by [key], largest first. *)
Lemma sortR_descending {A} (key : A -> R) (l : list A) :
  StronglySorted (fun a b => key b <= key a) (sortR (fun a b => key b - key a) l).
Proof.
  apply (sorted_weaken
           (fun a b => (if Rlt_dec 0 (key b - key a) then true else false) = false)).
  { intros a b H. destruct (Rlt_dec 0 (key b - key a)); [discriminate | lra]. }
  apply (sort_when_sorted _ (fun _ => True)).
  - split.
    + intros a b _ _.
      destruct (Rlt_dec 0 (key b - key a)); destruct (Rlt_dec 0 (key a - key b));
        auto; lra.
    + intros a b c _ _ _.
      destruct (Rlt_dec 0 (key b - key a)); [discriminate|].
      destruct (Rlt_dec 0 (key c - key b)); [discriminate|].
      destruct (Rlt_dec 0 (key c - key a)); [lra | reflexivity].
  - apply List.Forall_forall. trivial.
Qed.

End SortR.

Section EdgeEndpoint.
Import Js Metrics Leaderboard EdgeScore EdgeTraders.
Local Open Scope R_scope.

(** The rounded score of a trader who is not in the red. *)
Lemma edgeScore_in_range (trader : Trader) (closed : list ClosedPosition) :
  (0 <= or_num (Leaderboard.pnl trader) 0)%Q ->
  (0 <= or_num (vol trader) 0)%Q ->
  in_range (edgeScore (calculateEdgeScore trader closed)).
Proof.
  intros Hp Hv.
  destruct (other_scores_in_range trader closed Hv) as (Hw & Hf & Hc & Hs).
  assert (in_range (efficiencyScore (subScores trader closed))) as He.
  { simpl. apply Rmin_cap. pose proof (efficiencyOf_sign trader Hv Hp). lra. }
  pose proof (weighted_in_range _ He Hw Hf Hc Hs) as Hsum.
  unfold calculateEdgeScore; simpl edgeScore.
  destruct (round_bounds (weighted (subScores trader closed) * 10) 1000) as [H1 H2].
  { unfold in_range in Hsum. lra. }
  unfold in_range. lra.
Qed.

Lemma efficiency_reported_nonneg (trader : Trader) (closed : list ClosedPosition) :
  (0 <= or_num (Leaderboard.pnl trader) 0)%Q ->
  (0 <= or_num (vol trader) 0)%Q ->
  0 <= efficiency (calculateEdgeScore trader closed).
Proof.
  intros Hp Hv. unfold calculateEdgeScore; simpl efficiency.
  pose proof (efficiencyOf_sign trader Hv Hp) as He.
  unfold round. destruct (base_Int_part (efficiencyOf trader * 1000 + / 2)) as [_ Hgt].
  assert (-1 < Int_part (efficiencyOf trader * 1000 + / 2))%Z as Hz
    by (apply lt_IZR; lra).
  assert (0 <= IZR (Int_part (efficiencyOf trader * 1000 + / 2))) as H0
    by (apply IZR_le; lia).
  lra.
Qed.

Lemma qualifies_fields (minVol : Q) (t : Trader) :
  (0 <= minVol)%Q ->
  Aggregator.qualifies minVol t = true ->
  exists p v, Leaderboard.pnl t = Some p /\ vol t = Some v /\
              (0 < p)%Q /\ (minVol < v)%Q /\
              or_num (Leaderboard.pnl t) 0 = p /\ or_num (vol t) 0 = v.
Proof.
  intros Hmin Hq. apply qualifies_spec in Hq as [Hp Hv]. unfold or_num in *.
  destruct (Leaderboard.pnl t) as [p|]; [|apply Qlt_irrefl in Hp; contradiction].
  destruct (Qeq_bool p 0); [apply Qlt_irrefl in Hp; contradiction|].
  destruct (vol t) as [v|]; [|exfalso; Lqa.lra].
  destruct (Qeq_bool v 0); [exfalso; Lqa.lra|].
  exists p, v. repeat split; assumption.
Qed.

Lemma scored_sound (traders : list Trader) (fetch : string -> Screening.details)
    (trader : Trader) (e : EdgeTrader) :
  In trader traders -> Aggregator.qualifies 50000 trader = true ->
  scored fetch trader = Some e -> sound traders fetch e.
Proof.
  intros Hin Hq He. unfold scored in He.
  destruct (fetch (proxyWallet trader)) as [|closed open] eqn:Ef; [discriminate|].
  injection He as <-.
  destruct (qualifies_fields 50000 trader) as (p & v & Hp & Hv & Hp0 & Hv0 & Ep & Ev);
    [discriminate | exact Hq |].
  assert (0 <= or_num (Leaderboard.pnl trader) 0)%Q as Hpn by (rewrite Ep; Lqa.lra).
  assert (0 <= or_num (vol trader) 0)%Q as Hvn by (rewrite Ev; Lqa.lra).
  split; [|split; [|split; [|split]]].
  - exists trader, closed, open. repeat split; assumption.
  - exists p, v. repeat split; assumption.
  - exact (edgeScore_in_range trader closed Hpn Hvn).
  - exact (efficiency_reported_nonneg trader closed Hpn Hvn).
  - simpl. rewrite List.length_map. apply List.firstn_le_length.
Qed.

(** X17: the edge-traders endpoint answers with at most 30 traders, sorted
    by edge score with the largest first.  Each of them is a leaderboard
    trader with a profit above zero and a volume above 50000 whose two
    fetches came back, so that its edge score lies in [0, 100] and its
    reported efficiency is not negative; it lists at most 5 open
    positions.  When the leaderboard fetch throws there is no list. *)
Theorem handler_edge_traders (fetch : string -> Screening.details) :
  handler None fetch = None /\
  forall traders, exists out,
    handler (Some traders) fetch = Some out /\
    (length out <= 30)%nat /\
    Forall (sound traders fetch) out /\
    StronglySorted (fun a b => edgeScore (edge b) <= edgeScore (edge a)) out.
Proof.
  split; [reflexivity|]. intros traders. eexists. split; [reflexivity|].
  split; [|split].
  - unfold JsArray.sortR.
    rewrite <- (Permutation_length (sort_when_perm _ _)).
    etransitivity; [apply omap_length|]. apply List.firstn_le_length.
  - apply List.Forall_forall. intros e He.
    apply sort_when_In in He.
    apply list_elem_of_In, list_elem_of_omap in He as (trader & Ht & He).
    apply list_elem_of_In, In_firstn in Ht. unfold candidates in Ht.
    apply List.filter_In in Ht as [Hin Hq].
    apply (scored_sound traders fetch trader e Hin Hq He).
  - apply (sortR_descending (fun e => edgeScore (edge e))).
Qed.

End EdgeEndpoint.

(** ** The edge detector *)

Section EdgeDetector.
Import Js Metrics Leaderboard EdgeScore.
Import Detector.
Local Open Scope R_scope.

Lemma tenths_in_range (x : R) : in_range x -> in_range (tenths x).
Proof.
  unfold in_range, tenths. intros Hx.
  destruct (round_bounds (x * 10) 1000) as [H1 H2]; lra.
Qed.

Lemma subScores_in_range (trader : Trader) (closed : list ClosedPosition) :
  (0 <= or_num (pnl trader) 0)%Q ->
  (0 <= or_num (vol trader) 0)%Q ->
  let s := subScores trader closed in
  in_range (efficiencyScore s) /\ in_range (winRateScore s) /\
  in_range (profitFactorScore s) /\ in_range (consistencyScore s) /\
  in_range (sizeScore s) /\ in_range (weighted s).
Proof.
  intros Hp Hv. cbv zeta.
  destruct (other_scores_in_range trader closed Hv) as (Hw & Hf & Hc & Hs).
  assert (in_range (efficiencyScore (subScores trader closed))) as He.
  { simpl. apply Rmin_cap. pose proof (efficiencyOf_sign trader Hv Hp). lra. }
  pose proof (weighted_in_range _ He Hw Hf Hc Hs) as Hsum.
  repeat split; first [apply He | apply Hw | apply Hf | apply Hc | apply Hs | apply Hsum].
Qed.

Lemma or_num_volume (minVolume : Q) (t : Trader) :
  (0 <= minVolume)%Q -> (minVolume <= or_num (vol t) 0)%Q ->
  (minVolume <= or_num (vol t) 1 \/ or_num (vol t) 1 = 1%Q)%Q.
Proof.
  intros Hmin Hv. unfold or_num in *.
  destruct (vol t) as [v|]; [|right; reflexivity].
  destruct (Qeq_bool v 0); [right; reflexivity | left; exact Hv].
Qed.

Lemma analyse_sound (minVolume : Q) fetchClosed fetchOpen (trader : Trader) :
  (0 <= minVolume)%Q ->
  Aggregator.passes minVolume trader = true ->
  sound minVolume (analyse fetchClosed fetchOpen trader).
Proof.
  intros Hmin Hpass. apply passes_spec in Hpass as [Hp Hv].
  assert (0 <= or_num (pnl trader) 0)%Q as Hpn by Lqa.lra.
  assert (0 <= or_num (vol trader) 0)%Q as Hvn by Lqa.lra.
  destruct (subScores_in_range trader
              (or_empty (fetchClosed (proxyWallet trader))) Hpn Hvn)
    as (He & Hw & Hf & Hc & Hs & Hsum).
  unfold sound, analyse, calculateEdgeScore, fetchTraderDetails.
  cbn [report edgeScore components stats co_efficiency co_winRate co_profitFactor
       co_consistency co_size stat_pnl stat_volume currentPositions openCount
       closedPositions openPositions].
  repeat split; try (apply tenths_in_range; assumption).
  - exact Hp.
  - apply or_num_volume; assumption.
  - rewrite List.length_map. apply List.firstn_le_length.
  - rewrite List.length_map, List.length_firstn. apply Nat.le_min_r.
Qed.

(** X18: with a volume floor that is not negative, the edge detector
    returns at most [topN] traders, no wallet twice, sorted by edge score
    with the largest first, and no analysed trader it leaves out scores
    higher than one it returns.  Every trader returned is in profit, and
    its edge score and the five components reported lie in [0, 100]. *)
Theorem detectEdgeTraders_top (minVolume : Q) (topN : nat)
    (sources : list (list Trader))
    (fetchClosed : string -> option (list ClosedPosition))
    (fetchOpen : string -> option (list Screening.OpenPosition)) :
  (0 <= minVolume)%Q ->
  exists topEdge,
    detectEdgeTraders minVolume topN (Some sources) fetchClosed fetchOpen =
      Some topEdge /\
    (length topEdge <= topN)%nat /\
    List.NoDup (List.map wallet topEdge) /\
    StronglySorted
      (fun a b => edgeScore (report b) <= edgeScore (report a)) topEdge /\
    Forall (fun a =>
        sound minVolume a /\
        Forall (fun b => edgeScore (report b) <= edgeScore (report a))
          (skipn topN (ranked minVolume topN sources fetchClosed fetchOpen)))
      topEdge.
Proof.
  intros Hmin. eexists. split; [reflexivity|].
  set (all := ranked minVolume topN sources fetchClosed fetchOpen).
  assert (StronglySorted (fun a b => edgeScore (report b) <= edgeScore (report a)) all)
    as Hsorted by apply (sortR_descending (fun e => edgeScore (report e))).
  split; [apply List.firstn_le_length|]. split; [|split].
  - rewrite <- List.firstn_map. apply NoDup_firstn.
    eapply Permutation.Permutation_NoDup;
      [apply Permutation_map, sort_when_perm|].
    rewrite List.map_map. simpl.
    rewrite <- List.firstn_map. apply NoDup_firstn.
    unfold Aggregator.detect_candidates. apply NoDup_map_filter.
    apply detect_traderMap_spec.
  - apply sorted_firstn, Hsorted.
  - apply List.Forall_forall. intros a Ha. split.
    + apply In_firstn in Ha. apply sort_when_In in Ha.
      apply List.in_map_iff in Ha as (trader & <- & Ht).
      apply In_firstn in Ht. unfold Aggregator.detect_candidates in Ht.
      apply List.filter_In in Ht as [_ Hpass].
      apply analyse_sound; assumption.
    + apply List.Forall_forall. intros b Hb.
      apply (sorted_prefix_first _ topN all a b Hsorted Ha Hb).
Qed.

Lemma detectEdgeTraders_top_witness :
  exists topEdge,
    detectEdgeTraders 50000 50 (Some Samples.windows) (fun _ => None) (fun _ => None) =
      Some topEdge /\
    (length topEdge <= 50)%nat /\
    List.NoDup (List.map wallet topEdge) /\
    StronglySorted
      (fun a b => edgeScore (report b) <= edgeScore (report a)) topEdge /\
    Forall (fun a =>
        sound 50000 a /\
        Forall (fun b => edgeScore (report b) <= edgeScore (report a))
          (skipn 50 (ranked 50000 50 Samples.windows (fun _ => None) (fun _ => None))))
      topEdge.
Proof.
  apply (detectEdgeTraders_top 50000 50 Samples.windows (fun _ => None) (fun _ => None)).
  discriminate.
Defined.

End EdgeDetector.

(** ** Paging through the leaderboard *)

Section PagingFacts.
Import Js Leaderboard Effect Paging.

Lemma pages_run (api : Request -> answer) (limit_ remaining : nat) :
  forall page allTraders sent,
  exists n,
    (n <= remaining)%nat /\
    snd (pages api limit_ page remaining allTraders sent) =
      sent ++ List.map (request_of limit_) (seq page n) /\
    (forall m, (S m < n)%nat ->
       exists t ts, api (request_of limit_ (page + m)) = Rows (t :: ts)) /\
    ended api limit_ page n remaining allTraders
      (fst (pages api limit_ page remaining allTraders sent)).
Proof.
  induction remaining as [|remaining IH]; intros page allTraders sent.
  - exists O. simpl. rewrite !List.app_nil_r.
    split; [lia|]. split; [reflexivity|]. split; [intros m Hm; lia|].
    split; [reflexivity | left; reflexivity].
  - simpl. unfold bind, fetchLeaderboard.
    destruct (api (request_of limit_ page)) as [|[|t ts]] eqn:Eapi.
    + exists 1%nat. simpl.
      split; [lia|]. split; [reflexivity|]. split; [intros m Hm; lia|].
      exists O. rewrite Nat.add_0_r. auto.
    + exists 1%nat. simpl.
      split; [lia|]. split; [reflexivity|]. split; [intros m Hm; lia|]. split.
      * rewrite Eapi. simpl. rewrite List.app_nil_r. reflexivity.
      * right. exists O. rewrite Nat.add_0_r. auto.
    + destruct (IH (S page) (allTraders ++ t :: ts) (sent ++ [request_of limit_ page]))
        as (n & Hn & Hsent & Hfull & Hend).
      exists (S n). split; [lia|]. split; [|split].
      * rewrite Hsent, <- List.app_assoc. reflexivity.
      * intros [|m] Hm.
        -- rewrite Nat.add_0_r. eauto.
        -- replace (page + S m)%nat with (S page + m)%nat by lia.
           apply Hfull. lia.
      * unfold ended in *.
        destruct (fst (pages api limit_ (S page) remaining _ _)) as [all|].
        -- destruct Hend as [-> Hstop]. split.
           ++ simpl. rewrite Eapi, <- List.app_assoc. reflexivity.
           ++ destruct Hstop as [->|(m & -> & Hm)]; [left; reflexivity|].
              right. exists (S m). split; [reflexivity|].
              replace (page + S m)%nat with (S page + m)%nat by lia. exact Hm.
        -- destruct Hend as (m & -> & Hm). exists (S m). split; [reflexivity|].
           replace (page + S m)%nat with (S page + m)%nat by lia. exact Hm.
Qed.

Lemma flat_map_length_le {A B} (f : A -> list B) (l : list A) (k : nat) :
  (forall a, length (f a) <= k)%nat ->
  (length (flat_map f l) <= length l * k)%nat.
Proof.
  intros Hk. induction l as [|a l IH]; simpl; [lia|].
  rewrite List.length_app. specialize (Hk a). lia.
Qed.

(** X19: [fetchAllLeaderboard] asks for the pages in order, at offsets 0,
    limit, 2 * limit and so on with the same limit (100 when none or zero
    is given), never more than [maxPages] of them, and every page before
    the last one asked for had rows.  When it returns, it returns the rows
    of the pages asked for, in order, and it stopped because the last page
    was empty or [maxPages] were read; when a request is refused it
    throws, and that request was the last.  If the API never sends more
    rows than the limit, no more than [maxPages * limit] come back. *)
Theorem fetchAllLeaderboard_pages (api : Request -> answer)
    (limit_ : option nat) (maxPages : nat) (sent : list Request) :
  let run := fetchAllLeaderboard api limit_ maxPages sent in
  let size := limit_or limit_ in
  exists n,
    (n <= maxPages)%nat /\
    snd run = sent ++ List.map (request_of size) (seq 0 n) /\
    (forall m, (S m < n)%nat ->
       exists t ts, api (request_of size m) = Rows (t :: ts)) /\
    ended api size 0 n maxPages [] (fst run) /\
    (forall all, fst run = Returned all ->
       (forall request, length (rows_of (api request)) <= limit request)%nat ->
       (length all <= maxPages * size)%nat).
Proof.
  cbv zeta. unfold fetchAllLeaderboard.
  destruct (pages_run api (limit_or limit_) maxPages 0 [] sent)
    as (n & Hn & Hsent & Hfull & Hend).
  exists n. split; [exact Hn|]. split; [exact Hsent|]. split; [exact Hfull|].
  split; [exact Hend|]. intros all Hall Hlimit.
  rewrite Hall in Hend. destruct Hend as [-> _]. simpl.
  etransitivity.
  - apply (flat_map_length_le _ _ (limit_or limit_)). intros page.
    apply (Hlimit (request_of (limit_or limit_) page)).
  - rewrite List.length_seq. apply Nat.mul_le_mono_r, Hn.
Qed.

End PagingFacts.

(** ** The trader index *)

Section MapReads.
Import Aggregator TraderIndex.
Context {V : Type}.

Lemma has_get (m : TraderMap V) (k : string) :
  has m k = match get m k with Some _ => true | None => false end.
Proof.
  unfold has, get. induction m as [|[a b] m IH]; simpl; [reflexivity|].
  destruct (String.eqb a k); [reflexivity | exact IH].
Qed.

Lemma get_snoc (m : TraderMap V) (k k' : string) (v : V) :
  get (m ++ [(k, v)]) k' =
  match get m k' with
  | Some x => Some x
  | None => if String.eqb k k' then Some v else None
  end.
Proof.
  unfold get. rewrite find_snoc. simpl.
  destruct (List.find _ m); simpl; [reflexivity|].
  destruct (String.eqb k k'); reflexivity.
Qed.

Lemma get_replace (m : TraderMap V) (k k' : string) (v : V) :
  get (List.map (fun kv => if String.eqb (fst kv) k then (k, v) else kv) m) k' =
  if String.eqb k k' then (if has m k then Some v else None) else get m k'.
Proof.
  unfold get, has. induction m as [|[a b] m IH]; simpl.
  - destruct (String.eqb k k'); reflexivity.
  - destruct (String.eqb_spec a k) as [->|Hak]; simpl.
    + destruct (String.eqb k k') eqn:Ekk; [reflexivity|].
      rewrite IH; try rewrite Ekk; reflexivity.
    + destruct (String.eqb_spec a k') as [->|Hak']; simpl.
      * destruct (String.eqb_spec k k') as [->|_]; [contradiction | reflexivity].
      * exact IH.
Qed.

Lemma get_set (m : TraderMap V) (k k' : string) (v : V) :
  get (set m k v) k' = if String.eqb k k' then Some v else get m k'.
Proof.
  unfold set. destruct (has m k) eqn:Hhas.
  - rewrite get_replace, Hhas. reflexivity.
  - rewrite get_snoc. rewrite has_get in Hhas.
    destruct (String.eqb_spec k k') as [<-|Hne].
    + destruct (get m k); [discriminate | reflexivity].
    + destruct (get m k'); reflexivity.
Qed.

Lemma get_update (m : TraderMap V) (k k' : string) (f : V -> V) :
  get (update m k f) k' =
  if String.eqb k k' then option_map f (get m k') else get m k'.
Proof.
  unfold get, update. induction m as [|[a b] m IH]; simpl.
  - destruct (String.eqb k k'); reflexivity.
  - destruct (String.eqb_spec a k) as [->|Hak]; simpl.
    + destruct (String.eqb k k') eqn:Ekk; [reflexivity | exact IH].
    + destruct (String.eqb_spec a k') as [->|Hak']; simpl; [|exact IH].
      destruct (String.eqb_spec k k') as [->|_]; [contradiction | reflexivity].
Qed.

Lemma update_keys (m : TraderMap V) (k : string) (f : V -> V) :
  List.map fst (update m k f) = List.map fst m.
Proof.
  unfold update. rewrite List.map_map. apply List.map_ext. intros [a b]. simpl.
  destruct (String.eqb a k); reflexivity.
Qed.

Lemma get_Some (m : TraderMap V) (k : string) (v : V) :
  get m k = Some v -> In (k, v) m.
Proof.
  unfold get. destruct (List.find _ m) as [[a b]|] eqn:E; [|discriminate].
  intros [= <-]. apply List.find_some in E as [Hin Heq].
  apply String.eqb_eq in Heq. simpl in Heq. subst a. exact Hin.
Qed.

Lemma get_In (m : TraderMap V) (k : string) (v : V) :
  List.NoDup (List.map fst m) -> In (k, v) m -> get m k = Some v.
Proof.
  unfold get. induction m as [|[a b] m IH]; simpl; [contradiction|].
  intros Hnd Hin. apply List.NoDup_cons_iff in Hnd as [Hnot Hnd].
  destruct (String.eqb_spec a k) as [->|Hak].
  - destruct Hin as [[= <-]|Hin]; [reflexivity|].
    exfalso. apply Hnot. apply (List.in_map fst) in Hin. exact Hin.
  - destruct Hin as [[= Ha _]|Hin]; [contradiction|]. apply IH; assumption.
Qed.

End MapReads.

Section IndexFacts.
Import Js Leaderboard Aggregator TraderIndex.
Context {Json : Type}.

Let walletOf (pr : string * @Row Json) : string := proxyWallet (base (snd pr)).

(** The last row of wallet [k] visited under [period]. *)
Let last_visit (period k : string) (seen : list (string * @Row Json))
    : option (string * @Row Json) :=
  List.find (fun pr => String.eqb (fst pr) period && String.eqb (walletOf pr) k)
    (rev seen).

Let step (m : TraderMap (@Entry Json)) (pr : string * @Row Json) :=
  index_step (fst pr) m (snd pr).

(** What holds of the map once the rows [seen] have gone through. *)
Let inv (seen : list (string * @Row Json)) (m : TraderMap (@Entry Json)) : Prop :=
  List.NoDup (List.map fst m) /\
  forall k,
    match first_in k (List.map snd seen) with
    | None => get m k = None
    | Some trader =>
        exists e, get m k = Some e /\ wallet e = k /\
          userName e = Leaderboard.userName (base trader) /\
          e_profileImage e = profileImage trader /\
          e_xUsername e = xUsername trader /\
          e_verifiedBadge e = verifiedBadge trader /\
          forall period,
            get (rankings e) period =
              option_map (fun pr => ranking_of (snd pr)) (last_visit period k seen)
    end.

Lemma find_app_first {A} (f : A -> bool) (l1 l2 : list A) :
  List.find f (l1 ++ l2) =
  match List.find f l1 with Some x => Some x | None => List.find f l2 end.
Proof.
  induction l1 as [|a l1 IH]; simpl; [reflexivity|].
  destruct (f a); [reflexivity | exact IH].
Qed.

Lemma last_visit_snoc period k seen pr :
  last_visit period k (seen ++ [pr]) =
  if String.eqb (fst pr) period && String.eqb (walletOf pr) k then Some pr
  else last_visit period k seen.
Proof. unfold last_visit. rewrite List.rev_unit. reflexivity. Qed.

Lemma last_visit_none period k seen :
  first_in k (List.map snd seen) = None -> last_visit period k seen = None.
Proof.
  intros Hnone. unfold last_visit. apply find_first_none. intros pr Hpr.
  apply List.in_rev in Hpr.
  pose proof (List.find_none _ _ Hnone (snd pr) (List.in_map snd _ _ Hpr)) as H.
  unfold walletOf. simpl in H. rewrite H. apply andb_false_r.
Qed.

Lemma inv_nil_index : inv [] [].
Proof. split; [constructor|]. intros k. reflexivity. Qed.

Lemma inv_step_index seen m pr : inv seen m -> inv (seen ++ [pr]) (step m pr).
Proof.
  intros [Hnd Hget]. destruct pr as [p trader]. unfold step, index_step. simpl.
  set (w := proxyWallet (base trader)).
  set (m1 := if has m w then m else set m w (fresh trader)).
  assert (List.NoDup (List.map fst m1) /\
          forall k, get m1 k =
            match get m k with
            | Some e => Some e
            | None => if String.eqb w k then Some (fresh trader) else None
            end) as [Hnd1 Hget1].
  { unfold m1. destruct (has m w) eqn:Hhas.
    - split; [exact Hnd|]. intros k. rewrite has_get in Hhas.
      destruct (String.eqb_spec w k) as [<-|Hne].
      + destruct (get m w); [reflexivity | discriminate].
      + destruct (get m k); reflexivity.
    - rewrite (set_fresh _ _ _ Hhas). split.
      + rewrite List.map_app. simpl. apply List.NoDup_app; [exact Hnd| |].
        * repeat constructor. simpl. tauto.
        * intros k Hk [<-|[]]. apply has_false in Hhas. exact (Hhas Hk).
      + intros k. apply get_snoc. }
  split; [rewrite update_keys; exact Hnd1|].
  intros k. specialize (Hget k). rewrite List.map_app. simpl.
  unfold first_in in *. rewrite find_snoc. rewrite get_update, Hget1. fold w.
  destruct (String.eqb_spec w k) as [<-|Hne].
  - destruct (List.find _ (List.map snd seen)) as [first|] eqn:Efirst.
    + destruct Hget as (e & -> & Hw & Hu & Hi & Hx & Hb & Hr). simpl.
      exists (rank_in p (ranking_of trader) e). split; [reflexivity|].
      simpl. repeat split; try assumption.
      intros period. rewrite get_set, last_visit_snoc. unfold walletOf. simpl.
      fold w. rewrite String.eqb_refl, andb_true_r.
      destruct (String.eqb p period); [reflexivity | apply Hr].
    + rewrite Hget. simpl.
      exists (rank_in p (ranking_of trader) (fresh trader)). split; [reflexivity|].
      simpl. repeat split.
      intros period. rewrite get_set, last_visit_snoc. unfold walletOf. simpl.
      fold w. rewrite String.eqb_refl, andb_true_r.
      destruct (String.eqb p period); [reflexivity|].
      rewrite last_visit_none; [reflexivity | exact Efirst].
  - destruct (List.find _ (List.map snd seen)) as [first|] eqn:Efirst.
    + destruct Hget as (e & -> & Hw & Hu & Hi & Hx & Hb & Hr).
      exists e. split; [reflexivity|]. repeat split; try assumption.
      intros period. rewrite last_visit_snoc. unfold walletOf. simpl. fold w.
      assert (String.eqb w k = false) as -> by (apply String.eqb_neq; exact Hne).
      rewrite andb_false_r. apply Hr.
    + rewrite Hget. reflexivity.
Qed.

Lemma inv_fold_index rows seen m :
  inv seen m -> inv (seen ++ rows) (fold_left step rows m).
Proof.
  revert seen m. induction rows as [|pr rows IH]; intros seen m Hinv; simpl.
  - rewrite List.app_nil_r. exact Hinv.
  - replace (seen ++ pr :: rows) with ((seen ++ [pr]) ++ rows)
      by (rewrite <- List.app_assoc; reflexivity).
    apply IH, inv_step_index, Hinv.
Qed.

Lemma fold_period (period : string) (l : list (@Row Json)) m :
  fold_left step (List.map (pair period) l) m = fold_left (index_step period) l m.
Proof.
  revert m. induction l as [|r l IH]; intros m; simpl; [reflexivity|]. apply IH.
Qed.

Lemma fold_visited (allData : string -> @PeriodData Json) (ps : list string) m :
  fold_left (index_period allData) ps m =
  fold_left step
    (flat_map (fun period => List.map (pair period) (listed allData period)) ps) m.
Proof.
  revert m. induction ps as [|p ps IH]; intros m; simpl; [reflexivity|].
  rewrite List.fold_left_app, fold_period. apply IH.
Qed.

Lemma index_inv (allData : string -> @PeriodData Json) :
  inv (visited allData) (fold_left (index_period allData) periods []).
Proof.
  rewrite fold_visited. apply (inv_fold_index _ [] []), inv_nil_index.
Qed.

(** An entry of the index, read through its wallet. *)
Lemma index_entry (allData : string -> @PeriodData Json) (e : @Entry Json) :
  In e (traderIndex allData) ->
  exists trader,
    get (fold_left (index_period allData) periods []) (wallet e) = Some e /\
    first_in (wallet e) (List.map snd (visited allData)) = Some trader /\
    userName e = Leaderboard.userName (base trader) /\
    e_profileImage e = profileImage trader /\
    e_xUsername e = xUsername trader /\
    e_verifiedBadge e = verifiedBadge trader /\
    forall period,
      get (rankings e) period =
        option_map (fun pr => ranking_of (snd pr))
          (last_visit period (wallet e) (visited allData)).
Proof.
  destruct (index_inv allData) as [Hnd Hget].
  unfold traderIndex, values. intros He.
  apply List.in_map_iff in He as ([k e'] & <- & Hin). simpl.
  pose proof (get_In _ _ _ Hnd Hin) as Hk. specialize (Hget k).
  destruct (first_in k _) as [trader|] eqn:Efirst; [|congruence].
  destruct Hget as (e & He & Hw & Hrest). rewrite Hk in He. injection He as <-.
  subst k. exists trader. split; [exact Hk|]. split; [exact Efirst | exact Hrest].
Qed.

(** X20: the trader index holds one entry per wallet, for exactly the
    wallets that occur in some list of some period, and an entry takes its
    name, image, handle and badge from the first row of its wallet in the
    order the periods and their lists are gone through. *)
Theorem traderIndex_entries (allData : string -> @PeriodData Json) :
  let traders := traderIndex allData in
  List.NoDup (List.map wallet traders) /\
  (forall w, In w (List.map wallet traders) <->
             exists period trader,
               In (period, trader) (visited allData) /\
               proxyWallet (base trader) = w) /\
  Forall (identified allData) traders.
Proof.
  cbv zeta. destruct (index_inv allData) as [Hnd Hget]. split; [|split].
  - unfold traderIndex, values. rewrite List.map_map.
    rewrite (List.map_ext_in _ fst); [exact Hnd|].
    intros [k e] Hin. simpl.
    destruct (index_entry allData e) as (trader & Hk & _).
    { unfold traderIndex, values. apply (List.in_map snd _ _ Hin). }
    apply get_Some in Hk.
    pose proof (get_In _ _ _ Hnd Hin) as H1. pose proof (get_In _ _ _ Hnd Hk) as H2.
    destruct (String.string_dec (wallet e) k) as [Heq|Hne]; [exact Heq|].
    exfalso. specialize (Hget k). rewrite H1 in Hget.
    destruct (first_in k _); [|discriminate].
    destruct Hget as (e0 & [= <-] & Hw & _). contradiction.
  - intros w. split.
    + intros Hw. apply List.in_map_iff in Hw as (e & <- & He).
      destruct (index_entry allData e He) as (trader & _ & Hfirst & _).
      apply List.find_some in Hfirst as [Hin Heq].
      apply String.eqb_eq in Heq.
      apply List.in_map_iff in Hin as ([period t] & <- & Hin).
      exists period, t. split; [exact Hin | exact Heq].
    + intros (period & trader & Hin & <-).
      specialize (Hget (proxyWallet (base trader))).
      destruct (first_in _ _) as [first|] eqn:Efirst.
      * destruct Hget as (e & He & Hw & _). apply get_Some in He.
        apply List.in_map_iff. exists e. split; [exact Hw|].
        unfold traderIndex, values. apply (List.in_map snd _ _ He).
      * exfalso.
        pose proof (List.find_none _ _ Efirst trader
                      (List.in_map snd _ _ Hin)) as H.
        simpl in H. rewrite String.eqb_refl in H. discriminate.
  - apply List.Forall_forall. intros e He.
    destruct (index_entry allData e He) as (trader & _ & Hfirst & Hu & Hi & Hx & Hb & _).
    exists trader. repeat split; assumption.
Qed.

Lemma find_pair (period p k : string) (l : list (@Row Json)) :
  List.find (fun pr => String.eqb (fst pr) period && String.eqb (walletOf pr) k)
    (List.map (pair p) l) =
  if String.eqb p period then option_map (pair p) (first_in k l) else None.
Proof.
  unfold first_in, walletOf. induction l as [|r l IH]; simpl.
  - destruct (String.eqb p period); reflexivity.
  - destruct (String.eqb p period) eqn:Ep; simpl.
    + destruct (String.eqb (proxyWallet (base r)) k); [reflexivity|].
      rewrite IH. reflexivity.
    + rewrite IH. reflexivity.
Qed.

Lemma last_visit_blocks (allData : string -> @PeriodData Json)
    (ps : list string) (period k : string) :
  List.NoDup ps ->
  last_visit period k
    (flat_map (fun q => List.map (pair q) (listed allData q)) ps) =
  if existsb (String.eqb period) ps
  then option_map (pair period) (last_in k (listed allData period))
  else None.
Proof.
  induction ps as [|p ps IH] using List.rev_ind; intros Hnd; [reflexivity|].
  apply List.NoDup_remove in Hnd as [Hnd Hnot]. rewrite List.app_nil_r in Hnd, Hnot.
  specialize (IH Hnd).
  unfold last_visit in *. rewrite List.flat_map_app. simpl. rewrite List.app_nil_r.
  rewrite List.rev_app_distr, find_app_first, <- List.map_rev, find_pair.
  rewrite List.existsb_app. simpl. rewrite orb_false_r.
  destruct (String.eqb_spec p period) as [->|Hne].
  - rewrite String.eqb_refl, orb_true_r. unfold last_in.
    destruct (first_in k (rev (listed allData period))); [reflexivity|]. simpl.
    rewrite IH.
    destruct (existsb (String.eqb period) ps) eqn:Eex; [|reflexivity].
    exfalso. apply List.existsb_exists in Eex as (q & Hq & Heq).
    apply String.eqb_eq in Heq. subst q. contradiction.
  - assert (String.eqb period p = false) as ->
      by (apply String.eqb_neq; congruence).
    rewrite orb_false_r. exact IH.
Qed.

Lemma last_in_app (k : string) (l1 l2 : list (@Row Json)) :
  last_in k (l1 ++ l2) =
  match last_in k l2 with Some r => Some r | None => last_in k l1 end.
Proof. unfold last_in, first_in. rewrite List.rev_app_distr. apply find_app_first. Qed.

(** X21: for each of the four periods, an entry's ranking is taken from
    the last row of its wallet in the period's by-volume list when the
    wallet is there, so that [pnlRank] then holds the rank by volume, and
    from the last such row of the by-profit list otherwise; a wallet in
    neither has no ranking for the period. *)
Theorem traderIndex_rankings (allData : string -> @PeriodData Json) :
  Forall (ranked_last allData) (traderIndex allData).
Proof.
  apply List.Forall_forall. intros e He period.
  destruct (index_entry allData e He) as (trader & _ & _ & _ & _ & _ & _ & Hr).
  rewrite Hr. unfold visited. rewrite last_visit_blocks.
  - destruct (existsb (String.eqb period) periods); [|reflexivity].
    unfold listed. rewrite last_in_app.
    destruct (last_in (wallet e) (byVolume (allData period)));
      [reflexivity|]. destruct (last_in _ _); reflexivity.
  - unfold periods. repeat constructor; simpl; intros H;
      repeat (destruct H as [H|H]; [discriminate|]); exact H.
Qed.

End IndexFacts.

(** ** The Cloud Run watcher's watchlist *)

Section CloudWatchlistFacts.
Import Js Metrics Leaderboard Aggregator CloudWatchlist.
Local Open Scope Q_scope.

Lemma In_update {V} (m : TraderMap V) (k0 : string) (f : V -> V) (k : string) (v' : V) :
  In (k, v') (TraderIndex.update m k0 f) <->
  exists v, In (k, v) m /\ v' = if String.eqb k k0 then f v else v.
Proof.
  unfold TraderIndex.update. rewrite List.in_map_iff. split.
  - intros ([a b] & Heq & Hin). simpl in Heq.
    destruct (String.eqb a k0) eqn:E; injection Heq as <- <-;
      exists b; rewrite E; auto.
  - intros (v & Hin & ->). exists (k, v). simpl.
    destruct (String.eqb k k0); auto.
Qed.

Lemma NoDup_map_same {A B} (f : A -> B) (l : list A) (a b : A) :
  List.NoDup (List.map f l) -> In a l -> In b l -> f a = f b -> a = b.
Proof.
  induction l as [|x l IH]; simpl; [contradiction|].
  intros Hnd Ha Hb Hf. apply List.NoDup_cons_iff in Hnd as [Hnot Hnd].
  destruct Ha as [->|Ha], Hb as [->|Hb]; auto.
  - exfalso. apply Hnot. rewrite Hf. apply List.in_map, Hb.
  - exfalso. apply Hnot. rewrite <- Hf. apply List.in_map, Ha.
Qed.

(** What the candidate loop can have made of the object stored under [k]. *)
Let marks_of (fetch : string -> option (list ClosedPosition))
    (tops : list WatchEntry) (k : string) (w0 w' : Watched) : Prop :=
  w' = w0 \/
  exists trader closed,
    In trader tops /\ wallet trader = k /\ fetch k = Some closed /\
    criteria closed trader = true /\ w' = mark closed w0.

Lemma check_fold (fetch : string -> option (list ClosedPosition))
    (tops : list WatchEntry) (marked : TraderMap Watched) :
  List.map fst (fold_left (check fetch) tops marked) = List.map fst marked /\
  forall k w', In (k, w') (fold_left (check fetch) tops marked) ->
    exists w0, In (k, w0) marked /\ marks_of fetch tops k w0 w'.
Proof.
  revert marked. induction tops as [|t tops IH]; intros marked; simpl.
  - split; [reflexivity|]. intros k w' Hin. exists w'. split; [exact Hin | left; reflexivity].
  - destruct (IH (check fetch marked t)) as [Hkeys Hin]. split.
    + rewrite Hkeys. unfold check.
      destruct (fetch (wallet t)); [|reflexivity].
      destruct (criteria _ _); [apply update_keys | reflexivity].
    + intros k w' Hw'. destruct (Hin k w' Hw') as (w1 & Hw1 & Hmarks).
      assert (exists w0, In (k, w0) marked /\ marks_of fetch [t] k w0 w1)
        as (w0 & Hw0 & Hfirst).
      { unfold check in Hw1.
        destruct (fetch (wallet t)) as [closed|] eqn:Ef;
          [|exists w1; split; [exact Hw1 | left; reflexivity]].
        destruct (criteria closed t) eqn:Ec;
          [|exists w1; split; [exact Hw1 | left; reflexivity]].
        apply In_update in Hw1 as (w0 & Hw0 & ->). exists w0. split; [exact Hw0|].
        destruct (String.eqb_spec k (wallet t)) as [->|Hne]; [|left; reflexivity].
        right. exists t, closed. repeat split; auto. left. reflexivity. }
      exists w0. split; [exact Hw0|].
      destruct Hmarks as [->|(trader & closed & Ht & Hk & Hf & Hc & ->)].
      * destruct Hfirst as [->|(trader & closed & [<-|[]] & Hk & Hf & Hc & ->)];
          [left; reflexivity|].
        right. exists t, closed. repeat split; auto. left. reflexivity.
      * destruct Hfirst as [->|(trader1 & closed1 & _ & Hk1 & Hf1 & Hc1 & ->)].
        -- right. exists trader, closed.
           split; [right; exact Ht|]. repeat split; assumption.
        -- right. exists trader, closed.
           split; [right; exact Ht|]. split; [exact Hk|]. split; [exact Hf|].
           split; [exact Hc|].
           assert (closed1 = closed) as -> by congruence. reflexivity.
Qed.

(** The entries the dedupe loop stores. *)
Lemma watch_entries (sources : list (list Trader)) :
  let traderMap := watch_traderMap sources in
  List.NoDup (List.map fst traderMap) /\
  forall k e, In (k, e) traderMap ->
    exists t, e = entry_of t /\ k = proxyWallet t /\ qualifies 10000 t = true.
Proof.
  cbv zeta. rewrite watch_traderMap_spec.
  assert (forall l m,
            (List.NoDup (List.map fst m) /\
             forall k t, In (k, t) m -> k = proxyWallet t /\ qualifies 10000 t = true) ->
            List.NoDup (List.map fst (fold_left (dedupe_step 10000) l m)) /\
            forall k t, In (k, t) (fold_left (dedupe_step 10000) l m) ->
              k = proxyWallet t /\ qualifies 10000 t = true) as Hfold.
  { induction l as [|t l IH]; intros m Hm; simpl; [exact Hm|]. apply IH.
    destruct Hm as [Hnd Hm]. unfold dedupe_step.
    destruct (negb (has m (proxyWallet t)) && qualifies 10000 t) eqn:Hg;
      [|split; assumption].
    apply andb_true_iff in Hg as [Hf Hq]. apply negb_true_iff in Hf.
    rewrite (set_fresh _ _ _ Hf). split.
    - rewrite List.map_app. simpl. apply List.NoDup_app; [exact Hnd| |].
      + repeat constructor. simpl. tauto.
      + intros k Hk [<-|[]]. apply has_false in Hf. exact (Hf Hk).
    - intros k t' Hin. apply List.in_app_or in Hin as [Hin|[[= <- <-]|[]]];
        [apply Hm, Hin | auto]. }
  destruct (Hfold (concat sources) []) as [Hnd Hin].
  { split; [constructor | intros k t []]. }
  fold (dedupe 10000 sources) in Hnd, Hin. split.
  - rewrite List.map_map. simpl. exact Hnd.
  - intros k e He. apply List.in_map_iff in He as ([k' t] & [= <- <-] & Ht).
    destruct (Hin _ _ Ht) as [Hk Hq]. exists t. auto.
Qed.

Lemma entry_of_fields (t : Trader) :
  qualifies 10000 t = true ->
  exists p v e,
    entryPnl (entry_of t) = Some p /\ Aggregator.volume (entry_of t) = Some v /\
    entryEfficiency (entry_of t) = Some e /\ 0 < p /\ 10000 < v /\ e == p / v.
Proof.
  intros Hq.
  destruct (qualifies_fields 10000 t) as (p & v & Hp & Hv & Hp0 & Hv0 & _ & Ev);
    [discriminate | exact Hq |].
  exists p, v, (p / v). unfold entry_of. simpl. rewrite Hp, Hv.
  repeat split; try assumption; try reflexivity.
  f_equal. unfold or_num in *. rewrite Hv in Ev.
  destruct (Qeq_bool v 0) eqn:E; [|reflexivity].
  apply Qeq_bool_iff in E. exfalso. rewrite E in Hv0. discriminate.
Qed.

(** The map after the candidate loop, entry by entry. *)
Lemma checked_entries (sources : list (list Trader))
    (fetch : string -> option (list ClosedPosition)) :
  List.NoDup (List.map fst (checked sources fetch)) /\
  forall k w, In (k, w) (checked sources fetch) ->
    k = wallet (entry w) /\ watched_ok sources fetch w.
Proof.
  destruct (watch_entries sources) as [Hnd Hentries]. unfold checked. cbv zeta.
  set (traderMap := watch_traderMap sources) in *.
  destruct (check_fold fetch (topTraders traderMap)
              (List.map (fun kv => (fst kv, unmarked (snd kv))) traderMap))
    as [Hkeys Hin].
  split.
  { rewrite Hkeys, List.map_map. simpl. exact Hnd. }
  intros k w Hw. destruct (Hin k w Hw) as (w0 & Hw0 & Hmarks).
  apply List.in_map_iff in Hw0 as ([k' e] & [= -> <-] & He). simpl in *.
  destruct (Hentries k e He) as (t & -> & -> & Hq).
  destruct (entry_of_fields t Hq) as (p & v & eff & Hp & Hv & Heff & Hp0 & Hv0 & Hpv).
  destruct Hmarks as [->|(trader & closed & Ht & Hk & Hf & Hc & ->)].
  - split; [reflexivity|]. split; [|split].
    + exists p, v, eff. repeat split; assumption.
    + intros _. split; reflexivity.
    + intros Hcand. discriminate.
  - split; [reflexivity|]. split; [|split].
    + exists p, v, eff. repeat split; assumption.
    + intros Hcand. discriminate.
    + intros _. exists closed, eff.
      assert (trader = entry_of t) as ->.
      { apply (NoDup_map_same Aggregator.wallet (values traderMap)).
        - unfold values. rewrite List.map_map.
          rewrite (List.map_ext_in _ fst); [exact Hnd|].
          intros [k e] Hke. simpl. destruct (Hentries k e Hke) as (t' & -> & -> & _).
          reflexivity.
        - unfold topTraders in Ht. apply In_firstn in Ht. apply sort_In in Ht. exact Ht.
        - unfold values. apply (List.in_map snd _ _ He).
        - exact Hk. }
      unfold criteria in Hc. rewrite Heff in Hc.
      apply andb_true_iff in Hc as [Hc He3]. apply andb_true_iff in Hc as [Hn Hr].
      apply Nat.leb_le in Hn. apply Qle_bool_iff in Hr, He3.
      repeat split; try assumption.
      exact (List.in_map Aggregator.wallet _ (entry_of t) Ht).
Qed.

Lemma sorted_weaken_on {A} (P : A -> Prop) (R S : A -> A -> Prop) (l : list A) :
  (forall a b, P a -> P b -> R a b -> S a b) ->
  Forall P l -> StronglySorted R l -> StronglySorted S l.
Proof.
  intros HRS HP. induction 1 as [|x l Hl IH Hx]; [constructor|].
  inversion HP as [|? ? Px Pl]; subst. constructor; [apply IH, Pl|].
  rewrite List.Forall_forall in Hx, Pl |- *. intros b Hb.
  apply HRS; auto.
Qed.

Let rated (w : Watched) : Prop := exists e, entryEfficiency (entry w) = Some e.

Lemma before_rated (a b : Watched) (x y : Q) :
  entryEfficiency (entry a) = Some x -> entryEfficiency (entry b) = Some y ->
  (before a b <->
   (candidate a = true /\ candidate b = false) \/
   (candidate a = candidate b /\ y <= x)).
Proof.
  intros Hx Hy. unfold before. split.
  - intros [H|(Hc & x' & y' & Hx' & Hy' & Hle)]; [left; exact H|]. right.
    rewrite Hx in Hx'. rewrite Hy in Hy'.
    injection Hx' as <-. injection Hy' as <-. auto.
  - intros [H|[Hc Hle]]; [left; exact H|]. right. split; [exact Hc|].
    exists x, y. auto.
Qed.

Lemma priority_rated (a b : Watched) (x y : Q) :
  entryEfficiency (entry a) = Some x -> entryEfficiency (entry b) = Some y ->
  (priority a b <= 0 <->
   (candidate a = true /\ candidate b = false) \/
   (candidate a = candidate b /\ y <= x)).
Proof.
  intros Hx Hy. unfold priority, by_efficiency. rewrite Hx, Hy.
  destruct (candidate a), (candidate b); simpl; split.
  - intros H. right. split; [reflexivity | Lqa.lra].
  - intros [[_ H]|[_ H]]; [discriminate H | Lqa.lra].
  - intros _. left. split; reflexivity.
  - intros _. apply Qlt_le_weak. reflexivity.
  - intros H. exfalso. apply (Qle_not_lt _ _ H). reflexivity.
  - intros [[H _]|[H _]]; discriminate H.
  - intros H. right. split; [reflexivity | Lqa.lra].
  - intros [[H _]|[_ H]]; [discriminate H | Lqa.lra].
Qed.

Lemma priority_before (a b : Watched) :
  rated a -> rated b -> (priority a b <= 0 <-> before a b).
Proof.
  intros [x Hx] [y Hy].
  rewrite (priority_rated a b x y Hx Hy), (before_rated a b x y Hx Hy). reflexivity.
Qed.

Lemma priority_orders :
  JsArray.orders_on rated (fun a b => Qltb 0 (priority a b)).
Proof.
  split.
  - intros a b [x Hx] [y Hy].
    rewrite !Qltb_ge, (priority_rated a b x y Hx Hy), (priority_rated b a y x Hy Hx).
    destruct (candidate a), (candidate b);
      destruct (Qlt_le_dec x y) as [H|H];
      first [ left; left; split; reflexivity
            | right; left; split; reflexivity
            | left; right; split; [reflexivity | Lqa.lra]
            | right; right; split; [reflexivity | Lqa.lra] ].
  - intros a b c [x Hx] [y Hy] [z Hz].
    rewrite !Qltb_ge, (priority_rated a b x y Hx Hy), (priority_rated b c y z Hy Hz),
      (priority_rated a c x z Hx Hz).
    intros [[Ha1 Hb1]|[Hab Hxy]] [[Hb2 Hc2]|[Hbc Hyz]].
    + congruence.
    + left. split; congruence.
    + left. split; congruence.
    + right. split; [congruence | Lqa.lra].
Qed.

(** X22: the watchlist the Cloud Run watcher stores has at most 50
    traders and no wallet twice; the copy candidates come first, and among
    the candidates as among the others the more efficient come first.
    Every trader on it has a profit above zero and a volume above 10000.
    A trader is marked as a copy candidate only if it was among the 40
    most efficient, its closed positions were fetched and show 15 trades
    or more and a win rate of 70% or more, and its efficiency is 30% or
    more; the wallets stored as copy candidates are those of the marked
    traders on the list. *)
Theorem updateWatchlist_candidates_first (sources : list (list Trader))
    (fetch : string -> option (list ClosedPosition)) :
  exists watchlist copyCandidates,
    updateWatchlist (Some sources) fetch = Some (watchlist, copyCandidates) /\
    (length watchlist <= 50)%nat /\
    List.NoDup (List.map (fun t => wallet (entry t)) watchlist) /\
    StronglySorted before watchlist /\
    Forall (watched_ok sources fetch) watchlist /\
    (forall w, In w copyCandidates <->
       exists t, In t watchlist /\ candidate t = true /\ wallet (entry t) = w).
Proof.
  destruct (checked_entries sources fetch) as [Hnd Hentries].
  eexists. eexists. split; [reflexivity|].
  set (all := JsArray.sort priority (values (checked sources fetch))).
  assert (forall t, In t all -> In (wallet (entry t), t) (checked sources fetch)) as Hall.
  { intros t Ht. apply sort_In in Ht. unfold values in Ht.
    apply List.in_map_iff in Ht as ([k w] & <- & Hkw). simpl.
    destruct (Hentries k w Hkw) as [-> _]. exact Hkw. }
  assert (Forall rated all) as Hrated.
  { apply List.Forall_forall. intros t Ht.
    destruct (Hentries _ _ (Hall t Ht)) as [_ ((p & v & e & _ & _ & He & _) & _)].
    exists e. exact He. }
  split; [apply List.firstn_le_length|]. split; [|split; [|split]].
  - rewrite <- List.firstn_map. apply NoDup_firstn.
    eapply Permutation.Permutation_NoDup; [apply Permutation_map, sort_perm|].
    unfold values. rewrite List.map_map.
    rewrite (List.map_ext_in _ fst); [exact Hnd|].
    intros [k w] Hkw. simpl. destruct (Hentries k w Hkw) as [-> _]. reflexivity.
  - apply sorted_firstn.
    apply (sorted_weaken_on rated (fun a b => Qltb 0 (priority a b) = false)).
    + intros a b Ha Hb H. apply priority_before; [assumption..|]. apply Qltb_ge, H.
    + exact Hrated.
    + apply (sort_when_sorted _ rated priority_orders).
      rewrite List.Forall_forall in Hrated |- *. intros t Ht.
      apply Hrated, sort_In. exact Ht.
  - apply List.Forall_forall. intros t Ht. apply In_firstn in Ht.
    apply (Hentries _ _ (Hall t Ht)).
  - intros w. rewrite List.in_map_iff. split.
    + intros (t & <- & Ht). apply List.filter_In in Ht as [Ht Hc]. exists t. auto.
    + intros (t & Ht & Hc & <-). exists t. split; [reflexivity|].
      apply List.filter_In. auto.
Qed.

End CloudWatchlistFacts.

(** ** The activity endpoint *)

Section ActivityEndpoint.
Import Js Activity Leaderboard ActivityFeed.
Local Open Scope Q_scope.

Let timed (a : CloudWatcher.Alert) : Prop := timeOf a <> NaN.

Lemma by_time_le (a b : CloudWatcher.Alert) :
  timed a -> timed b -> (by_time a b <= 0 <-> not_newer a b).
Proof.
  unfold timed, by_time, not_newer. intros Ha Hb.
  destruct (timeOf a) as [x|]; [|congruence].
  destruct (timeOf b) as [y|]; [|congruence].
  change 0 with (inject_Z 0). rewrite <- Zle_Qle. split.
  - intros H. exists x, y. repeat split. lia.
  - intros (x' & y' & [= <-] & [= <-] & H). lia.
Qed.

Lemma by_time_orders :
  JsArray.orders_on timed (fun a b => Qltb 0 (by_time a b)).
Proof.
  split.
  - intros a b Ha Hb. rewrite !Qltb_ge, !by_time_le by assumption.
    unfold timed, not_newer in *.
    destruct (timeOf a) as [x|]; [|congruence].
    destruct (timeOf b) as [y|]; [|congruence].
    destruct (Z_le_gt_dec y x) as [H|H].
    + left. exists x, y. auto.
    + right. exists y, x. repeat split. lia.
  - intros a b c Ha Hb Hc. rewrite !Qltb_ge, !by_time_le by assumption.
    intros (x & y & Hx & Hy & Hxy) (y' & z & Hy' & Hz & Hyz).
    exists x, z. repeat split; try assumption.
    rewrite Hy in Hy'. injection Hy' as <-. lia.
Qed.

(** X23: the activity endpoint answers with at most 50 trades, each of
    size 1000 or more and each made by one of the first ten traders of the
    leaderboard whose activity fetch came back.  When the timestamps of
    all gathered trades parse, the answer is sorted with the newest first
    and no gathered trade it leaves out is newer than one it returns. *)
Theorem activity_feed_newest (topTraders : list Trader)
    (fetchActivity : string -> option (list Trade)) :
  exists out,
    handler (Some topTraders) fetchActivity = Some out /\
    (length out <= 50)%nat /\
    Forall (fun a =>
        1000 <= CloudWatcher.a_size a /\
        exists trader, In trader (firstn 10 topTraders) /\
          CloudWatcher.a_wallet a = proxyWallet trader /\
          fetchActivity (proxyWallet trader) <> None)
      out /\
    (Forall (fun a => timeOf a <> NaN) (gathered topTraders fetchActivity) ->
     StronglySorted not_newer out /\
     Forall (fun a =>
         Forall (not_newer a)
           (skipn 50 (JsArray.sort by_time (gathered topTraders fetchActivity))))
       out).
Proof.
  eexists. split; [reflexivity|].
  set (all := JsArray.sort by_time (gathered topTraders fetchActivity)).
  split; [apply List.firstn_le_length|]. split.
  - apply List.Forall_forall. intros a Ha. apply In_firstn in Ha.
    apply sort_In in Ha. unfold gathered in Ha.
    apply List.in_flat_map in Ha as (trader & Ht & Ha). unfold pushed in Ha.
    destruct (fetchActivity (proxyWallet trader)) as [activity|] eqn:Ef;
      [|contradiction].
    apply List.in_map_iff in Ha as (trade & <- & Htrade).
    apply List.filter_In in Htrade as [_ Hlarge]. split.
    + unfold large in Hlarge. apply negb_true_iff in Hlarge.
      apply Qltb_ge in Hlarge. exact Hlarge.
    + exists trader. repeat split; [exact Ht | congruence].
  - intros Htimed.
    assert (Forall timed all) as Hall.
    { rewrite List.Forall_forall in Htimed |- *. intros a Ha.
      apply Htimed. apply (proj1 (sort_In by_time _ a)). exact Ha. }
    assert (StronglySorted not_newer all) as Hsorted.
    { apply (sorted_weaken_on timed (fun a b => Qltb 0 (by_time a b) = false)).
      - intros a b Ha Hb H. apply by_time_le; [assumption..|]. apply Qltb_ge, H.
      - exact Hall.
      - apply (sort_when_sorted _ timed by_time_orders). exact Htimed. }
    split; [apply sorted_firstn, Hsorted|].
    apply List.Forall_forall. intros a Ha. apply List.Forall_forall. intros b Hb.
    apply (sorted_prefix_first _ 50 all a b Hsorted Ha Hb).
Qed.

End ActivityEndpoint.

(** ** Printing amounts *)

Section Amounts.
Import Js Report.
Local Open Scope string_scope.
Variable toLocaleString : Q -> string.

Lemma Qabs_negative (q : Q) : (q < 0)%Q -> Qabs q = (- q)%Q.
Proof.
  destruct q as [n d]. unfold Qlt, Qabs, Qopp. simpl. intros H.
  f_equal. lia.
Qed.

Lemma Qabs_opp_eq (q : Q) : Qabs (- q) = Qabs q.
Proof. destruct q as [n d]. unfold Qabs, Qopp. simpl. f_equal. lia. Qed.

(** X24: [formatMoney] prints a loss without a sign: for a negative
    amount the text starts at the dollar sign, and the gain of the same
    size reads the same but for the leading plus. *)
Theorem formatMoney_drops_minus (q : Q) :
  (q < 0)%Q ->
  formatMoney toLocaleString (Some q) = "$" ++ toLocaleString (- q)%Q /\
  formatMoney toLocaleString (Some (- q)%Q) =
    "+" ++ formatMoney toLocaleString (Some q).
Proof.
  intros Hq. unfold formatMoney.
  assert (Qle_bool 0 q = false) as ->.
  { apply not_true_iff_false. rewrite Qle_bool_iff. intros H.
    apply (Qlt_not_le _ _ Hq H). }
  assert (Qle_bool 0 (- q) = true) as ->.
  { apply Qle_bool_iff. Lqa.lra. }
  rewrite Qabs_opp_eq, (Qabs_negative q Hq). split; reflexivity.
Qed.

End Amounts.

Lemma formatMoney_drops_minus_witness :
  Report.formatMoney (fun _ => "1,234"%string) (Some (-1234)%Q) = ("$" ++ "1,234")%string /\
  Report.formatMoney (fun _ => "1,234"%string) (Some (- (-1234))%Q) =
    ("+" ++ Report.formatMoney (fun _ => "1,234"%string) (Some (-1234)%Q))%string.
Proof.
  apply (formatMoney_drops_minus (fun _ => "1,234"%string) (-1234)%Q). reflexivity.
Defined.

(** ** The following list and the signals *)

Section FollowingFeeds.
Import Js Signals SignalFeed Following.
Variable toLowerCase : string -> string.

Lemma gather_In (following : list Followed)
    (fetchPositions : string -> option (list Position)) (p : Position) :
  In p (gather following fetchPositions) <->
  exists trader positions q,
    In trader following /\ fetchPositions (wallet trader) = Some positions /\
    In q positions /\ p = tag trader q.
Proof.
  unfold gather. rewrite List.in_flat_map. split.
  - intros (trader & Ht & Hp). unfold getTraderPositions in Hp.
    destruct (fetchPositions (wallet trader)) as [positions|] eqn:E; [|contradiction].
    apply List.in_map_iff in Hp as (q & <- & Hq).
    exists trader, positions, q. auto.
  - intros (trader & positions & q & Ht & Hf & Hq & ->).
    exists trader. split; [exact Ht|]. unfold getTraderPositions. rewrite Hf.
    apply List.in_map, Hq.
Qed.

(** X25: the following list decides whose positions go into the signals.
    After [remove], no gathered position carries a wallet or a name that
    matches the argument.  After [add], a followed trader has the wallet
    up to the case of its letters, and every position fetched for that
    trader's wallet, as it is stored, is gathered under its name. *)
Theorem following_drives_gathering (x : string) (n : option string) (file : File)
    (fetchPositions : string -> option (list Position)) :
  Forall (fun p =>
      toLowerCase (traderWallet p) <> toLowerCase x /\
      toLowerCase (traderName p) <> toLowerCase x)
    (gather (loadFollowing (removeTrader toLowerCase x file)) fetchPositions) /\
  exists trader,
    In trader (loadFollowing (addTrader toLowerCase x n file)) /\
    toLowerCase (wallet trader) = toLowerCase x /\
    forall positions q,
      fetchPositions (wallet trader) = Some positions -> In q positions ->
      In (tag trader q)
         (gather (loadFollowing (addTrader toLowerCase x n file)) fetchPositions).
Proof.
  split.
  - apply List.Forall_forall. intros p Hp.
    apply gather_In in Hp as (trader & positions & q & Ht & _ & _ & ->). simpl.
    rewrite removeTrader_load in Ht. apply List.filter_In in Ht as [_ Ht].
    unfold stays in Ht. apply andb_prop in Ht as [H1 H2].
    apply negb_true_iff in H1, H2. split; apply same_false; assumption.
  - pose proof (addTrader_In toLowerCase x n file) as Hin.
    apply List.in_map_iff in Hin as (trader & Hw & Ht).
    exists trader. split; [exact Ht|]. split; [exact Hw|].
    intros positions q Hf Hq. apply gather_In.
    exists trader, positions, q. auto.
Qed.

End FollowingFeeds.

(** ** One test for copy candidates *)

Section CandidateTests.
Import Js Metrics Leaderboard Aggregator.
Local Open Scope Q_scope.

Lemma candidate_test_same (trader : Trader) (closed : list ClosedPosition)
    (open : list Screening.OpenPosition) :
  Screening.candidate_of trader closed open <> None <->
  CloudWatchlist.criteria closed (entry_of trader) = true.
Proof.
  unfold Screening.candidate_of, CloudWatchlist.criteria, Screening.efficiencyOf,
    entry_of. cbv zeta. cbn [entryEfficiency].
  destruct (pnl trader) as [p|].
  - destruct ((15 <=? totalTrades closed)%nat && Qle_bool (7 # 10) (winRateOr 0 closed)
              && Qle_bool (3 # 10) (p / or_num (vol trader) 1)).
    + split; [reflexivity | discriminate].
    + split; [intros H; exfalso; apply H; reflexivity | discriminate].
  - rewrite andb_false_r.
    split; [intros H; exfalso; apply H; reflexivity | discriminate].
Qed.

(** X26: the test in the loop of the copy-candidates handler and the
    criteria of the Cloud Run watcher are one predicate of a trader record
    and a list of closed positions.  So every trader the handler lists
    meets the watcher's criteria on the closed positions the handler
    fetched for it.  The programs as wholes do not agree the other way
    round: the handler only looks at traders with a volume above 50000,
    the watcher at those above 10000, and a trader with a profit of 9000
    on a volume of 20000 and fifteen wins is marked by the watcher and not
    listed by the handler. *)
Theorem candidate_tests_agree :
  (forall trader closed open,
     Screening.candidate_of trader closed open <> None <->
     CloudWatchlist.criteria closed (entry_of trader) = true) /\
  (forall sources fetch c,
     In c (Screening.handler sources fetch) ->
     exists trader closed open,
       In trader (concat sources) /\
       Screening.c_wallet c = proxyWallet trader /\
       fetch (proxyWallet trader) = Screening.Details closed open /\
       CloudWatchlist.criteria closed (entry_of trader) = true /\
       50000 < or_num (vol trader) 0) /\
  (Screening.handler [[Samples.mid_volume]]
     (fun _ => Screening.Details Samples.fifteen_wins []) = [] /\
   option_map snd
     (CloudWatchlist.updateWatchlist (Some [[Samples.mid_volume]])
        (fun _ => Some Samples.fifteen_wins)) = Some ["0xdd"%string]).
Proof.
  split; [exact candidate_test_same|]. split.
  - intros sources fetch c Hc. unfold Screening.handler in Hc.
    apply sort_In in Hc.
    apply list_elem_of_In, list_elem_of_omap in Hc as (trader & Ht & Hc).
    apply list_elem_of_In in Ht.
    destruct (fetch (proxyWallet trader)) as [|closed open] eqn:Ef; [discriminate|].
    destruct (handler_traders_spec sources) as [_ Hspec].
    destruct (Hspec trader Ht) as (Hfirst & _ & Hvol).
    exists trader, closed, open. split; [|split; [|split; [|split]]].
    + unfold first_qualifying in Hfirst. apply List.find_some in Hfirst as [Hin _].
      exact Hin.
    + unfold Screening.candidate_of in Hc. cbv zeta in Hc.
      destruct (Screening.efficiencyOf trader); [|discriminate].
      destruct (_ && _); [|discriminate]. injection Hc as <-. reflexivity.
    + exact Ef.
    + apply (candidate_test_same trader closed open). congruence.
    + exact Hvol.
  - vm_compute. split; reflexivity.
Qed.

End CandidateTests.
